(** * broomstick: a shallow embedding of the discovery, analysis and
      navigation core of [broomstick.py], with the properties of its
      specification.

    Conventions of the embedding.
    - Python [str] is [string]; [str.lower] is modelled on the ASCII range
      (other code points are left unchanged).
    - Python [int] cursors and indices are never negative in the program
      (every assignment is guarded by [max(0, ...)] or is an increment), so
      they are [nat]; window arithmetic, where [screen_height - 10] can be
      negative, is done in [Z].
    - [Set[int]] is [gset nat], [Dict[str, _]] is [gmap string _].
    - The operating system (file system, sub-processes) is a record of
      oracle functions [OS]; POSIX path conventions are used. *)

From Stdlib Require Import Ascii String ZArith.
From stdpp Require Import gmap strings list fin_maps sorting.

Open Scope string_scope.
Set Warnings "-register-all,-clear-no-such-hyp".

(* ====================================================================== *)
(** * Strings *)
(* ====================================================================== *)

Module Str.

(** One character of [str.lower()], ASCII range. *)
Definition lower_ascii (c : ascii) : ascii :=
  let n := nat_of_ascii c in
  if (65 <=? n)%nat && (n <=? 90)%nat then ascii_of_nat (n + 32) else c.

(** [s.lower()] *)
Fixpoint lower (s : string) : string :=
  match s with
  | EmptyString => EmptyString
  | String c s' => String (lower_ascii c) (lower s')
  end.

(** [s.startswith(p)] *)
Definition startswith (s p : string) : bool := String.prefix p s.

(** [sub in s] *)
Fixpoint contains (sub s : string) : bool :=
  String.prefix sub s ||
  match s with
  | EmptyString => false
  | String _ s' => contains sub s'
  end.

(** [s.split(sep)] for a one-character separator. *)
Fixpoint split (sep : ascii) (s : string) : list string :=
  match s with
  | EmptyString => [EmptyString]
  | String c s' =>
      if Ascii.eqb c sep then EmptyString :: split sep s'
      else match split sep s' with
           | h :: t => String c h :: t
           | [] => [String c EmptyString]
           end
  end.

(** [sep.join(l)] *)
Fixpoint join (sep : string) (l : list string) : string :=
  match l with
  | [] => EmptyString
  | [x] => x
  | x :: t => x ++ sep ++ join sep t
  end.

(** [x in l] for a list of strings. *)
Definition mem (x : string) (l : list string) : bool := bool_decide (x ∈ l).

(** [c] does not occur in [s]. *)
Fixpoint free_of (c : ascii) (s : string) : bool :=
  match s with
  | EmptyString => true
  | String a s' => negb (Ascii.eqb a c) && free_of c s'
  end.

End Str.

(* ====================================================================== *)
(** * Configuration and constants *)
(* ====================================================================== *)

Definition SYSTEM_PYTHON_PATHS : list string :=
  [ "/usr/bin/python"; "/usr/bin/python2"; "/usr/bin/python3";
    "/System/Library/Frameworks/Python.framework";
    "/Library/Frameworks/Python.framework";
    "C:\Windows\System32"; "C:\Python" ].

Definition PROJECT_VENV_NAMES : list string :=
  [ ".venv"; "venv"; "env"; ".env"; "virtualenv" ].

(** [MANAGER_PATHS], in the insertion order of the dictionary. *)
Definition MANAGER_PATHS : list (string * list string) :=
  [ ("pyenv", ["~/.pyenv/versions"]);
    ("asdf", ["~/.asdf/installs/python"]);
    ("pipx", ["~/.local/pipx/venvs"]);
    ("poetry", ["~/.cache/pypoetry/virtualenvs";
                "~/.local/share/pypoetry/virtualenvs"]);
    ("conda", ["~/miniconda3/envs"; "~/anaconda3/envs"; "~/miniforge3/envs";
               "/opt/miniconda3/envs"; "/opt/anaconda3/envs"]);
    ("pipenv", ["~/.local/share/virtualenvs"]);
    ("hatch", ["~/.local/share/hatch/env/virtual"]);
    ("pdm", ["~/.local/share/pdm/venvs"]);
    ("uv", ["~/.local/share/uv/venvs"; "~/.cache/uv/venvs"]) ].

(* ====================================================================== *)
(** * Paths: [pathlib.PurePosixPath] and [os.path] *)
(* ====================================================================== *)

Module PurePath.

(** A parsed path: its anchor (the root, if any) and its components.
    Parsing drops empty components and ["."]; [".."] is kept. *)
Record t := mk { anchor : string; parts : list string }.

Definition keep_part (x : string) : bool :=
  negb (String.eqb x EmptyString) && negb (String.eqb x ".").

Definition parse_anchor (s : string) : string :=
  if Str.startswith s "///" then "/"
  else if Str.startswith s "//" then "//"
  else if Str.startswith s "/" then "/"
  else EmptyString.

(** [Path(s)] *)
Definition Path (s : string) : t :=
  {| anchor := parse_anchor s;
     parts := List.filter keep_part (Str.split "/" s) |}.

(** [p.name]: the final component, [''] when there is none. *)
Definition name (p : t) : string := List.last (parts p) EmptyString.

(** [p.parent]: the path without its final component (the anchor and the
    empty path are their own parents). *)
Definition parent (p : t) : t :=
  {| anchor := anchor p; parts := List.removelast (parts p) |}.

End PurePath.

(** [os.path.basename], POSIX: what follows the last slash. *)
Definition basename (p : string) : string :=
  List.last (Str.split "/" p) EmptyString.

(** [os.path.join(a, b)], POSIX, two arguments. *)
Definition path_join (a b : string) : string :=
  if Str.startswith b "/" then b
  else if String.eqb a EmptyString then b
  else if Str.startswith (String.string_of_list_ascii
                            (List.rev (String.list_ascii_of_string a))) "/"
       then a ++ b
       else a ++ "/" ++ b.

(** [get_project_name] *)
Definition get_project_name (venv_path : string) : string :=
  let path := PurePath.Path venv_path in
  if Str.mem (PurePath.name path) PROJECT_VENV_NAMES
  then PurePath.name (PurePath.parent path)
  else PurePath.name path.

(* ====================================================================== *)
(** * The operating system, as the program sees it *)
(* ====================================================================== *)

(** Outcome of [subprocess.run(argv, capture_output=True, text=True,
    timeout=t)]. [TimeoutExpired] is a [subprocess.SubprocessError];
    [PermissionError] is an [OSError] that is not a [FileNotFoundError]. *)
Inductive ProcResult :=
  | Completed (returncode : Z) (stdout : string)
  | TimeoutExpired
  | FileNotFoundError
  | PermissionError.

(** A value produced by [json.loads]. Numbers are kept as integers. *)
Inductive json :=
  | JNull
  | JBool (b : bool)
  | JNum (n : Z)
  | JStr (s : string)
  | JArr (l : list json)
  | JObj (kv : list (string * json)).

(** An [os.DirEntry]: its name and [is_dir(follow_symlinks=False)]. *)
Record DirEntry := mkDirEntry { entry_name : string; entry_is_dir : bool }.

(** Outcome of [os.scandir(p)] with the iteration over it: the entries,
    a [PermissionError], or another [OSError] ([FileNotFoundError] for a
    path that is missing, [NotADirectoryError] for one that is no
    directory), which no handler of the program catches. *)
Inductive Listing :=
  | Entries (entries : list DirEntry)
  | ListingDenied
  | ListingFails.

(** The oracles. [getmtime] answers [None] for [OSError]; [json_loads]
    answers [None] for [json.JSONDecodeError]; [dir_size] is the total
    that the walk of [get_dir_size] accumulates. *)
Record OS := mkOS {
  abspath : string -> string;
  realpath : string -> string;
  expanduser : string -> string;
  path_exists : string -> bool;
  isdir : string -> bool;
  access_X_OK : string -> bool;
  scandir : string -> Listing;
  getmtime : string -> option Z;
  dir_size : string -> nat;
  subprocess_run : list string -> ProcResult;
  json_loads : string -> option json;
  environ_PATH : string;
  platform_system : string;
}.

(** [entry.path] for an entry listed by [os.scandir(root)]. *)
Definition entry_path (root : string) (e : DirEntry) : string :=
  path_join root (entry_name e).

(** Python exceptions that the modelled code can let escape. [OSError]
    stands for the [PermissionError] of a process start or of a
    directory listing, which [except PermissionError] catches;
    [NoSuchDirectory] for the [FileNotFoundError] or [NotADirectoryError]
    of a directory listing, which it does not catch. *)
Inductive exn :=
  | KeyError (key : string)
  | TypeError
  | OSError
  | NoSuchDirectory.

(** Outcome of a call that may raise. *)
Inductive result (A : Type) :=
  | Returns (a : A)
  | Raises (e : exn).
Arguments Returns {A} a.
Arguments Raises {A} e.

Definition bind {A B} (r : result A) (k : A -> result B) : result B :=
  match r with
  | Returns a => k a
  | Raises e => Raises e
  end.

(** The value of a call that returns, transformed. *)
Definition result_map {A B} (f : A -> B) (r : result A) : result B :=
  match r with
  | Returns a => Returns (f a)
  | Raises e => Raises e
  end.

Notation "'let!' x ':=' r 'in' k" := (bind r (fun x => k))
  (at level 10, x name, r at level 100, k at level 200).

(* ====================================================================== *)
(** * Utilities *)
(* ====================================================================== *)

Section Utilities.
Variable os : OS.

(** [is_system_path] *)
Definition is_system_path (path : string) : bool :=
  let abs_path := abspath os path in
  existsb (fun sys_path => Str.startswith abs_path sys_path)
          SYSTEM_PYTHON_PATHS.

Definition is_space (c : ascii) : bool :=
  let n := nat_of_ascii c in
  ((9 <=? n)%nat && (n <=? 13)%nat) || (n =? 32)%nat.

Fixpoint lstrip (s : string) : string :=
  match s with
  | String c s' => if is_space c then lstrip s' else s
  | EmptyString => EmptyString
  end.

Definition string_rev (s : string) : string :=
  String.string_of_list_ascii (List.rev (String.list_ascii_of_string s)).

(** [s.strip()], ASCII white space. *)
Definition strip (s : string) : string :=
  string_rev (lstrip (string_rev (lstrip s))).

(** [run_python_command]: the output of a successful run, [None] for a
    non-zero exit, a time-out or a missing executable. *)
Definition run_python_command (python_exec cmd : string)
  : result (option string) :=
  match subprocess_run os [python_exec; "-c"; cmd] with
  | Completed rc out =>
      if (rc =? 0)%Z then Returns (Some (strip out)) else Returns None
  | TimeoutExpired | FileNotFoundError => Returns None
  | PermissionError => Raises OSError
  end.

End Utilities.

(* ====================================================================== *)
(** * Manager classification *)
(* ====================================================================== *)

Inductive Manager :=
  | pyenv | asdf | conda | homebrew | pipx | poetry | pipenv | hatch | pdm
  | uv | system | unknown | venv.

Global Instance Manager_eq_dec : EqDecision Manager.
Proof. solve_decision. Defined.

(** The [if]/[elif] chain of [PythonInterpreter._detect_info]. *)
Definition interpreter_manager (path : string) (is_system : bool) : Manager :=
  let path_lower := Str.lower path in
  if Str.contains ".pyenv" path_lower then pyenv
  else if Str.contains ".asdf" path_lower then asdf
  else if Str.contains "conda" path_lower
          || Str.contains "miniconda" path_lower
          || Str.contains "anaconda" path_lower then conda
  else if Str.contains "homebrew" path_lower
          || Str.contains "cellar" path_lower then homebrew
  else if Str.contains "uv" path_lower then uv
  else if is_system then system
  else unknown.

(** The [if]/[elif] chain of [VirtualEnv._detect_info]. *)
Definition venv_manager (path : string) : Manager :=
  let path_lower := Str.lower path in
  if Str.contains ".pyenv" path_lower then pyenv
  else if Str.contains "pipx" path_lower then pipx
  else if Str.contains "poetry" path_lower then poetry
  else if Str.contains "conda" path_lower
          || Str.contains "miniconda" path_lower
          || Str.contains "anaconda" path_lower then conda
  else if Str.contains "virtualenvs" path_lower
          || Str.contains "pipenv" path_lower then pipenv
  else if Str.contains "hatch" path_lower then hatch
  else if Str.contains "pdm" path_lower then pdm
  else if Str.contains "uv" path_lower then uv
  else venv.

(** An ordered rule list: a rule holds when one of its substrings occurs
    in the lower-cased path; the first rule that holds gives the tag. *)
Definition Rule : Type := list string * Manager.

Definition rule_holds (path_lower : string) (r : Rule) : bool :=
  existsb (fun sub => Str.contains sub path_lower) (fst r).

Fixpoint first_match (rules : list Rule) (fallback : Manager)
    (path_lower : string) : Manager :=
  match rules with
  | [] => fallback
  | r :: rest =>
      if rule_holds path_lower r then snd r
      else first_match rest fallback path_lower
  end.

(** The rule list of interpreters, as the code orders it. *)
Definition interpreter_rules : list Rule :=
  [ ([".pyenv"], pyenv);
    ([".asdf"], asdf);
    (["conda"; "miniconda"; "anaconda"], conda);
    (["homebrew"; "cellar"], homebrew);
    (["uv"], uv) ].

(** The rule list of environments, as the code orders it. *)
Definition venv_rules : list Rule :=
  [ ([".pyenv"], pyenv);
    (["pipx"], pipx);
    (["poetry"], poetry);
    (["conda"; "miniconda"; "anaconda"], conda);
    (["virtualenvs"; "pipenv"], pipenv);
    (["hatch"], hatch);
    (["pdm"], pdm);
    (["uv"], uv) ].

(** The single rule list of the specification (section 4.1): pyenv, asdf,
    conda-family, homebrew, pipx, poetry, pipenv/virtualenvs, hatch, pdm,
    uv, with the substrings that the code tests for each manager. *)
Definition spec_rules : list Rule :=
  [ ([".pyenv"], pyenv);
    ([".asdf"], asdf);
    (["conda"; "miniconda"; "anaconda"], conda);
    (["homebrew"; "cellar"], homebrew);
    (["pipx"], pipx);
    (["poetry"], poetry);
    (["virtualenvs"; "pipenv"], pipenv);
    (["hatch"], hatch);
    (["pdm"], pdm);
    (["uv"], uv) ].

(** [classify(path, is_interpreter)] as the specification words it: the
    single list, then the fallback [system]/[unknown] for an interpreter
    and [venv] for an environment. *)
Definition spec_classify (path : string) (is_interpreter is_system : bool)
  : Manager :=
  first_match spec_rules
    (if is_interpreter then (if is_system then system else unknown) else venv)
    (Str.lower path).

(* ====================================================================== *)
(** * Records *)
(* ====================================================================== *)

(** [class PythonInterpreter] *)
Record PythonInterpreter := mkPythonInterpreter {
  interp_path : string;
  interp_version : option string;
  interp_manager : Manager;
  interp_is_system : bool;
  interp_size_bytes : nat;
}.

(** [class Package] *)
Record Package := mkPackage {
  pkg_name : string;
  pkg_version : string;
  pkg_size_bytes : nat;
}.

(** [class VirtualEnv] *)
Record VirtualEnv := mkVirtualEnv {
  path : string;
  name : string;
  project_name : string;
  python_version : option string;
  manager : Manager;
  size_bytes : nat;
  last_modified : option Z;
  packages : list Package;
  python_executable : option string;
  packages_loaded : bool;
}.

Global Instance Package_eq_dec : EqDecision Package.
Proof. solve_decision. Defined.
Global Instance VirtualEnv_eq_dec : EqDecision VirtualEnv.
Proof. solve_decision. Defined.
Global Instance PythonInterpreter_eq_dec : EqDecision PythonInterpreter.
Proof. solve_decision. Defined.

Definition newline : ascii := ascii_of_nat 10.

(** [out.split('\n')[0]] *)
Definition first_line (out : string) : string :=
  List.hd EmptyString (Str.split newline out).

Definition version_cmd : string := "import sys; print(sys.version)".

Section Constructors.
Variable os : OS.

(** The version probe of both [_detect_info]: the first output line of a
    successful, non-empty run, [None] when the run degrades. A
    [PermissionError] of the run is not caught by [run_python_command]
    nor by [_detect_info]: the probe raises it. *)
Definition detect_version (python_exec : string) : result (option string) :=
  let! ver := run_python_command os python_exec version_cmd in
  Returns match ver with
          | Some out =>
              if String.eqb out EmptyString then None
              else Some (first_line out)
          | None => None
          end.

Fixpoint lstrip_slashes (s : string) : string :=
  match s with
  | String "/" s' => lstrip_slashes s'
  | _ => s
  end.

(** [os.path.dirname], POSIX: the text up to and with the last slash,
    without its trailing slashes unless it is made of slashes only. *)
Definition dirname (p : string) : string :=
  match Str.split "/" p with
  | [] | [_] => EmptyString
  | comps =>
      let head := (Str.join "/" (List.removelast comps) ++ "/")%string in
      if String.eqb (lstrip_slashes head) EmptyString then head
      else string_rev (lstrip_slashes (string_rev head))
  end.

(** [PythonInterpreter(path)]: the record, or the exception of the
    version probe, which leaves the constructor. *)
Definition new_PythonInterpreter (p : string) : result PythonInterpreter :=
  let self_path := abspath os p in
  let is_system := is_system_path os p in
  let! ver := detect_version self_path in
  let parent := dirname self_path in
  Returns
    {| interp_path := self_path;
       interp_version := ver;
       interp_manager := interpreter_manager self_path is_system;
       interp_is_system := is_system;
       interp_size_bytes :=
         if String.eqb (basename parent) "bin" && isdir os (dirname parent)
         then dir_size os (dirname parent) else 0 |}.

(** The first of [bin/python], [bin/python3], [Scripts/python.exe] that
    exists and is executable. *)
Definition detect_executable (self_path : string) : option string :=
  List.find (fun py_path => path_exists os py_path && access_X_OK os py_path)
    (List.map (path_join self_path)
       ["bin/python"; "bin/python3"; "Scripts/python.exe"]).

(** [VirtualEnv(path)]: the record, or the exception of the version
    probe, which leaves the constructor. An environment without an
    executable is not probed. *)
Definition new_VirtualEnv (p : string) : result VirtualEnv :=
  let self_path := abspath os p in
  let exe := detect_executable self_path in
  let! ver := match exe with
              | Some e => detect_version e
              | None => Returns None
              end in
  Returns
    {| path := self_path;
       name := basename p;
       project_name := get_project_name p;
       python_version := ver;
       manager := venv_manager self_path;
       size_bytes := dir_size os self_path;
       last_modified := getmtime os self_path;
       packages := [];
       python_executable := exe;
       packages_loaded := false |}.

End Constructors.

(* ====================================================================== *)
(** * Package probe *)
(* ====================================================================== *)

(** [for p in v]: the items that iterating a JSON value yields: the
    elements of an array, the keys of an object, the characters of a
    string; any other value is not iterable. *)
Definition py_iter (v : json) : result (list json) :=
  match v with
  | JArr l => Returns l
  | JObj kv => Returns (List.map (fun '(k, _) => JStr k) kv)
  | JStr s =>
      Returns (List.map (fun c => JStr (String c EmptyString))
                 (String.list_ascii_of_string s))
  | JNull | JBool _ | JNum _ => Raises TypeError
  end.

(** [d[key]] on the pairs of an object, whose keys are distinct as in a
    [dict] (for a repeated key the last value counts, as [json.loads]
    keeps it). *)
Fixpoint obj_get (kv : list (string * json)) (key : string) : option json :=
  match kv with
  | [] => None
  | (k, v) :: rest =>
      match obj_get rest key with
      | Some v' => Some v'
      | None => if String.eqb k key then Some v else None
      end
  end.

(** [p[key]] for a string key: defined on objects only. *)
Definition py_getitem (p : json) (key : string) : result json :=
  match p with
  | JObj kv =>
      match obj_get kv key with
      | Some v => Returns v
      | None => Raises (KeyError key)
      end
  | _ => Raises TypeError
  end.

(** What one probe leaves behind. [Untyped] stands for a normal return
    that stored a [Package] whose name or version is not a [str] (the
    constructor does not check its arguments): no exception, and a state
    outside the typed records of this development. *)
Inductive ProbeOutcome :=
  | Done (v : VirtualEnv)
  | Untyped
  | Raised (e : exn).

(** [Package(p['name'], p['version'])]: the name is looked up first. *)
Definition package_of (p : json) : result (json * json) :=
  let! n := py_getitem p "name" in
  let! v := py_getitem p "version" in
  Returns (n, v).

(** The list comprehension of [probe_packages], left to right. *)
Fixpoint packages_of (items : list json) : result (list (json * json)) :=
  match items with
  | [] => Returns []
  | p :: rest =>
      let! x := package_of p in
      let! xs := packages_of rest in
      Returns (x :: xs)
  end.

Definition typed_package (x : json * json) : option Package :=
  match x with
  | (JStr n, JStr v) => Some (mkPackage n v 0)
  | _ => None
  end.

Fixpoint typed_packages (l : list (json * json)) : option (list Package) :=
  match l with
  | [] => Some []
  | x :: rest =>
      match typed_package x, typed_packages rest with
      | Some p, Some ps => Some (p :: ps)
      | _, _ => None
      end
  end.

Definition pip_list_argv (exe : string) : list string :=
  [exe; "-m"; "pip"; "list"; "--format=json"].

Section Probe.
Variable os : OS.

(** [VirtualEnv.probe_packages(force)] *)
Definition probe_packages (self : VirtualEnv) (force : bool) : ProbeOutcome :=
  if packages_loaded self && negb force then Done self
  else
    match python_executable self with
    | None => Done self
    | Some exe =>
        match subprocess_run os (pip_list_argv exe) with
        | Completed rc out =>
            if (rc =? 0)%Z then
              match json_loads os out with
              | None => Done self              (* JSONDecodeError *)
              | Some pkg_list =>
                  match (let! items := py_iter pkg_list in
                         packages_of items) with
                  | Raises e => Raised e
                  | Returns raw =>
                      match typed_packages raw with
                      | Some ps =>
                          Done {| path := path self;
                                  name := name self;
                                  project_name := project_name self;
                                  python_version := python_version self;
                                  manager := manager self;
                                  size_bytes := size_bytes self;
                                  last_modified := last_modified self;
                                  packages := ps;
                                  python_executable := python_executable self;
                                  packages_loaded := true |}
                      | None => Untyped
                      end
                  end
              end
            else Done self
        | TimeoutExpired | FileNotFoundError => Done self
        | PermissionError => Raised OSError
        end
    end.

End Probe.

(* ====================================================================== *)
(** * Discovery *)
(* ====================================================================== *)

Section Discovery.
Variable os : OS.

(** [is_venv] *)
Definition is_venv (p : string) : bool :=
  if negb (isdir os p) then false
  else existsb (fun m => path_exists os (path_join p m))
         ["pyvenv.cfg"; "bin/activate"; "Scripts/activate.bat"].

(** The accumulator of a discovery: the records appended so far and the
    [found_paths] set. *)
Definition Found (R : Type) : Type := list R * gset string.

(** Statements of the discovery loops answer with the accumulator they
    leave and the exception that escapes them, if any. *)
Definition Step (S : Type) : Type := S * option exn.

(** [for x in xs: body]: the first exception ends the loop. *)
Definition for_each {S A : Type} (body : A -> S -> Step S)
  : list A -> S -> Step S :=
  fix go (xs : list A) (st : S) : Step S :=
    match xs with
    | [] => (st, None)
    | x :: xs' =>
        match body x st with
        | (st', None) => go xs' st'
        | (st', Some e) => (st', Some e)
        end
    end.

(** [for entry in os.scandir(p): body] *)
Definition for_scandir {S : Type} (p : string)
    (body : DirEntry -> S -> Step S) (st : S) : Step S :=
  match scandir os p with
  | Entries entries => for_each body entries st
  | ListingDenied => (st, Some OSError)
  | ListingFails => (st, Some NoSuchDirectory)
  end.

(** [try: ... except PermissionError: pass] *)
Definition except_PermissionError {S : Type} (r : Step S) : Step S :=
  match r with
  | (st, Some OSError) => (st, None)
  | _ => r
  end.

(** The accumulator of statements that ended, or the exception that
    leaves the function. *)
Definition completed {S : Type} (r : Step S) : result S :=
  match r with
  | (st, None) => Returns st
  | (_, Some e) => Raises e
  end.

(** [if abs_path not in found_paths: found_paths.add(abs_path);
     records.append(ctor(abs_path))]: the path is in the set before the
    constructor runs, and stays there when the constructor raises. *)
Definition add_found {R} (ctor : string -> result R) (abs_path : string)
    (st : Found R) : Step (Found R) :=
  if bool_decide (abs_path ∈ st.2) then (st, None)
  else match ctor abs_path with
       | Returns r => (((st.1 ++ [r])%list, {[abs_path]} ∪ st.2), None)
       | Raises e => ((st.1, {[abs_path]} ∪ st.2), Some e)
       end.

(** The templates of all managers, in iteration order. *)
Definition manager_templates : list string :=
  List.concat (List.map snd MANAGER_PATHS).

(** ** Virtual environments *)

(** Known locations: the body of the loop over one template. A
    [PermissionError] of the listing or of a constructor ends the work
    on this template; any other exception escapes. *)
Definition venv_known_location (path_template : string)
    (st : Found VirtualEnv) : Step (Found VirtualEnv) :=
  let p := expanduser os path_template in
  if negb (path_exists os p) then (st, None)
  else except_PermissionError
         (for_scandir p (fun entry st =>
            if entry_is_dir entry && is_venv (entry_path p entry)
            then add_found (new_VirtualEnv os)
                   (abspath os (entry_path p entry)) st
            else (st, None)) st).

Definition scan_excluded : list string :=
  ["node_modules"; "Library"; "Applications"; ".git"; "__pycache__"].

(** The accumulator of the scan: that of the discovery, and the
    recursive calls made so far, each as the directory and the depth
    passed, for the statements about recursion. *)
Definition Scan : Type := Found VirtualEnv * list (string * nat).

(** [scan_dir(root, depth)]. The recursion is on [fuel]; the depth test is
    the one of the source, and a call at depth [d] needs no more than
    [max_depth + 1 - d] units ([scan_dir_fuel] below). Every call has its
    own handler: a [PermissionError] of its listing or of a constructor
    ends that call only, any other exception ends all of them. *)
Fixpoint scan_dir (max_depth fuel : nat) (root : string) (depth : nat)
    (st : Scan) : Step Scan :=
  match fuel with
  | 0 => (st, None)
  | S fuel' =>
      if (max_depth <? depth)%nat then (st, None)
      else except_PermissionError
             (for_scandir root (fun entry st =>
                if negb (entry_is_dir entry) then (st, None)
                else if Str.startswith (entry_name entry) "."
                        && negb (Str.mem (entry_name entry)
                                   PROJECT_VENV_NAMES) then (st, None)
                else if Str.mem (entry_name entry) scan_excluded
                then (st, None)
                else if is_venv (entry_path root entry)
                then let r := add_found (new_VirtualEnv os)
                                (abspath os (entry_path root entry)) st.1 in
                     ((r.1, st.2), r.2)
                else scan_dir max_depth fuel' (entry_path root entry)
                       (S depth)
                       (st.1, (st.2 ++ [(entry_path root entry, S depth)])%list))
                st)
  end.

Definition mdfind_venv_argv : list string :=
  ["mdfind"; "kMDItemFSName == pyvenv.cfg"].

(** The lines of the file-index answer, or nothing when the search is
    off, fails or answers a non-zero status; an error other than the two
    that the source catches escapes. *)
Definition mdfind_lines (use_mdfind : bool) (argv : list string)
  : result (list string) :=
  if use_mdfind && String.eqb (platform_system os) "Darwin" then
    match subprocess_run os argv with
    | Completed rc out =>
        if (rc =? 0)%Z then Returns (Str.split newline (strip out))
        else Returns []
    | TimeoutExpired | FileNotFoundError => Returns []
    | PermissionError => Raises OSError
    end
  else Returns [].

Definition venv_mdfind_line (line : string) (st : Found VirtualEnv)
  : Step (Found VirtualEnv) :=
  if negb (String.eqb line EmptyString) then
    let venv_path := dirname line in
    if is_venv venv_path
    then add_found (new_VirtualEnv os) (abspath os venv_path) st
    else (st, None)
  else (st, None).

(** [find_venvs(scan_path, use_mdfind, max_depth)], with the recursive
    calls of the scan. The handler of the file-index block catches no
    [PermissionError]: that of a constructor escapes there. *)
Definition find_venvs_trace (scan_path : option string) (use_mdfind : bool)
    (max_depth : nat) : result (list VirtualEnv * list (string * nat)) :=
  let st0 : Found VirtualEnv := ([], ∅) in
  let! st1 := completed (for_each venv_known_location manager_templates st0) in
  let scan_root :=
    match scan_path with
    | Some p => if String.eqb p EmptyString then expanduser os "~"
                else expanduser os p
    | None => expanduser os "~"
    end in
  let! scanned :=
    completed (scan_dir max_depth (S max_depth) scan_root 0 (st1, [])) in
  let! lines := mdfind_lines use_mdfind mdfind_venv_argv in
  let! st3 := completed (for_each venv_mdfind_line lines scanned.1) in
  Returns (st3.1, scanned.2).

(** [find_venvs] *)
Definition find_venvs (scan_path : option string) (use_mdfind : bool)
    (max_depth : nat) : result (list VirtualEnv) :=
  let! r := find_venvs_trace scan_path use_mdfind max_depth in
  Returns r.1.

(** ** Interpreters *)

Definition py_names : list string := ["python"; "python3"; "python2"].

(** The loop over [python], [python3], [python2] in one [bin] directory. *)
Definition interp_in_bin (bin_dir : string) (st : Found PythonInterpreter)
  : Step (Found PythonInterpreter) :=
  for_each (fun py_name st =>
    let py_path := path_join bin_dir py_name in
    if path_exists os py_path && access_X_OK os py_path
    then add_found (new_PythonInterpreter os)
           (abspath os (realpath os py_path)) st
    else (st, None)) py_names st.

(** Known locations: the body of the loop over one template, with its
    handler of [PermissionError]. *)
Definition interp_known_location (path_template : string)
    (st : Found PythonInterpreter) : Step (Found PythonInterpreter) :=
  let p := expanduser os path_template in
  if negb (path_exists os p) then (st, None)
  else except_PermissionError
         (for_scandir p (fun entry st =>
            if entry_is_dir entry then
              let bin_dir := path_join (entry_path p entry) "bin" in
              if isdir os bin_dir then interp_in_bin bin_dir st
              else (st, None)
            else (st, None)) st).

(** The body of the loop over the directories of [PATH], which has no
    handler. *)
Definition interp_path_dir (path_dir : string) (st : Found PythonInterpreter)
  : Step (Found PythonInterpreter) :=
  if negb (String.eqb path_dir EmptyString) && isdir os path_dir
  then interp_in_bin path_dir st else (st, None).

Definition mdfind_interp_argv : list string :=
  ["mdfind"; "kMDItemFSName == python3"].

Definition interp_mdfind_line (line : string) (st : Found PythonInterpreter)
  : Step (Found PythonInterpreter) :=
  if negb (String.eqb line EmptyString)
     && path_exists os line && access_X_OK os line
  then add_found (new_PythonInterpreter os) (abspath os (realpath os line)) st
  else (st, None).

(** [find_python_interpreters(use_mdfind)] *)
Definition find_python_interpreters (use_mdfind : bool)
  : result (list PythonInterpreter) :=
  let st0 : Found PythonInterpreter := ([], ∅) in
  let! st1 :=
    completed (for_each interp_known_location manager_templates st0) in
  let! st2 :=
    completed (for_each interp_path_dir (Str.split ":" (environ_PATH os))
                 st1) in
  let! lines := mdfind_lines use_mdfind mdfind_interp_argv in
  let! st3 := completed (for_each interp_mdfind_line lines st2) in
  Returns st3.1.

End Discovery.

(* ====================================================================== *)
(** * Package analysis *)
(* ====================================================================== *)

Module PackageAnalyzer.

(** An entry of the index: a version and the environment that owns it. *)
Definition Install : Type := string * VirtualEnv.

Section Analyzer.
(** The probe of an environment whose packages are not loaded, as far as
    it returns; what it stores is of no consequence for the index
    properties. *)
Variable probe : VirtualEnv -> VirtualEnv.

(** [self.package_map[name].append((pkg.version, venv))] on a
    [defaultdict(list)]. *)
Definition map_append (name : string) (i : Install)
    (m : gmap string (list Install)) : gmap string (list Install) :=
  <[name := (default [] (m !! name) ++ [i])%list]> m.

(** [_build_map] *)
Definition _build_map (venvs : list VirtualEnv) : gmap string (list Install) :=
  fold_left (fun m venv =>
    let venv := if negb (packages_loaded venv) then probe venv else venv in
    fold_left (fun m pkg =>
      map_append (Str.lower (pkg_name pkg)) (pkg_version pkg, venv) m)
      (packages venv) m)
    venvs ∅.

(** [get_duplicates] *)
Definition get_duplicates (package_map : gmap string (list Install))
  : gmap string (list Install) :=
  filter (fun kv => 1 < length kv.2) package_map.

(** [set(v for v, _ in installs)] *)
Definition versions_of (installs : list Install) : gset string :=
  list_to_set (List.map fst installs).

(** [get_version_conflicts] *)
Definition get_version_conflicts (package_map : gmap string (list Install))
  : gmap string (gset string) :=
  versions_of <$> filter (fun kv => 1 < size (versions_of kv.2)) package_map.

End Analyzer.
End PackageAnalyzer.

(* ====================================================================== *)
(** * The interactive state machine: [class BroomstickTUI] *)
(* ====================================================================== *)

Inductive Mode := mode_list | mode_delete | mode_explore | mode_package.

Inductive View :=
  | mode_select | category_select | interpreters_view | venvs_view
  | venv_detail | analysis.

Global Instance Mode_eq_dec : EqDecision Mode.
Proof. solve_decision. Defined.
Global Instance View_eq_dec : EqDecision View.
Proof. solve_decision. Defined.

(** The attributes of the object. [selected_venv] holds the record that
    the drill-in bound. *)
Record TUI := mkTUI {
  interpreters : list PythonInterpreter;
  venvs : list VirtualEnv;
  mode : option Mode;
  current_view : View;
  selected_venv : option VirtualEnv;
  cursor : nat;
  scroll_offset : nat;
  selected_items : gset nat;
  breadcrumb : list string;
  show_help : bool;
  search_mode : bool;
  search_query : string;
  filtered_items : list nat;
}.

(** [BroomstickTUI(interpreters, venvs)] *)
Definition new_TUI (interps : list PythonInterpreter) (vs : list VirtualEnv)
  : TUI :=
  {| interpreters := interps; venvs := vs; mode := None;
     current_view := mode_select; selected_venv := None;
     cursor := 0; scroll_offset := 0; selected_items := ∅;
     breadcrumb := []; show_help := false;
     search_mode := false; search_query := EmptyString;
     filtered_items := [] |}.

(** Field updates, one per attribute that the handlers assign. *)
Definition set_venvs (x : list VirtualEnv) (t : TUI) : TUI :=
  mkTUI (interpreters t) x (mode t) (current_view t) (selected_venv t)
    (cursor t) (scroll_offset t) (selected_items t) (breadcrumb t)
    (show_help t) (search_mode t) (search_query t) (filtered_items t).
Definition set_mode (x : option Mode) (t : TUI) : TUI :=
  mkTUI (interpreters t) (venvs t) x (current_view t) (selected_venv t)
    (cursor t) (scroll_offset t) (selected_items t) (breadcrumb t)
    (show_help t) (search_mode t) (search_query t) (filtered_items t).
Definition set_view (x : View) (t : TUI) : TUI :=
  mkTUI (interpreters t) (venvs t) (mode t) x (selected_venv t)
    (cursor t) (scroll_offset t) (selected_items t) (breadcrumb t)
    (show_help t) (search_mode t) (search_query t) (filtered_items t).
Definition set_selected_venv (x : option VirtualEnv) (t : TUI) : TUI :=
  mkTUI (interpreters t) (venvs t) (mode t) (current_view t) x
    (cursor t) (scroll_offset t) (selected_items t) (breadcrumb t)
    (show_help t) (search_mode t) (search_query t) (filtered_items t).
Definition set_cursor (x : nat) (t : TUI) : TUI :=
  mkTUI (interpreters t) (venvs t) (mode t) (current_view t) (selected_venv t)
    x (scroll_offset t) (selected_items t) (breadcrumb t)
    (show_help t) (search_mode t) (search_query t) (filtered_items t).
Definition set_scroll_offset (x : nat) (t : TUI) : TUI :=
  mkTUI (interpreters t) (venvs t) (mode t) (current_view t) (selected_venv t)
    (cursor t) x (selected_items t) (breadcrumb t)
    (show_help t) (search_mode t) (search_query t) (filtered_items t).
Definition set_selected_items (x : gset nat) (t : TUI) : TUI :=
  mkTUI (interpreters t) (venvs t) (mode t) (current_view t) (selected_venv t)
    (cursor t) (scroll_offset t) x (breadcrumb t)
    (show_help t) (search_mode t) (search_query t) (filtered_items t).
Definition set_breadcrumb (x : list string) (t : TUI) : TUI :=
  mkTUI (interpreters t) (venvs t) (mode t) (current_view t) (selected_venv t)
    (cursor t) (scroll_offset t) (selected_items t) x
    (show_help t) (search_mode t) (search_query t) (filtered_items t).
Definition set_show_help (x : bool) (t : TUI) : TUI :=
  mkTUI (interpreters t) (venvs t) (mode t) (current_view t) (selected_venv t)
    (cursor t) (scroll_offset t) (selected_items t) (breadcrumb t)
    x (search_mode t) (search_query t) (filtered_items t).
Definition set_search (m : bool) (q : string) (f : list nat) (t : TUI) : TUI :=
  mkTUI (interpreters t) (venvs t) (mode t) (current_view t) (selected_venv t)
    (cursor t) (scroll_offset t) (selected_items t) (breadcrumb t)
    (show_help t) m q f.

(** The tag as the string that the records carry in the source. *)
Definition manager_name (m : Manager) : string :=
  match m with
  | pyenv => "pyenv" | asdf => "asdf" | conda => "conda"
  | homebrew => "homebrew" | pipx => "pipx" | poetry => "poetry"
  | pipenv => "pipenv" | hatch => "hatch" | pdm => "pdm" | uv => "uv"
  | system => "system" | unknown => "unknown" | venv => "venv"
  end.

(** [[i for i, x in enumerate(l) if p(x)]] *)
Definition indices_where {A} (p : A -> bool) (l : list A) : list nat :=
  List.map fst (List.filter (fun ix => p ix.2) (imap (fun i x => (i, x)) l)).

(** [_apply_search_filter] *)
Definition _apply_search_filter (t : TUI) : TUI :=
  let q := search_query t in
  let found :=
    match current_view t with
    | interpreters_view =>
        indices_where (fun interp =>
          match interp_version interp with
          | Some v => Str.contains q (Str.lower v)
          | None => false
          end
          || Str.contains q (Str.lower (manager_name (interp_manager interp)))
          || Str.contains q (Str.lower (interp_path interp)))
          (interpreters t)
    | venvs_view =>
        indices_where (fun venv =>
          Str.contains q (Str.lower (project_name venv))
          || Str.contains q (Str.lower (manager_name (manager venv)))
          || Str.contains q (Str.lower (path venv)))
          (venvs t)
    | venv_detail =>
        match selected_venv t with
        | Some sv =>
            indices_where (fun pkg =>
              Str.contains q (Str.lower (pkg_name pkg))
              || Str.contains q (Str.lower (pkg_version pkg)))
              (packages sv)
        | None => []
        end
    | _ => []
    end in
  set_search (search_mode t) q found t.

(** [_start_search], given the text that the prompt read (the empty text
    when reading failed). *)
Definition _start_search (query : string) (t : TUI) : TUI :=
  if negb (String.eqb query EmptyString) then
    let t := set_search true (Str.lower query) (filtered_items t) t in
    let t := _apply_search_filter t in
    set_scroll_offset 0 (set_cursor 0 t)
  else set_search false EmptyString [] t.

(** The number of items of [_get_current_items]: those of the filter when
    a search is on and matched something, else those of the whole list of
    the view (the filtered indices being in range of the list, as they
    are in the view where the search was made). *)
Definition current_item_count (t : TUI) : nat :=
  let listed :=
    match current_view t with
    | interpreters_view => true
    | venvs_view => true
    | venv_detail => bool_decide (selected_venv t ≠ None)
    | _ => false
    end in
  if search_mode t && negb (bool_decide (filtered_items t = [])) then
    if listed then length (filtered_items t) else 0
  else
    match current_view t with
    | interpreters_view => length (interpreters t)
    | venvs_view => length (venvs t)
    | venv_detail =>
        match selected_venv t with
        | Some sv => length (packages sv)
        | None => 0
        end
    | _ => 0
    end.

(** The list position that a row of a list view stands for, as the
    drawing code computes it ([original_idx] in [_draw_venvs] and
    [_draw_interpreters]). *)
Definition original_idx (t : TUI) (idx : nat) : nat :=
  if search_mode t && (idx <? length (filtered_items t))%nat
  then List.nth idx (filtered_items t) 0
  else idx.

(** [_adjust_scroll(max_items, visible_height)] *)
Definition _adjust_scroll (max_items visible_height : Z) (t : TUI) : TUI :=
  let c : Z :=
    if (0 <? max_items)%Z
    then Z.max 0 (Z.min (Z.of_nat (cursor t)) (max_items - 1)%Z)
    else Z.of_nat (cursor t) in
  let o : Z := Z.of_nat (scroll_offset t) in
  let o : Z :=
    if (c <? o)%Z then c
    else if (o + visible_height <=? c)%Z then (c - visible_height + 1)%Z
    else o in
  let max_scroll := Z.max 0 (max_items - visible_height)%Z in
  let o := Z.max 0 (Z.min o max_scroll) in
  set_scroll_offset (Z.to_nat o) (set_cursor (Z.to_nat c) t).

(** [_adjust_scroll_for_view(screen_height)] *)
Definition _adjust_scroll_for_view (screen_height : Z) (t : TUI) : TUI :=
  let visible_height := (screen_height - 10)%Z in
  let max_items : Z :=
    match current_view t with
    | mode_select => 5%Z
    | category_select =>
        if bool_decide (mode t = Some mode_explore) then 3%Z else 2%Z
    | interpreters_view => Z.of_nat (length (interpreters t))
    | venvs_view => Z.of_nat (length (venvs t))
    | venv_detail =>
        match selected_venv t with
        | Some sv => Z.of_nat (length (packages sv))
        | None => 0%Z
        end
    | analysis => 0%Z
    end in
  _adjust_scroll max_items visible_height t.

(** What handling one key leads to: the loop goes on, the loop is left
    ([break]), or the process ends ([sys.exit]). *)
Inductive Outcome :=
  | Continue (t : TUI)
  | Break
  | Exit.

(** [_handle_enter] *)
Definition _handle_enter (t : TUI) : Outcome :=
  match current_view t with
  | mode_select =>
      match List.nth_error
              [Some mode_list; Some mode_delete; Some mode_explore;
               Some mode_package; None] (cursor t) with
      | Some None => Exit
      | Some (Some selected) =>
          Continue
            (set_selected_items ∅
               (set_scroll_offset 0
                  (set_cursor 0
                     (set_breadcrumb []
                        (set_view category_select
                           (set_mode (Some selected) t))))))
      | None => Continue t
      end
  | category_select =>
      let enter v label :=
        Continue
          (set_scroll_offset 0
             (set_cursor 0
                (set_breadcrumb (breadcrumb t ++ [label])%list
                   (set_view v t)))) in
      if (cursor t =? 0)%nat then enter interpreters_view "Interpreters"
      else if (cursor t =? 1)%nat then enter venvs_view "Virtual Environments"
      else if (cursor t =? 2)%nat && bool_decide (mode t = Some mode_explore)
      then enter analysis "Analysis"
      else Continue t
  | venvs_view =>
      if bool_decide (mode t ∈ [Some mode_list; Some mode_explore;
                                Some mode_package]) then
        match venvs t !! cursor t with
        | Some sv =>
            Continue
              (set_selected_items ∅
                 (set_scroll_offset 0
                    (set_cursor 0
                       (set_breadcrumb (breadcrumb t ++ [project_name sv])%list
                          (set_view venv_detail
                             (set_selected_venv (Some sv) t))))))
        | None => Continue t
        end
      else Continue t
  | _ => Continue t
  end.

(** [_toggle_selection] *)
Definition _toggle_selection (t : TUI) : TUI :=
  if bool_decide (current_view t ∈ [interpreters_view; venvs_view; venv_detail])
  then
    if bool_decide (cursor t ∈ selected_items t)
    then set_selected_items (selected_items t ∖ {[cursor t]}) t
    else set_selected_items ({[cursor t]} ∪ selected_items t) t
  else t.

(** [_go_back] *)
Definition _go_back (t : TUI) : TUI :=
  match current_view t with
  | venv_detail =>
      set_breadcrumb (List.removelast (breadcrumb t))
        (set_selected_items ∅
           (set_scroll_offset 0
              (set_cursor 0
                 (set_selected_venv None (set_view venvs_view t)))))
  | interpreters_view | venvs_view | analysis =>
      set_breadcrumb []
        (set_selected_items ∅
           (set_scroll_offset 0 (set_cursor 0 (set_view category_select t))))
  | category_select =>
      set_breadcrumb []
        (set_scroll_offset 0
           (set_cursor 0 (set_mode None (set_view mode_select t))))
  | mode_select =>
      set_breadcrumb []
        (set_cursor 0 (set_mode None (set_view mode_select t)))
  end.

(** The order of [sorted(..., reverse=True)] on integers. *)
Definition descending (x y : nat) : Prop := (y ≤ x)%nat.

Global Instance descending_dec (x y : nat) : Decision (descending x y).
Proof. unfold descending. apply _. Defined.

(** [sorted(selected_items, reverse=True)] *)
Definition sorted_reverse (s : gset nat) : list nat :=
  merge_sort descending (elements s).

(** [response.lower() in ['y', 'yes']] *)
Definition affirmative (response : string) : bool :=
  Str.mem (Str.lower response) ["y"; "yes"].

Section Destructive.
Variable os : OS.
(** The mutable file system behind [shutil.rmtree]: a call transforms it
    and either returns ([true]) or raises ([false]). *)
Variable World : Type.
Variable rmtree : string -> World -> World * bool.

(** The running state of a delete batch: the environment list, the file
    system, the [deleted] counter, and the paths handed to
    [shutil.rmtree] so far. *)
Record Batch := mkBatch {
  b_venvs : list VirtualEnv;
  b_world : World;
  b_deleted : nat;
  b_attempted : list string;
}.

(** One iteration of the loop of [_confirm_delete]. *)
Definition delete_step (view : View) (idx : nat) (b : Batch) : Batch :=
  if bool_decide (view = venvs_view) && (idx <? length (b_venvs b))%nat then
    match b_venvs b !! idx with
    | Some v =>
        if negb (is_system_path os (path v)) then
          let '(w', ok) := rmtree (path v) (b_world b) in
          if ok
          then mkBatch (delete idx (b_venvs b)) w' (S (b_deleted b))
                 (b_attempted b ++ [path v])%list
          else mkBatch (b_venvs b) w' (b_deleted b)
                 (b_attempted b ++ [path v])%list
        else b
    | None => b
    end
  else b.

(** The loop of [_confirm_delete] over the sorted indices. *)
Definition delete_loop (view : View) (idxs : list nat) (b : Batch) : Batch :=
  fold_left (fun b idx => delete_step view idx b) idxs b.

(** [_confirm_delete], given the answer read at the prompt (["n"] when
    reading failed). The result carries the batch for the statements about
    what was attempted. *)
Definition _confirm_delete (response : string) (t : TUI) (w : World)
  : TUI * Batch :=
  let b0 := mkBatch (venvs t) w 0 [] in
  if bool_decide (selected_items t = ∅) then (t, b0)
  else if affirmative response then
    let b := delete_loop (current_view t)
               (sorted_reverse (selected_items t)) b0 in
    let t := set_venvs (b_venvs b) t in
    let t := set_selected_items ∅ t in
    (set_cursor (Nat.min (cursor t) (Nat.max 0 (length (venvs t) - 1))) t, b)
  else (t, b0).

(** The keys that the loop of [run] distinguishes ([u], the uninstall of
    packages, is not part of this development). *)
Inductive Key :=
  | KEY_q | KEY_UP | KEY_DOWN | KEY_ENTER | KEY_SPACE | KEY_d | KEY_ESC
  | KEY_h | KEY_SLASH | KEY_other.

(** One turn of the loop of [run] after drawing: [height] is the height
    of the screen, [typed] what a prompt of the handler reads. *)
Definition handle_key (key : Key) (height : Z) (typed : string)
    (t : TUI) (w : World) : Outcome * World :=
  match key with
  | KEY_q =>
      if (0 <? length (breadcrumb t))%nat
         || negb (bool_decide (current_view t = mode_select))
      then (Continue (_go_back t), w)
      else (Break, w)
  | KEY_UP =>
      (Continue (_adjust_scroll_for_view height
                   (set_cursor (Nat.max 0 (cursor t - 1)) t)), w)
  | KEY_DOWN =>
      (Continue (_adjust_scroll_for_view height
                   (set_cursor (cursor t + 1) t)), w)
  | KEY_ENTER => (_handle_enter t, w)
  | KEY_SPACE =>
      if bool_decide (mode t ∈ [Some mode_delete; Some mode_package])
      then (Continue (_toggle_selection t), w)
      else (Continue t, w)
  | KEY_d =>
      if bool_decide (mode t = Some mode_delete)
      then let '(t', b) := _confirm_delete typed t w in
           (Continue t', b_world b)
      else (Continue t, w)
  | KEY_ESC =>
      if search_mode t
      then (Continue (set_search false EmptyString [] t), w)
      else (Continue (_go_back t), w)
  | KEY_h => (Continue (set_show_help (negb (show_help t)) t), w)
  | KEY_SLASH =>
      if bool_decide (current_view t ∈
                        [interpreters_view; venvs_view; venv_detail])
      then (Continue (_start_search typed t), w)
      else (Continue t, w)
  | KEY_other => (Continue t, w)
  end.

(** A run of keys, as long as the loop goes on. *)
Fixpoint handle_keys (inputs : list (Key * Z * string)) (t : TUI) (w : World)
  : Outcome * World :=
  match inputs with
  | [] => (Continue t, w)
  | (key, height, typed) :: rest =>
      match handle_key key height typed t w with
      | (Continue t', w') => handle_keys rest t' w'
      | stop => stop
      end
  end.

End Destructive.

Arguments mkBatch {World}.
Arguments b_venvs {World}.
Arguments b_world {World}.
Arguments b_deleted {World}.
Arguments b_attempted {World}.

(* ====================================================================== *)
(** * Properties: manager classification *)
(* ====================================================================== *)

Section Classification.

(** In an ordered rule list, the first rule that holds decides. *)
Lemma first_match_wins (pre post : list Rule) (r : Rule) fallback p :
  Forall (fun r' => rule_holds p r' = false) pre ->
  rule_holds p r = true ->
  first_match (pre ++ r :: post) fallback p = snd r.
Proof.
  induction 1 as [|r' pre Hr' _ IH]; intros Hr; simpl.
  - by rewrite Hr.
  - rewrite Hr'. by apply IH.
Qed.

(** No rule holds: the fallback is the tag. *)
Lemma first_match_fallback (rules : list Rule) fallback p :
  Forall (fun r' => rule_holds p r' = false) rules ->
  first_match rules fallback p = fallback.
Proof.
  induction 1 as [|r' rules Hr' _ IH]; simpl; [done|]. by rewrite Hr'.
Qed.

Definition conda_poetry_env : string := "/home/u/miniconda3/envs/poetry-demo".
Definition pipx_interpreter : string :=
  "/home/u/.local/pipx/venvs/black/bin/python".

(** C8, as stated, fails: an environment under a conda directory whose
    name mentions poetry is tagged [poetry] by the code, while the single
    list of the specification, where the conda family comes before
    poetry, tags it [conda]; and an interpreter under a pipx directory is
    tagged [unknown] by the code, [pipx] by the single list. *)
Lemma single_rule_list_refuted :
  venv_manager conda_poetry_env = poetry
  /\ spec_classify conda_poetry_env false false = conda
  /\ interpreter_manager pipx_interpreter false = unknown
  /\ spec_classify pipx_interpreter true false = pipx
  /\ ~ (forall p is_system,
          interpreter_manager p is_system = spec_classify p true is_system
          /\ venv_manager p = spec_classify p false is_system).
Proof.
  repeat split; try by vm_compute.
  intros H. destruct (H conda_poetry_env false) as [_ Hv].
  vm_compute in Hv. discriminate.
Qed.

(** C8, amended: each kind of record has its own fixed ordered rule list,
    evaluated against substrings of the lower-cased path, first match
    wins: for interpreters pyenv, asdf, conda family, homebrew, uv, then
    [system] for a system path and [unknown] otherwise; for environments
    pyenv, pipx, poetry, conda family, pipenv/virtualenvs, hatch, pdm, uv,
    then [venv]. *)
Theorem manager_first_matching_rule (p : string) (is_system : bool) :
  interpreter_manager p is_system
    = first_match interpreter_rules
        (if is_system then system else unknown) (Str.lower p)
  /\ venv_manager p = first_match venv_rules venv (Str.lower p).
Proof.
  unfold interpreter_manager, venv_manager, interpreter_rules, venv_rules.
  cbn [first_match rule_holds existsb fst snd].
  split.
  - repeat (match goal with
            | |- context [Str.contains ?s ?x] =>
                destruct (Str.contains s x); cbn [orb]
            end); reflexivity.
  - repeat (match goal with
            | |- context [Str.contains ?s ?x] =>
                destruct (Str.contains s x); cbn [orb]
            end); reflexivity.
Qed.

End Classification.

(* ====================================================================== *)
(** * Properties: project names *)
(* ====================================================================== *)

Section ProjectNames.

(** A path component: not empty, not ["."], without a slash. *)
Definition component (x : string) : Prop :=
  PurePath.keep_part x = true /\ Str.free_of "/" x = true.

Lemma split_free sep (x : string) :
  Str.free_of sep x = true -> Str.split sep x = [x].
Proof.
  induction x as [|c x IH]; simpl; [done|].
  intros [Hc Hx]%andb_prop. apply negb_true_iff in Hc. rewrite Hc.
  by rewrite (IH Hx).
Qed.

Lemma split_cons_sep sep (x s : string) :
  Str.free_of sep x = true ->
  Str.split sep (x ++ String sep s) = x :: Str.split sep s.
Proof.
  induction x as [|c x IH]; simpl.
  - intros _. by rewrite Ascii.eqb_refl.
  - intros [Hc Hx]%andb_prop. apply negb_true_iff in Hc. rewrite Hc.
    by rewrite (IH Hx).
Qed.

(** Splitting undoes joining, for slash-free parts. *)
Lemma split_join sep (x : string) (l : list string) :
  Forall (fun y => Str.free_of sep y = true) (x :: l) ->
  Str.split sep (Str.join (String sep EmptyString) (x :: l)) = x :: l.
Proof.
  revert x. induction l as [|y l IH]; intros x Hall.
  - simpl. apply split_free. by inversion Hall.
  - inversion Hall as [|? ? Hx Hrest]; subst.
    change (Str.join (String sep EmptyString) (x :: y :: l))
      with (x ++ String sep (Str.join (String sep EmptyString) (y :: l))).
    rewrite split_cons_sep by done. by rewrite IH.
Qed.

Lemma filter_keep_components (l : list string) :
  Forall component l -> List.filter PurePath.keep_part l = l.
Proof.
  induction 1 as [|x l [Hx _] _ IH]; simpl; [done|]. by rewrite Hx, IH.
Qed.

(** The components of an absolute path written from its components. *)
Lemma Path_parts_absolute (l : list string) :
  Forall component l ->
  PurePath.parts (PurePath.Path ("/" ++ Str.join "/" l)) = l.
Proof.
  intros Hl. unfold PurePath.Path. cbn [PurePath.parts].
  destruct l as [|x l]; [reflexivity|].
  change ("/" ++ Str.join "/" (x :: l))
    with (EmptyString ++ String "/" (Str.join "/" (x :: l))).
  rewrite split_cons_sep by reflexivity.
  rewrite split_join.
  - change (List.filter PurePath.keep_part (EmptyString :: x :: l))
      with (List.filter PurePath.keep_part (x :: l)).
    by apply filter_keep_components.
  - eapply Forall_impl; [exact Hl|]. by intros ? [_ ?].
Qed.

Lemma last_snoc (l : list string) (x d : string) :
  List.last (l ++ [x]) d = x.
Proof. apply List.last_last. Qed.

(** C10: the project name of an environment path is the name of the
    parent directory when the directory's own name is one of [.venv],
    [venv], [env], [.env], [virtualenv], and the directory's own name
    otherwise: on every path in terms of the parsed path, and on an
    absolute path [/d1/.../dn/base] in terms of its components; the
    record that the constructor returns stores that name, and a
    drill-in pushes it onto the breadcrumb. *)
Theorem project_name_derivation (os : OS) (dirs : list string)
    (base : string) (t : TUI) :
  Forall component dirs -> component base ->
  let p := "/" ++ Str.join "/" (dirs ++ [base]) in
  (forall venv_path,
      get_project_name venv_path =
        if Str.mem (PurePath.name (PurePath.Path venv_path)) PROJECT_VENV_NAMES
        then PurePath.name (PurePath.parent (PurePath.Path venv_path))
        else PurePath.name (PurePath.Path venv_path))
  /\ PurePath.name (PurePath.Path p) = base
  /\ PurePath.name (PurePath.parent (PurePath.Path p))
       = List.last dirs EmptyString
  /\ get_project_name p
       = (if Str.mem base PROJECT_VENV_NAMES
          then List.last dirs EmptyString else base)
  /\ (forall sv, new_VirtualEnv os p = Returns sv ->
      project_name sv = get_project_name p
      /\ (current_view t = venvs_view ->
          mode t ∈ [Some mode_list; Some mode_explore; Some mode_package] ->
          venvs t !! cursor t = Some sv ->
          exists t', _handle_enter t = Continue t'
                     /\ current_view t' = venv_detail
                     /\ selected_venv t' = Some sv
                     /\ breadcrumb t'
                        = (breadcrumb t ++ [get_project_name p])%list)).
Proof.
  intros Hdirs Hbase p.
  assert (Hparts : PurePath.parts (PurePath.Path p) = (dirs ++ [base])%list).
  { apply Path_parts_absolute. apply Forall_app. split; [done|].
    by apply Forall_singleton. }
  assert (Hname : PurePath.name (PurePath.Path p) = base).
  { unfold PurePath.name. rewrite Hparts. apply last_snoc. }
  assert (Hparent : PurePath.name (PurePath.parent (PurePath.Path p))
                    = List.last dirs EmptyString).
  { unfold PurePath.name, PurePath.parent. cbn [PurePath.parts].
    rewrite Hparts. by rewrite List.removelast_last. }
  split; [intros; reflexivity|].
  split; [exact Hname|].
  split; [exact Hparent|].
  split; [unfold get_project_name; cbv zeta; by rewrite Hname, Hparent|].
  intros sv Hsv.
  assert (Hproject : project_name sv = get_project_name p).
  { unfold new_VirtualEnv in Hsv.
    destruct (match detect_executable os (abspath os p) with
              | Some e => detect_version os e
              | None => Returns None
              end); [|done].
    by injection Hsv as <-. }
  split; [exact Hproject|].
  intros Hview Hmode Hlook. unfold _handle_enter.
  rewrite Hview, bool_decide_eq_true_2 by done. rewrite Hlook.
  eexists. split; [reflexivity|]. rewrite Hproject. by repeat split.
Qed.

Definition proj1_tui : TUI :=
  set_mode (Some mode_list)
    (set_view venvs_view
       (new_TUI []
          [mkVirtualEnv "/home/u/proj1/.venv" ".venv" "proj1" None venv 0 None
             [] None false])).

Definition plain_os : OS :=
  {| abspath := fun p => p;
     realpath := fun p => p;
     expanduser := fun p => p;
     path_exists := fun _ => false;
     isdir := fun _ => false;
     access_X_OK := fun _ => false;
     scandir := fun _ => ListingDenied;
     getmtime := fun _ => None;
     dir_size := fun _ => 0;
     subprocess_run := fun _ => FileNotFoundError;
     json_loads := fun _ => None;
     environ_PATH := EmptyString;
     platform_system := "Linux" |}.

(** C10 on [/home/u/proj1/.venv]: the project is [proj1], and the
    drill-in shows it in the breadcrumb. *)
Lemma project_name_derivation_witness :
  get_project_name "/home/u/proj1/.venv" = "proj1"
  /\ exists t', _handle_enter proj1_tui = Continue t'
                /\ breadcrumb t' = ["proj1"].
Proof.
  destruct (project_name_derivation plain_os ["home"; "u"; "proj1"] ".venv"
              proj1_tui) as (_ & _ & _ & Hp & Hd).
  - repeat constructor.
  - repeat constructor.
  - split; [exact Hp|].
    destruct (Hd _ eq_refl) as [_ (t' & Ht' & _ & _ & Hb)].
    + reflexivity.
    + vm_compute. set_solver.
    + reflexivity.
    + exists t'. split; [exact Ht'|]. exact Hb.
Defined.

End ProjectNames.

(** From here on [++] and the order symbols are those of lists and
    numbers. *)
Open Scope list_scope.
Open Scope nat_scope.

(* ====================================================================== *)
(** * Properties: package analysis *)
(* ====================================================================== *)

Section AnalysisProperties.
Import PackageAnalyzer.
Variable probe : VirtualEnv -> VirtualEnv.

(** The environment as the index sees it: probed when not loaded. *)
Definition as_indexed (v : VirtualEnv) : VirtualEnv :=
  if negb (packages_loaded v) then probe v else v.

(** The entries that one environment contributes under a folded name. *)
Definition entries_in (k : string) (v : VirtualEnv) : list Install :=
  List.map (fun pkg => (pkg_version pkg, v))
    (List.filter (fun pkg => bool_decide (Str.lower (pkg_name pkg) = k))
       (packages v)).

(** The entries of a folded name across the environments, in order. *)
Definition entries_of (k : string) (vs : list VirtualEnv) : list Install :=
  List.flat_map (fun v => entries_in k (as_indexed v)) vs.

Lemma map_append_lookup n i (m : gmap string (list Install)) k :
  default [] (map_append n i m !! k)
  = (default [] (m !! k) ++ if bool_decide (n = k) then [i] else [])%list.
Proof.
  unfold map_append. case_bool_decide as Hk.
  - subst. by rewrite lookup_insert_eq.
  - rewrite lookup_insert_ne by done. by rewrite app_nil_r.
Qed.

Lemma fold_packages_lookup (v : VirtualEnv) (pkgs : list Package)
    (m : gmap string (list Install)) k :
  default [] (fold_left (fun m pkg =>
                 map_append (Str.lower (pkg_name pkg)) (pkg_version pkg, v) m)
                pkgs m !! k)
  = (default [] (m !! k)
     ++ List.map (fun pkg => (pkg_version pkg, v))
          (List.filter (fun pkg => bool_decide (Str.lower (pkg_name pkg) = k))
             pkgs))%list.
Proof.
  revert m. induction pkgs as [|pkg pkgs IH]; intros m; simpl.
  - by rewrite app_nil_r.
  - rewrite IH, map_append_lookup.
    case_bool_decide; simpl; by rewrite <- app_assoc.
Qed.

Lemma fold_venvs_lookup (vs : list VirtualEnv)
    (m : gmap string (list Install)) k :
  default [] (fold_left (fun m venv =>
      let venv := if negb (packages_loaded venv) then probe venv else venv in
      fold_left (fun m pkg =>
        map_append (Str.lower (pkg_name pkg)) (pkg_version pkg, venv) m)
        (packages venv) m) vs m !! k)
  = (default [] (m !! k) ++ entries_of k vs)%list.
Proof.
  revert m. induction vs as [|v vs IH]; intros m; simpl.
  - by rewrite app_nil_r.
  - rewrite IH. cbv zeta. rewrite fold_packages_lookup.
    by rewrite <- app_assoc.
Qed.

(** What the index holds under a folded name. *)
Lemma build_map_lookup (vs : list VirtualEnv) k :
  default [] (_build_map probe vs !! k) = entries_of k vs.
Proof.
  unfold _build_map. rewrite fold_venvs_lookup. by rewrite lookup_empty.
Qed.



End AnalysisProperties.

Section AnalysisScenarios.
Import PackageAnalyzer.

Definition env_with (p proj : string) (pkgs : list Package) : VirtualEnv :=
  mkVirtualEnv p ".venv" proj None venv 0 None pkgs None true.

Definition env_proj1 : VirtualEnv :=
  env_with "/home/u/proj1/.venv" "proj1"
    [mkPackage "requests" "2.31.0" 0; mkPackage "idna" "3.6" 0].
Definition env_proj2_same : VirtualEnv :=
  env_with "/home/u/proj2/.venv" "proj2" [mkPackage "requests" "2.31.0" 0].
Definition env_proj2_older : VirtualEnv :=
  env_with "/home/u/proj2/.venv" "proj2" [mkPackage "Requests" "2.28.0" 0].

(** Scenario 1 of the specification: the same version in two
    environments is a duplicate with two owners and no conflict. *)
Example scenario_same_version :
  let m := _build_map id [env_proj1; env_proj2_same] in
  get_duplicates m !! "requests"
    = Some [("2.31.0", env_proj1); ("2.31.0", env_proj2_same)]
  /\ get_version_conflicts m !! "requests" = None.
Proof. split; by vm_compute. Qed.

(** Scenario 2 of the specification: two versions are a conflict. *)
Example scenario_two_versions :
  let m := _build_map id [env_proj1; env_proj2_older] in
  get_version_conflicts m !! "requests" = Some {[ "2.31.0"; "2.28.0" ]}.
Proof. by vm_compute. Qed.




End AnalysisScenarios.

(* ====================================================================== *)
(** * Properties: the package probe *)
(* ====================================================================== *)

Section ProbeProperties.
Variable os : OS.

(** X8: The failures that the probe absorbs: a non-zero exit status, a
    time-out, a missing executable, and output that [json.loads] rejects
    leave the record as it was and raise nothing. *)
Lemma probe_packages_degrades (self : VirtualEnv) (force : bool) exe :
  python_executable self = Some exe ->
  (exists rc out, subprocess_run os (pip_list_argv exe) = Completed rc out
                  /\ (rc <> 0%Z \/ json_loads os out = None))
  \/ subprocess_run os (pip_list_argv exe) = TimeoutExpired
  \/ subprocess_run os (pip_list_argv exe) = FileNotFoundError ->
  probe_packages os self force = Done self.
Proof.
  intros Hexe Hfail. unfold probe_packages.
  destruct (packages_loaded self && negb force); [done|].
  rewrite Hexe.
  destruct Hfail as [(rc & out & -> & Hwhy) | [-> | ->]]; [|done|done].
  destruct Hwhy as [Hrc | Hjson].
  - by apply Z.eqb_neq in Hrc as ->.
  - rewrite Hjson. by destruct (rc =? 0)%Z.
Qed.

(** Without an executable, and for a record that is loaded and not
    forced, the probe does nothing. *)
Lemma probe_packages_noop (self : VirtualEnv) (force : bool) :
  python_executable self = None \/ (packages_loaded self = true /\ force = false) ->
  probe_packages os self force = Done self.
Proof.
  intros [Hexe | [Hl ->]]; unfold probe_packages.
  - rewrite Hexe. by destruct (packages_loaded self && negb force).
  - by rewrite Hl.
Qed.

End ProbeProperties.

Section ProbeScenarios.

Definition dquote : string := String (ascii_of_nat 34) EmptyString.

(** The text [[{"name": "pip"}]]: well-formed JSON, one entry, no
    version. *)
Definition stdout_no_version : string :=
  "[{" ++ dquote ++ "name" ++ dquote ++ ": " ++ dquote ++ "pip" ++ dquote
  ++ "}]".

(** The text [{"error": "x"}]: well-formed JSON, an object in place of
    the list. *)
Definition stdout_object : string :=
  "{" ++ dquote ++ "error" ++ dquote ++ ": " ++ dquote ++ "x" ++ dquote
  ++ "}".

(** A machine where [pip list] exits with status 0 and prints [out];
    [json.loads] reads the three texts below as the values that they
    denote. *)
Definition pip_prints (out : string) : OS :=
  {| abspath := fun p => p;
     realpath := fun p => p;
     expanduser := fun p => p;
     path_exists := fun _ => true;
     isdir := fun _ => true;
     access_X_OK := fun _ => true;
     scandir := fun _ => ListingDenied;
     getmtime := fun _ => None;
     dir_size := fun _ => 0;
     subprocess_run := fun _ => Completed 0 out;
     json_loads := fun s =>
       if String.eqb s stdout_no_version
       then Some (JArr [JObj [("name", JStr "pip")]])
       else if String.eqb s stdout_object
       then Some (JObj [("error", JStr "x")])
       else if String.eqb s "[7]" then Some (JArr [JNum 7])
       else None;
     environ_PATH := EmptyString;
     platform_system := "Linux" |}.

Definition env_with_python : VirtualEnv :=
  mkVirtualEnv "/home/u/proj1/.venv" ".venv" "proj1" None venv 0 None []
    (Some "/home/u/proj1/.venv/bin/python") false.

(** C7, where the code departs from it: a response that is well-formed
    JSON of another shape than a list of objects with [name] and
    [version] makes the probe raise [KeyError] or [TypeError] into its
    caller; only output that fails to parse degrades. *)
Theorem probe_packages_raises_on_malformed_shape :
  probe_packages (pip_prints stdout_no_version) env_with_python false
    = Raised (KeyError "version")
  /\ probe_packages (pip_prints stdout_object) env_with_python false
    = Raised TypeError
  /\ probe_packages (pip_prints "[7]") env_with_python false
    = Raised TypeError
  /\ probe_packages (pip_prints "not json") env_with_python false
    = Done env_with_python.
Proof. repeat split; by vm_compute. Qed.

End ProbeScenarios.

(* ====================================================================== *)
(** * Properties: navigation *)
(* ====================================================================== *)

Section NavigationScenario.

Definition env_of_project (proj : string) : VirtualEnv :=
  mkVirtualEnv ("/home/u/" ++ proj ++ "/.venv")%string ".venv" proj None venv
    0 None [] None false.

(** Ten environments; those at positions 5, 7 and 9 match [web]. *)
Definition ten_envs : list VirtualEnv :=
  List.map env_of_project
    ["app0"; "app1"; "app2"; "app3"; "app4"; "web5"; "app6"; "web7"; "app8";
     "web9"].

(** The environment list in delete mode. *)
Definition delete_mode_venvs : TUI :=
  set_breadcrumb ["Virtual Environments"]
    (set_mode (Some mode_delete) (set_view venvs_view (new_TUI [] ten_envs))).

(** A file system where every removal succeeds; the world is the list of
    removed paths. *)
Definition rmtree_ok (p : string) (w : list string) : list string * bool :=
  (w ++ [p], true).

Definition run_keys (inputs : list (Key * Z * string)) (t : TUI)
  : Outcome * list string :=
  handle_keys plain_os (list string) rmtree_ok inputs t [].

(** What a continued run shows of its state. *)
Definition observe {A} (f : TUI -> A) (o : Outcome * list string) : option A :=
  match o with
  | (Continue t, _) => Some (f t)
  | _ => None
  end.

End NavigationScenario.

Section NavigationProperties.

(** [_toggle_selection] flips the cursor itself, whatever the filter. *)
Lemma toggle_selection_flips_cursor (t : TUI) :
  current_view t ∈ [interpreters_view; venvs_view; venv_detail] ->
  forall i, i ∈ selected_items (_toggle_selection t)
            <-> (i = cursor t /\ cursor t ∉ selected_items t)
                \/ (i <> cursor t /\ i ∈ selected_items t).
Proof.
  intros Hview i. unfold _toggle_selection.
  rewrite bool_decide_eq_true_2 by done.
  case_bool_decide as Hin; cbn [selected_items set_selected_items].
  - rewrite elem_of_difference, elem_of_singleton. naive_solver.
  - rewrite elem_of_union, elem_of_singleton.
    destruct (decide (i = cursor t)); naive_solver.
Qed.

(** C1, where the code departs from it: with the filter [web] on (rows
    0, 1, 2 stand for the environments 5, 7, 9), marking row 0 puts 0
    into the selection, not 5; marking rows 0 and 2 and confirming the
    deletion removes the environments 0 and 2, and those shown in rows 0
    and 2 (5 and 9) stay. *)
Theorem toggle_marks_visible_position :
  let searching := [(KEY_SLASH, 40%Z, "web")] in
  let mark0 := searching ++ [(KEY_SPACE, 40%Z, EmptyString)] in
  let mark02_delete :=
    mark0 ++ [(KEY_DOWN, 40%Z, EmptyString); (KEY_DOWN, 40%Z, EmptyString);
              (KEY_SPACE, 40%Z, EmptyString); (KEY_d, 40%Z, "y")] in
  observe filtered_items (run_keys searching delete_mode_venvs)
    = Some [5; 7; 9]
  /\ observe (fun t => original_idx t 0) (run_keys searching delete_mode_venvs)
    = Some 5
  /\ observe (fun t => elements (selected_items t))
       (run_keys mark0 delete_mode_venvs) = Some [0]
  /\ observe (fun t => List.map project_name (venvs t))
       (run_keys mark02_delete delete_mode_venvs)
     = Some ["app1"; "app3"; "app4"; "web5"; "app6"; "web7"; "app8"; "web9"]
  /\ snd (run_keys mark02_delete delete_mode_venvs)
     = ["/home/u/app2/.venv"; "/home/u/app0/.venv"]%string.
Proof. repeat split; by vm_compute. Qed.

(** [_go_back] follows the reverse table, empties the selection when it
    leaves a list or detail view, and leaves the search state as it is. *)
Lemma go_back_effect (t : TUI) :
  current_view (_go_back t)
    = match current_view t with
      | venv_detail => venvs_view
      | interpreters_view | venvs_view | analysis => category_select
      | category_select | mode_select => mode_select
      end
  /\ (current_view t ∈ [venv_detail; interpreters_view; venvs_view; analysis]
      -> selected_items (_go_back t) = ∅)
  /\ search_mode (_go_back t) = search_mode t
  /\ search_query (_go_back t) = search_query t
  /\ filtered_items (_go_back t) = filtered_items t.
Proof.
  unfold _go_back. destruct (current_view t) eqn:Hv; repeat split; try done.
  all: intros Hin; exfalso; revert Hin; rewrite !elem_of_cons, elem_of_nil;
    naive_solver.
Qed.

(** With ESC, a level is only left once no search is on. *)
Lemma escape_leaves_without_search os World rmtree height typed
    (t : TUI) (w : World) t' w' :
  handle_key os World rmtree KEY_ESC height typed t w = (Continue t', w') ->
  search_mode t' = false
  /\ (search_mode t = true ->
      current_view t' = current_view t /\ search_query t' = EmptyString
      /\ filtered_items t' = []).
Proof.
  unfold handle_key. destruct (search_mode t) eqn:Hs; intros [= <- <-].
  - by repeat split.
  - destruct (go_back_effect t) as (_ & _ & Hm & _). rewrite Hm, Hs.
    by split.
Qed.

(** From [mode_select] with an empty breadcrumb, [q] leaves the loop;
    ESC stays on [mode_select]. *)
Lemma back_from_mode_select os World rmtree height typed (t : TUI)
    (w : World) :
  current_view t = mode_select -> breadcrumb t = [] -> search_mode t = false ->
  handle_key os World rmtree KEY_q height typed t w = (Break, w)
  /\ exists t', handle_key os World rmtree KEY_ESC height typed t w
                = (Continue t', w)
                /\ current_view t' = mode_select.
Proof.
  intros Hview Hcrumb Hsearch. unfold handle_key.
  rewrite Hview, Hcrumb, Hsearch. split; [done|].
  eexists. split; [done|]. unfold _go_back. by rewrite Hview.
Qed.

(** C9, where the code departs from it: with a search on in the
    environment list, [q] moves one level up to [category_select] and
    empties the selection, and the search stays on with its query and its
    filtered indices; ESC, in the same state, clears the search first and
    moves up at the next press. *)
Theorem back_with_q_keeps_search_state :
  let searching := [(KEY_SLASH, 40%Z, "web")] in
  let back_q := searching ++ [(KEY_q, 40%Z, EmptyString)] in
  let back_esc :=
    searching ++ [(KEY_ESC, 40%Z, EmptyString); (KEY_ESC, 40%Z, EmptyString)] in
  observe (fun t => (current_view t, elements (selected_items t),
                     search_mode t, search_query t, filtered_items t))
    (run_keys back_q delete_mode_venvs)
    = Some (category_select, [], true, "web"%string, [5; 7; 9])
  /\ observe (fun t => (current_view t, elements (selected_items t),
                        search_mode t, search_query t, filtered_items t))
       (run_keys back_esc delete_mode_venvs)
     = Some (category_select, [], false, EmptyString, []).
Proof. split; by vm_compute. Qed.

End NavigationProperties.

(* ====================================================================== *)
(** * Properties: cursor and scroll window *)
(* ====================================================================== *)

Section Scrolling.

(** After [_adjust_scroll] over a list of [N >= 1] items and a window of
    [H >= 1] rows, whatever the state before: the offset is within
    [0, max(0, N-H)], the cursor within the window and within the list. *)
Lemma adjust_scroll_window (N H : Z) (t : TUI) :
  (1 <= N)%Z -> (1 <= H)%Z ->
  let t' := _adjust_scroll N H t in
  let c := Z.of_nat (cursor t') in
  let o := Z.of_nat (scroll_offset t') in
  (0 <= o <= Z.max 0 (N - H))%Z /\ (o <= c <= o + H - 1)%Z /\ (c <= N - 1)%Z.
Proof.
  intros HN HH. unfold _adjust_scroll.
  cbn [cursor scroll_offset set_cursor set_scroll_offset].
  assert (HNpos : ((0 <? N)%Z) = true) by (apply Z.ltb_lt; lia).
  rewrite HNpos.
  set (c := Z.max 0 (Z.min (Z.of_nat (cursor t)) (N - 1))).
  set (o := Z.of_nat (scroll_offset t)).
  assert (Hc : (0 <= c <= N - 1)%Z) by (unfold c; lia).
  assert (Ho : (0 <= o)%Z) by (unfold o; lia).
  rewrite !Z2Nat.id.
  - destruct (c <? o)%Z eqn:E1; [apply Z.ltb_lt in E1 | apply Z.ltb_ge in E1].
    + lia.
    + destruct (o + H <=? c)%Z eqn:E2;
        [apply Z.leb_le in E2 | apply Z.leb_gt in E2]; lia.
  - lia.
  - lia.
Qed.

(** The bound that [_adjust_scroll_for_view] uses: the length of the
    whole list of the view. *)
Definition unfiltered_count (t : TUI) : Z :=
  match current_view t with
  | mode_select => 5
  | category_select => if bool_decide (mode t = Some mode_explore) then 3 else 2
  | interpreters_view => Z.of_nat (length (interpreters t))
  | venvs_view => Z.of_nat (length (venvs t))
  | venv_detail =>
      match selected_venv t with
      | Some sv => Z.of_nat (length (packages sv))
      | None => 0
      end
  | analysis => 0
  end%Z.

(** X6: A cursor move keeps the window invariant with respect to the whole
    list of the view. *)
Lemma cursor_move_window_unfiltered (height : Z) (t : TUI) :
  (1 <= unfiltered_count t)%Z -> (11 <= height)%Z ->
  let t' := _adjust_scroll_for_view height t in
  let c := Z.of_nat (cursor t') in
  let o := Z.of_nat (scroll_offset t') in
  let N := unfiltered_count t in
  let H := (height - 10)%Z in
  (0 <= o <= Z.max 0 (N - H))%Z /\ (o <= c <= o + H - 1)%Z /\ (c <= N - 1)%Z.
Proof.
  intros HN Hh. unfold _adjust_scroll_for_view.
  apply adjust_scroll_window; [exact HN | lia].
Qed.

(** C5, where the code departs from it: with the filter [web] on, the
    list shows N = 3 items; on a screen of 13 lines the window has H = 3
    rows. Nine moves down bring the cursor to 9 and the offset to 7: the
    cursor is clamped by the 10 items of the unfiltered list, not by
    [0, N-1] = [0, 2], and the offset exceeds max(0, N-H) = 0. *)
Theorem cursor_move_ignores_filter :
  let keys := (KEY_SLASH, 13%Z, "web"%string)
              :: List.repeat (KEY_DOWN, 13%Z, EmptyString) 9 in
  observe (fun t => (current_item_count t, cursor t, scroll_offset t))
    (run_keys keys delete_mode_venvs) = Some (3, 9, 7)
  /\ observe (fun t => (current_item_count t, cursor t, scroll_offset t))
       (run_keys [(KEY_SLASH, 13%Z, "web"%string)] delete_mode_venvs)
     = Some (3, 0, 0).
Proof. split; by vm_compute. Qed.

End Scrolling.

(* ====================================================================== *)
(** * Properties: the delete batch *)
(* ====================================================================== *)

Section DeleteBatch.
Variable os : OS.
Variable World : Type.
Variable rmtree : string -> World -> World * bool.

Abbreviation step := (delete_step os World rmtree venvs_view).
Abbreviation loop := (delete_loop os World rmtree venvs_view).

Lemma elem_of_delete_other {A} (l : list A) (i : nat) (x y : A) :
  l !! i = Some y -> x <> y -> x ∈ l -> x ∈ delete i l.
Proof.
  intros Hi Hne Hx. rewrite delete_take_drop.
  rewrite <- (take_drop_middle l i y Hi) in Hx.
  rewrite elem_of_app, elem_of_cons in Hx. rewrite elem_of_app.
  naive_solver.
Qed.

(** The cases of one iteration. *)
Lemma step_cases (idx : nat) (b : Batch World) :
  step idx b = b
  \/ exists v w' ok,
       b_venvs b !! idx = Some v
       /\ is_system_path os (path v) = false
       /\ rmtree (path v) (b_world b) = (w', ok)
       /\ b_attempted (step idx b) = b_attempted b ++ [path v]
       /\ b_venvs (step idx b)
          = if ok then delete idx (b_venvs b) else b_venvs b.
Proof.
  unfold delete_step. rewrite bool_decide_eq_true_2 by done. simpl.
  destruct (idx <? length (b_venvs b)); [|by left].
  destruct (b_venvs b !! idx) as [v|] eqn:Hv; [|by left].
  destruct (is_system_path os (path v)) eqn:Hsys; [by left|]. simpl.
  destruct (rmtree (path v) (b_world b)) as [w' ok] eqn:Hrm.
  right. exists v, w', ok. by destruct ok.
Qed.

Lemma step_attempted_mono idx (b : Batch World) p :
  p ∈ b_attempted b -> p ∈ b_attempted (step idx b).
Proof.
  destruct (step_cases idx b) as [-> | (v & w' & ok & _ & _ & _ & -> & _)];
    [done|].
  intros. apply elem_of_app. by left.
Qed.

Lemma step_attempted_new idx (b : Batch World) p :
  p ∈ b_attempted (step idx b) ->
  p ∈ b_attempted b \/ is_system_path os p = false.
Proof.
  destruct (step_cases idx b) as [-> | (v & w' & ok & _ & Hsys & _ & -> & _)];
    [by left|].
  intros [?|Hp%list_elem_of_singleton]%elem_of_app; [by left|].
  right. by subst.
Qed.

Lemma step_keeps_system idx (b : Batch World) v :
  is_system_path os (path v) = true ->
  v ∈ b_venvs b -> v ∈ b_venvs (step idx b).
Proof.
  intros Hsys Hin.
  destruct (step_cases idx b) as [-> | (u & w' & ok & Hu & Hns & _ & _ & ->)];
    [done|].
  destruct ok; [|done].
  eapply elem_of_delete_other; [exact Hu| |done].
  intros ->. congruence.
Qed.

Lemma step_lookup_below idx (b : Batch World) j :
  j < idx -> b_venvs (step idx b) !! j = b_venvs b !! j.
Proof.
  intros Hlt.
  destruct (step_cases idx b) as [-> | (u & w' & ok & _ & _ & _ & _ & ->)];
    [done|].
  destruct ok; [|done]. by apply list_lookup_delete_lt.
Qed.

Lemma step_attempts idx (b : Batch World) v :
  b_venvs b !! idx = Some v -> is_system_path os (path v) = false ->
  path v ∈ b_attempted (step idx b).
Proof.
  intros Hv Hsys. unfold delete_step.
  rewrite bool_decide_eq_true_2 by done. simpl.
  pose proof (lookup_lt_Some _ _ _ Hv) as Hlt.
  apply Nat.ltb_lt in Hlt. rewrite Hlt, Hv, Hsys. simpl.
  destruct (rmtree (path v) (b_world b)) as [w' [|]]; simpl;
    apply elem_of_app; right; by apply list_elem_of_singleton.
Qed.

Lemma loop_attempted_mono idxs (b : Batch World) p :
  p ∈ b_attempted b -> p ∈ b_attempted (loop idxs b).
Proof.
  revert b. induction idxs as [|idx idxs IH]; intros b Hp; simpl; [done|].
  apply IH. by apply step_attempted_mono.
Qed.

Lemma loop_attempted_new idxs (b : Batch World) p :
  p ∈ b_attempted (loop idxs b) ->
  p ∈ b_attempted b \/ is_system_path os p = false.
Proof.
  revert b. induction idxs as [|idx idxs IH]; intros b Hp; simpl in *;
    [by left|].
  destruct (IH _ Hp) as [Hin | Hns]; [|by right].
  by apply step_attempted_new in Hin.
Qed.

Lemma loop_keeps_system idxs (b : Batch World) v :
  is_system_path os (path v) = true ->
  v ∈ b_venvs b -> v ∈ b_venvs (loop idxs b).
Proof.
  intros Hsys. revert b.
  induction idxs as [|idx idxs IH]; intros b Hin; simpl; [done|].
  apply IH. by apply step_keeps_system.
Qed.

(** High to low: when an index is reached, the records below it are
    those of the list before the batch, so every selected record that is
    not protected is handed to [rmtree]. *)
Lemma loop_attempts_all idxs (b : Batch World) :
  StronglySorted descending idxs -> NoDup idxs ->
  forall j u, j ∈ idxs -> b_venvs b !! j = Some u ->
              is_system_path os (path u) = false ->
              path u ∈ b_attempted (loop idxs b).
Proof.
  intros Hsorted. revert b.
  induction Hsorted as [|idx idxs Hs IH Hall]; intros b Hnd j u Hj Hu Hsys.
  - by apply elem_of_nil in Hj.
  - apply NoDup_cons in Hnd as [Hnotin Hnd]. simpl.
    apply elem_of_cons in Hj as [-> | Hj].
    + apply loop_attempted_mono. by apply step_attempts.
    + apply (IH _ Hnd j u Hj); [|done].
      rewrite step_lookup_below; [done|].
      rewrite Forall_forall in Hall. specialize (Hall j Hj).
      unfold descending in Hall.
      assert (j <> idx) by (intros ->; done). lia.
Qed.

Lemma sorted_reverse_spec (s : gset nat) :
  StronglySorted descending (sorted_reverse s)
  /\ NoDup (sorted_reverse s)
  /\ forall i, i ∈ sorted_reverse s <-> i ∈ s.
Proof.
  unfold sorted_reverse.
  pose proof (merge_sort_Permutation descending (elements s)) as Hperm.
  split; [|split].
  - apply StronglySorted_merge_sort.
    + intros x y z. unfold descending. lia.
    + intros x y. unfold descending. lia.
  - rewrite Hperm. apply NoDup_elements.
  - intros i. rewrite Hperm. apply elem_of_elements.
Qed.

(** Outside the environment list the loop changes nothing and attempts
    nothing. *)
Lemma delete_loop_other_view (view : View) idxs (b : Batch World) :
  view <> venvs_view -> delete_loop os World rmtree view idxs b = b.
Proof.
  intros Hview.
  assert (Hstep : forall idx b', delete_step os World rmtree view idx b' = b').
  { intros idx b'. unfold delete_step.
    by rewrite bool_decide_eq_false_2 by done. }
  unfold delete_loop. revert b.
  induction idxs as [|idx idxs IH]; intros b; [done|].
  simpl. rewrite Hstep. apply IH.
Qed.

(** C2: in a confirmed delete batch, a selected environment on a
    protected system path is skipped: its record is still in the list
    afterwards and its path was never handed to [shutil.rmtree]; the
    batch goes on: in the environment list every other selected
    environment is handed to [shutil.rmtree]; and the selection ends
    empty. *)
Theorem protected_items_skipped (response : string) (t : TUI) (w : World)
    (i : nat) (v : VirtualEnv) :
  affirmative response = true ->
  i ∈ selected_items t ->
  venvs t !! i = Some v ->
  is_system_path os (path v) = true ->
  let r := _confirm_delete os World rmtree response t w in
  v ∈ venvs r.1
  /\ (path v ∉ b_attempted r.2)
  /\ (current_view t = venvs_view ->
      forall j u, j ∈ selected_items t -> venvs t !! j = Some u ->
                  is_system_path os (path u) = false ->
                  path u ∈ b_attempted r.2)
  /\ selected_items r.1 = ∅.
Proof.
  intros Hyes Hi Hv Hsys r. subst r. unfold _confirm_delete.
  rewrite bool_decide_eq_false_2 by set_solver.
  rewrite Hyes. cbn [fst snd].
  destruct (sorted_reverse_spec (selected_items t)) as (Hsorted & Hnd & Hmem).
  cbn [venvs selected_items set_cursor set_selected_items set_venvs].
  assert (Hin : v ∈ venvs t) by (by eapply list_elem_of_lookup_2).
  destruct (decide (current_view t = venvs_view)) as [Hview | Hview].
  - rewrite Hview. split; [|split; [|split]].
    + by apply loop_keeps_system.
    + intros Hatt. apply loop_attempted_new in Hatt as [Hnil | Hns].
      * by apply elem_of_nil in Hnil.
      * congruence.
    + intros _ j u Hj Hu Hns.
      apply (loop_attempts_all _ _ Hsorted Hnd j u);
        [by apply Hmem|done|done].
    + reflexivity.
  - rewrite delete_loop_other_view by done. cbn [b_venvs b_attempted].
    split; [done|]. split; [by intros ?%elem_of_nil|]. by split.
Qed.

End DeleteBatch.

Section DeleteBatchScenario.

Definition system_env : VirtualEnv :=
  mkVirtualEnv "/usr/bin/python3-envs/base" "base" "base" None venv 0 None []
    None false.

(** Three environments, the middle one on a protected path, all marked. *)
Definition three_marked : TUI :=
  set_selected_items {[0; 1; 2]}
    (set_breadcrumb ["Virtual Environments"]
       (set_mode (Some mode_delete)
          (set_view venvs_view
             (new_TUI []
                [env_of_project "app0"; system_env; env_of_project "app2"])))).

(** C2 on that list: the protected record is kept and not attempted, the
    two others are handed to [rmtree], high index first. *)
Lemma protected_items_skipped_witness :
  let r := _confirm_delete plain_os (list string) rmtree_ok "y" three_marked [] in
  system_env ∈ venvs r.1
  /\ (path system_env ∉ b_attempted r.2)
  /\ path (env_of_project "app0") ∈ b_attempted r.2
  /\ venvs r.1 = [system_env]
  /\ b_attempted r.2
     = ["/home/u/app2/.venv"; "/home/u/app0/.venv"]%string.
Proof.
  intros r.
  destruct (protected_items_skipped plain_os (list string) rmtree_ok "y"
              three_marked [] 1 system_env)
    as (Hkept & Hnot & Hothers & _).
  - reflexivity.
  - unfold three_marked. cbn [selected_items set_selected_items]. set_solver.
  - reflexivity.
  - reflexivity.
  - split; [exact Hkept|]. split; [exact Hnot|]. split.
    + apply (Hothers eq_refl 0 (env_of_project "app0")).
      * unfold three_marked. cbn [selected_items set_selected_items].
        set_solver.
      * reflexivity.
      * reflexivity.
    + split; by vm_compute.
Defined.

End DeleteBatchScenario.

(* ====================================================================== *)
(** * Properties: the recursive scan *)
(* ====================================================================== *)

Section ModelFileSystem.

(** A file system given by the listing of its directories: every
    directory with its entries. Paths are absolute and normal, so
    [abspath] is the identity; [resolve] is the resolution of symbolic
    links; the home directory is [home]. Listing a path that is no
    directory fails. *)
Definition listing_os (home : string) (listing : list (string * list DirEntry))
    (resolve : string -> string) : OS :=
  let is_listed p := existsb (fun kv => String.eqb kv.1 p) listing in
  let is_entry p :=
    existsb (fun kv =>
      existsb (fun e => String.eqb (entry_path kv.1 e) p) kv.2) listing in
  {| abspath := fun p => p;
     realpath := resolve;
     expanduser := fun p =>
       match p with
       | String "~" rest => (home ++ rest)%string
       | _ => p
       end;
     path_exists := fun p => is_listed p || is_entry p;
     isdir := is_listed;
     access_X_OK := fun p => is_listed p || is_entry p;
     scandir := fun p =>
       match List.find (fun kv => String.eqb kv.1 p) listing with
       | Some kv => Entries kv.2
       | None => ListingFails
       end;
     getmtime := fun _ => None;
     dir_size := fun _ => 0;
     subprocess_run := fun _ => FileNotFoundError;
     json_loads := fun _ => None;
     environ_PATH := EmptyString;
     platform_system := "Linux" |}.

Definition dir_entry (n : string) : DirEntry := mkDirEntry n true.
Definition file_entry (n : string) : DirEntry := mkDirEntry n false.

(** Scenario 3 of the specification: [/home/u/a/.venv] and
    [/home/u/a/b/.venv] are environments. *)
Definition nested_projects : list (string * list DirEntry) :=
  [ ("/home/u", [dir_entry "a"]);
    ("/home/u/a", [dir_entry ".venv"; dir_entry "b"]);
    ("/home/u/a/.venv", [file_entry "pyvenv.cfg"]);
    ("/home/u/a/b", [dir_entry ".venv"]);
    ("/home/u/a/b/.venv", [file_entry "pyvenv.cfg"]) ]%string.

Definition nested_os : OS := listing_os "/home/u" nested_projects (fun p => p).

End ModelFileSystem.

Section Loops.
Context {S A : Type}.

Lemma for_each_cons (body : A -> S -> Step S) (x : A) (xs : list A)
    (st : S) :
  for_each body (x :: xs) st
  = match body x st with
    | (st', None) => for_each body xs st'
    | (st', Some e) => (st', Some e)
    end.
Proof. reflexivity. Qed.

Lemma for_each_pointwise (f g : A -> S -> Step S) (l : list A) (st : S) :
  (forall x st, x ∈ l -> f x st = g x st) ->
  for_each f l st = for_each g l st.
Proof.
  revert st. induction l as [|x l IH]; intros st Hfg; [done|].
  rewrite !for_each_cons, Hfg by apply list_elem_of_here.
  destruct (g x st) as [st' [e|]]; [done|].
  apply IH. intros x' st'' Hx'. apply Hfg. by apply list_elem_of_further.
Qed.

(** What every turn of a loop does to the accumulator, in terms of a
    preorder, the loop does, however it ends. *)
Lemma for_each_rel (Rel : S -> S -> Prop) (body : A -> S -> Step S)
    (l : list A) :
  (forall st, Rel st st) ->
  (forall st1 st2 st3, Rel st1 st2 -> Rel st2 st3 -> Rel st1 st3) ->
  (forall x st, x ∈ l -> Rel st (body x st).1) ->
  forall st, Rel st (for_each body l st).1.
Proof.
  intros Hrefl Htrans. induction l as [|x l IH]; intros Hbody st;
    [apply Hrefl|].
  rewrite for_each_cons.
  pose proof (Hbody x st (list_elem_of_here _ _)) as Hx.
  destruct (body x st) as [st' [e|]]; [exact Hx|].
  eapply Htrans; [exact Hx|]. apply IH.
  intros x' st'' Hx'. apply Hbody. by apply list_elem_of_further.
Qed.

Lemma for_each_inv (I : S -> Prop) (body : A -> S -> Step S) (l : list A) :
  (forall x st, x ∈ l -> I st -> I (body x st).1) ->
  forall st, I st -> I (for_each body l st).1.
Proof.
  intros Hbody st.
  apply (for_each_rel (fun st st' => I st -> I st')); [done| |].
  - intros st1 st2 st3 H12 H23 H1. by apply H23, H12.
  - intros x st' Hx. by apply Hbody.
Qed.


Lemma except_PermissionError_state (r : Step S) :
  (except_PermissionError r).1 = r.1.
Proof. by destruct r as [st [[]|]]. Qed.


Lemma completed_Returns (r : Step S) (st : S) :
  completed r = Returns st <-> r = (st, None).
Proof.
  destruct r as [st' [e|]]; simpl; split; try done.
  - by intros [= ->].
  - by intros [= ->].
Qed.


End Loops.

Lemma for_scandir_state {S : Type} (os : OS) (p : string)
    (body : DirEntry -> S -> Step S) (st : S) :
  (for_scandir os p body st).1
  = match scandir os p with
    | Entries entries => (for_each body entries st).1
    | _ => st
    end.
Proof. unfold for_scandir. by destruct (scandir os p). Qed.

Section ScanProperties.
Variable os : OS.
Variable max_depth : nat.

(** The body of the loop of [scan_dir] over the entries of [root]. *)
Definition scan_entry (fuel : nat) (root : string) (depth : nat)
    (entry : DirEntry) (st : Scan) : Step Scan :=
  if negb (entry_is_dir entry) then (st, None)
  else if Str.startswith (entry_name entry) "."
          && negb (Str.mem (entry_name entry) PROJECT_VENV_NAMES)
  then (st, None)
  else if Str.mem (entry_name entry) scan_excluded then (st, None)
  else if is_venv os (entry_path root entry)
  then let r := add_found (new_VirtualEnv os)
                  (abspath os (entry_path root entry)) st.1 in
       ((r.1, st.2), r.2)
  else scan_dir os max_depth fuel (entry_path root entry) (S depth)
         (st.1, st.2 ++ [(entry_path root entry, S depth)]).

Lemma scan_dir_unfold (fuel : nat) (root : string) (depth : nat)
    (st : Scan) :
  scan_dir os max_depth (S fuel) root depth st
  = if max_depth <? depth then (st, None)
    else except_PermissionError
           (for_scandir os root (scan_entry fuel root depth) st).
Proof. reflexivity. Qed.

(** Enough fuel: a call at depth [d] gives the same result with any two
    amounts of fuel of at least [max_depth + 1 - d]; the units that
    [find_venvs] passes never run out before the depth test stops the
    recursion. *)
Lemma scan_dir_fuel (fuel fuel' : nat) (root : string) (depth : nat)
    (st : Scan) :
  (S max_depth - depth) <= fuel -> (S max_depth - depth) <= fuel' ->
  scan_dir os max_depth fuel root depth st
  = scan_dir os max_depth fuel' root depth st.
Proof.
  revert fuel' root depth st.
  induction fuel as [|fuel IH]; intros fuel' root depth st Hf Hf'.
  - assert (Hdeep : (max_depth <? depth) = true) by (apply Nat.ltb_lt; lia).
    destruct fuel' as [|fuel']; [done|].
    rewrite scan_dir_unfold. by rewrite Hdeep.
  - destruct fuel' as [|fuel'].
    + assert (Hdeep : (max_depth <? depth) = true) by (apply Nat.ltb_lt; lia).
      rewrite scan_dir_unfold. by rewrite Hdeep.
    + rewrite !scan_dir_unfold.
      destruct (max_depth <? depth) eqn:Hd; [done|].
      apply Nat.ltb_ge in Hd. f_equal. unfold for_scandir.
      destruct (scandir os root) as [entries| |]; [|done|done].
      apply for_each_pointwise. intros e st' _. unfold scan_entry.
      repeat (match goal with |- context [if ?c then _ else _] =>
                destruct c; [done|] end).
      apply IH; lia.
Qed.


(** The directories that the scan reaches from [top]: the top itself at
    depth 0, and below a reached directory every entry that is a
    directory, is not skipped by name, and is not an environment. *)
Inductive scanned (top : string) : nat -> string -> Prop :=
  | scanned_top : scanned top 0 top
  | scanned_entry d k entries e :
      scanned top k d ->
      scandir os d = Entries entries ->
      e ∈ entries ->
      entry_is_dir e = true ->
      is_venv os (entry_path d e) = false ->
      scanned top (S k) (entry_path d e).

Variable top : string.

(** A recursive call that the scan makes. *)
Definition justified_call (dk : string * nat) : Prop :=
  is_venv os dk.1 = false /\ scanned top dk.2 dk.1 /\ 1 <= dk.2 <= S max_depth.

(** An environment that the scan finds: an entry of a directory reached
    at a depth of at most [max_depth]. *)
Definition justified_key (key : string) : Prop :=
  exists d k entries e,
    scanned top k d /\ k <= max_depth
    /\ scandir os d = Entries entries /\ e ∈ entries
    /\ entry_is_dir e = true
    /\ is_venv os (entry_path d e) = true
    /\ key = abspath os (entry_path d e).

Definition extends (st st' : Scan) : Prop :=
  (forall dk, dk ∈ st'.2 -> dk ∈ st.2 \/ justified_call dk)
  /\ (forall key, key ∈ st'.1.2 -> key ∈ st.1.2 \/ justified_key key).

Lemma extends_refl st : extends st st.
Proof. split; by left. Qed.

Lemma extends_trans st1 st2 st3 :
  extends st1 st2 -> extends st2 st3 -> extends st1 st3.
Proof.
  intros [Hd12 Hk12] [Hd23 Hk23]. split.
  - intros dk [H|H]%Hd23; [by apply Hd12 | by right].
  - intros key [H|H]%Hk23; [by apply Hk12 | by right].
Qed.

(** The path is in the set after the turn, whether the constructor
    returned or not. *)
Lemma add_found_keys {R} (ctor : string -> result R) (k : string)
    (st : Found R) (key : string) :
  key ∈ (add_found ctor k st).1.2 <-> key = k \/ key ∈ st.2.
Proof.
  unfold add_found. case_bool_decide as Hin; simpl.
  - split; [by right | by intros [-> | ?]].
  - destruct (ctor k); simpl; rewrite elem_of_union, elem_of_singleton;
      done.
Qed.

Lemma scan_dir_extends (fuel : nat) (d : string) (depth : nat) (st : Scan) :
  scanned top depth d ->
  extends st (scan_dir os max_depth fuel d depth st).1.
Proof.
  revert d depth st.
  induction fuel as [|fuel IH]; intros d depth st Hd; [apply extends_refl|].
  rewrite scan_dir_unfold.
  destruct (max_depth <? depth) eqn:Hdepth; [apply extends_refl|].
  apply Nat.ltb_ge in Hdepth.
  rewrite except_PermissionError_state, for_scandir_state.
  destruct (scandir os d) as [entries| |] eqn:Hscan;
    [|apply extends_refl|apply extends_refl].
  apply for_each_rel; [apply extends_refl | apply extends_trans|].
  intros e st0 He. unfold scan_entry.
  destruct (entry_is_dir e) eqn:Hdir; simpl; [|apply extends_refl].
  destruct (Str.startswith (entry_name e) "."
            && negb (Str.mem (entry_name e) PROJECT_VENV_NAMES));
    [apply extends_refl|].
  destruct (Str.mem (entry_name e) scan_excluded); [apply extends_refl|].
  destruct (is_venv os (entry_path d e)) eqn:Hvenv.
  - split; simpl; [by left|].
    intros key [-> | Hkey]%add_found_keys; [right | by left].
    by exists d, depth, entries, e.
  - assert (Hsc : scanned top (S depth) (entry_path d e))
      by by eapply scanned_entry.
    eapply extends_trans; [|apply IH; exact Hsc].
    split; simpl; [|by left].
    intros dk [Hin | ->%list_elem_of_singleton]%elem_of_app;
      [by left | right].
    repeat split; simpl; try done; lia.
Qed.

End ScanProperties.

Section ScanTheorem.

(** C6: scanning [/home/u] with [max_depth = 1] finds [/home/u/a/.venv]
    and not [/home/u/a/b/.venv] (which [max_depth = 2] does find); and on
    every file system, for every depth bound: a directory into which the
    scan recurses is not an environment, the recursion is at most
    [max_depth + 1] calls deep, and an environment that the scan adds is
    an entry of a directory reached at a depth of at most [max_depth]
    through directories that are not environments. *)
Theorem scan_depth_bound_and_leaves :
  (result_map (List.map path)
     (find_venvs nested_os (Some "/home/u"%string) false 1)
     = Returns ["/home/u/a/.venv"%string]
   /\ find_venvs nested_os (Some "/home/u"%string) false 1
      = result_map (fun v => [v])
          (new_VirtualEnv nested_os "/home/u/a/.venv")
   /\ result_map (List.map path)
        (find_venvs nested_os (Some "/home/u"%string) false 2)
      = Returns ["/home/u/a/.venv"; "/home/u/a/b/.venv"]%string)
  /\ forall (os : OS) (max_depth : nat) (root : string)
            (st : Found VirtualEnv),
       let r := (scan_dir os max_depth (S max_depth) root 0 (st, [])).1 in
       (forall d k, (d, k) ∈ r.2 ->
          is_venv os d = false /\ scanned os root k d /\ 1 <= k <= S max_depth)
       /\ (forall key, key ∈ r.1.2 ->
             key ∈ st.2 \/ justified_key os max_depth root key)
       /\ (forall fuel, S max_depth <= fuel ->
             scan_dir os max_depth fuel root 0 (st, [])
             = scan_dir os max_depth (S max_depth) root 0 (st, [])).
Proof.
  split; [repeat split; by vm_compute|].
  intros os max_depth root st r.
  destruct (scan_dir_extends os max_depth root (S max_depth) root 0 (st, []))
    as [Hcalls Hkeys]; [constructor|].
  split; [|split].
  - intros d k [Hin | Hj]%Hcalls; [by apply elem_of_nil in Hin | exact Hj].
  - exact Hkeys.
  - intros fuel Hfuel. apply scan_dir_fuel; lia.
Qed.

End ScanTheorem.

(* ====================================================================== *)
(** * Properties: one record per key *)
(* ====================================================================== *)

Section Constructed.
Variable os : OS.

(** The probes and the constructors raise nothing but the
    [PermissionError] of a process start. *)
Lemma detect_version_raises (python_exec : string) (e : exn) :
  detect_version os python_exec = Raises e ->
  e = OSError
  /\ subprocess_run os [python_exec; "-c"; version_cmd] = PermissionError.
Proof.
  unfold detect_version, run_python_command.
  destruct (subprocess_run os _) as [rc out| | |]; simpl; try done.
  - by destruct (rc =? 0)%Z.
  - by intros [= <-].
Qed.

Lemma new_VirtualEnv_Returns (p : string) (v : VirtualEnv) :
  new_VirtualEnv os p = Returns v ->
  path v = abspath os p
  /\ python_executable v = detect_executable os (abspath os p)
  /\ packages v = [] /\ packages_loaded v = false.
Proof.
  unfold new_VirtualEnv.
  destruct (match detect_executable os (abspath os p) with
            | Some e => detect_version os e
            | None => Returns None
            end); simpl; [|done].
  by intros [= <-].
Qed.

Lemma new_VirtualEnv_Raises (p : string) (e : exn) :
  new_VirtualEnv os p = Raises e ->
  e = OSError
  /\ exists exe, detect_executable os (abspath os p) = Some exe
                 /\ subprocess_run os [exe; "-c"; version_cmd]
                    = PermissionError.
Proof.
  unfold new_VirtualEnv.
  destruct (detect_executable os (abspath os p)) as [exe|]; [|done].
  destruct (detect_version os exe) as [ver|e'] eqn:Hver; simpl; [done|].
  intros [= <-]. apply detect_version_raises in Hver as [-> Hrun].
  split; [done|]. by exists exe.
Qed.

Lemma new_PythonInterpreter_Returns (p : string) (r : PythonInterpreter) :
  new_PythonInterpreter os p = Returns r -> interp_path r = abspath os p.
Proof.
  unfold new_PythonInterpreter.
  destruct (detect_version os (abspath os p)); simpl; [|done].
  by intros [= <-].
Qed.

Lemma new_PythonInterpreter_Raises (p : string) (e : exn) :
  new_PythonInterpreter os p = Raises e ->
  e = OSError
  /\ subprocess_run os [abspath os p; "-c"; version_cmd] = PermissionError.
Proof.
  unfold new_PythonInterpreter.
  destruct (detect_version os (abspath os p)) as [ver|e'] eqn:Hver; simpl;
    [done|].
  intros [= <-]. by apply detect_version_raises in Hver.
Qed.

(** No version probe is denied: starting an interpreter for its version
    never raises [PermissionError]. *)
Definition probes_allowed : Prop :=
  forall exe, subprocess_run os [exe; "-c"; version_cmd] <> PermissionError.

Lemma new_VirtualEnv_allowed (p : string) :
  probes_allowed -> exists v, new_VirtualEnv os p = Returns v.
Proof.
  intros Hallowed.
  destruct (new_VirtualEnv os p) as [v|e] eqn:Hnew; [by exists v|].
  apply new_VirtualEnv_Raises in Hnew as (_ & exe & _ & Hrun).
  by apply Hallowed in Hrun.
Qed.

Lemma new_PythonInterpreter_allowed (p : string) :
  probes_allowed -> exists r, new_PythonInterpreter os p = Returns r.
Proof.
  intros Hallowed.
  destruct (new_PythonInterpreter os p) as [r|e] eqn:Hnew; [by exists r|].
  apply new_PythonInterpreter_Raises in Hnew as (_ & Hrun).
  by apply Hallowed in Hrun.
Qed.

End Constructed.

Section Stages.
Variable os : OS.

Definition scan_root_of (scan_path : option string) : string :=
  match scan_path with
  | Some p => if String.eqb p EmptyString then expanduser os "~"
              else expanduser os p
  | None => expanduser os "~"
  end.

(** The stages of [find_venvs]: known locations, scan, file index. *)
Lemma find_venvs_unfold scan_path use_mdfind max_depth :
  find_venvs os scan_path use_mdfind max_depth
  = let! st1 := completed (for_each (venv_known_location os)
                             manager_templates ([], ∅)) in
    let! sc := completed (scan_dir os max_depth (S max_depth)
                            (scan_root_of scan_path) 0 (st1, [])) in
    let! lines := mdfind_lines os use_mdfind mdfind_venv_argv in
    let! st3 := completed (for_each (venv_mdfind_line os) lines sc.1) in
    Returns st3.1.
Proof.
  unfold find_venvs, find_venvs_trace. fold (scan_root_of scan_path).
  destruct (completed (for_each _ manager_templates _)) as [st1|e];
    [|done]. cbn [bind].
  destruct (completed (scan_dir _ _ _ _ _ _)) as [sc|e]; [|done].
  cbn [bind].
  destruct (mdfind_lines os use_mdfind mdfind_venv_argv) as [lines|e];
    [|done]. cbn [bind].
  by destruct (completed (for_each _ lines _)).
Qed.

Lemma find_venvs_stages scan_path use_mdfind max_depth venvs :
  find_venvs os scan_path use_mdfind max_depth = Returns venvs ->
  exists st1 sc lines st3,
    for_each (venv_known_location os) manager_templates ([], ∅)
    = (st1, None)
    /\ scan_dir os max_depth (S max_depth) (scan_root_of scan_path) 0
         (st1, []) = (sc, None)
    /\ mdfind_lines os use_mdfind mdfind_venv_argv = Returns lines
    /\ for_each (venv_mdfind_line os) lines sc.1 = (st3, None)
    /\ venvs = st3.1.
Proof.
  rewrite find_venvs_unfold.
  destruct (completed (for_each _ manager_templates _)) as [st1|e] eqn:E1;
    [|done]. cbn [bind].
  destruct (completed (scan_dir _ _ _ _ _ _)) as [sc|e] eqn:E2; [|done].
  cbn [bind].
  destruct (mdfind_lines os use_mdfind mdfind_venv_argv) as [lines|e];
    [|done]. cbn [bind].
  destruct (completed (for_each _ lines _)) as [st3|e] eqn:E3; [|done].
  cbn [bind]. intros [= <-].
  apply completed_Returns in E1, E2, E3. by exists st1, sc, lines, st3.
Qed.

(** The stages of [find_python_interpreters]: known locations, [PATH],
    file index. *)
Lemma find_python_interpreters_stages use_mdfind interps :
  find_python_interpreters os use_mdfind = Returns interps ->
  exists st1 st2 lines st3,
    for_each (interp_known_location os) manager_templates ([], ∅)
    = (st1, None)
    /\ for_each (interp_path_dir os) (Str.split ":" (environ_PATH os)) st1
       = (st2, None)
    /\ mdfind_lines os use_mdfind mdfind_interp_argv = Returns lines
    /\ for_each (interp_mdfind_line os) lines st2 = (st3, None)
    /\ interps = st3.1.
Proof.
  unfold find_python_interpreters.
  destruct (completed (for_each _ manager_templates _)) as [st1|e] eqn:E1;
    [|done]. cbn [bind].
  destruct (completed (for_each _ (Str.split _ _) _)) as [st2|e] eqn:E2;
    [|done]. cbn [bind].
  destruct (mdfind_lines os use_mdfind mdfind_interp_argv) as [lines|e];
    [|done]. cbn [bind].
  destruct (completed (for_each _ lines _)) as [st3|e] eqn:E3; [|done].
  cbn [bind]. intros [= <-].
  apply completed_Returns in E1, E2, E3. by exists st1, st2, lines, st3.
Qed.

End Stages.

Section Dedup.
Variable os : OS.

Section Accumulator.
Context {R : Type} (ctor : string -> result R) (canonical : string -> Prop).

(** The records that the constructor returned for the keys, in order. *)
Definition made (keys : list string) (records : list R) : Prop :=
  Forall2 (fun k r => ctor k = Returns r) keys records.

(** The accumulator of a discovery holds one record per key of a list
    without repetition of keys of [found_paths], each returned by the
    constructor for its key, and every such key is canonical for the
    discovery at hand. A key of [found_paths] whose constructor raised
    has no record. *)
Definition well_keyed (st : Found R) : Prop :=
  exists keys, NoDup keys /\ made keys st.1
               /\ (forall k, k ∈ keys -> k ∈ st.2)
               /\ Forall canonical keys.

Lemma well_keyed_empty : well_keyed ([], ∅).
Proof.
  exists []. split; [constructor|]. split; [constructor|].
  split; [|constructor]. intros k H. by apply elem_of_nil in H.
Qed.

Lemma add_found_well_keyed (k : string) (st : Found R) :
  canonical k -> well_keyed st -> well_keyed (add_found ctor k st).1.
Proof.
  intros Hk (keys & Hnd & Hrec & Hset & Hcan). unfold add_found.
  case_bool_decide as Hin; [by exists keys|].
  destruct (ctor k) as [r|e] eqn:Hctor; simpl.
  - exists (keys ++ [k]). simpl. split; [|split; [|split]].
    + apply NoDup_app. split; [done|]. split; [|apply NoDup_singleton].
      intros x Hx ->%list_elem_of_singleton. apply Hin. by apply Hset.
    + apply Forall2_app; [done|]. by repeat constructor.
    + intros k'. rewrite elem_of_union, elem_of_singleton, elem_of_app,
        list_elem_of_singleton. intros [?%Hset | ->]; tauto.
    + apply Forall_app. split; [done|]. by apply Forall_singleton.
  - exists keys. simpl. split; [done|]. split; [done|]. split; [|done].
    intros k' Hk'%Hset. set_solver.
Qed.

End Accumulator.

(** The keys of the two discoveries: the absolute path of a directory
    that [is_venv] accepts; the absolute, symlink-resolved path of a
    file that exists and is executable. *)
Definition venv_key (k : string) : Prop :=
  exists p, is_venv os p = true /\ k = abspath os p.
Definition interp_key (k : string) : Prop :=
  exists p, path_exists os p = true /\ access_X_OK os p = true
            /\ k = abspath os (realpath os p).

Abbreviation venv_keyed := (well_keyed (new_VirtualEnv os) venv_key).
Abbreviation interp_keyed := (well_keyed (new_PythonInterpreter os) interp_key).

Lemma venv_known_location_keyed t st :
  venv_keyed st -> venv_keyed (venv_known_location os t st).1.
Proof.
  intros Hst. unfold venv_known_location.
  destruct (negb (path_exists os (expanduser os t))); [done|].
  rewrite except_PermissionError_state, for_scandir_state.
  destruct (scandir os (expanduser os t)) as [entries| |]; [|done|done].
  apply for_each_inv; [|done].
  intros e st' _ Hst'.
  destruct (entry_is_dir e) eqn:Hdir; [|done].
  destruct (is_venv os _) eqn:Hvenv; [|done]. simpl.
  apply add_found_well_keyed; [by eexists | done].
Qed.

Lemma scan_dir_keyed max_depth fuel root depth (st : Scan) :
  venv_keyed st.1 ->
  venv_keyed (scan_dir os max_depth fuel root depth st).1.1.
Proof.
  revert root depth st.
  induction fuel as [|fuel IH]; intros root depth st Hst; [done|].
  rewrite scan_dir_unfold.
  destruct (max_depth <? depth); [done|].
  rewrite except_PermissionError_state, for_scandir_state.
  destruct (scandir os root) as [entries| |]; [|done|done].
  apply (for_each_inv (fun st : Scan => venv_keyed st.1)); [|done].
  intros e st' _ Hst'. unfold scan_entry.
  repeat (match goal with |- context [if ?c then _ else _] =>
            destruct c; [done|] end).
  destruct (is_venv os (entry_path root e)) eqn:Hvenv.
  - simpl. apply add_found_well_keyed; [by eexists | done].
  - by apply IH.
Qed.

Lemma venv_mdfind_line_keyed line st :
  venv_keyed st -> venv_keyed (venv_mdfind_line os line st).1.
Proof.
  intros Hst. unfold venv_mdfind_line.
  destruct (negb (String.eqb line EmptyString)); [|done].
  destruct (is_venv os (dirname line)) eqn:Hvenv; [|done].
  apply add_found_well_keyed; [by eexists | done].
Qed.

Lemma interp_in_bin_keyed bin_dir st :
  interp_keyed st -> interp_keyed (interp_in_bin os bin_dir st).1.
Proof.
  intros Hst. unfold interp_in_bin.
  apply for_each_inv; [|done].
  intros n st' _ Hst'. cbv zeta.
  destruct (path_exists os _) eqn:He; [|done].
  destruct (access_X_OK os _) eqn:Hx; [|done]. simpl.
  apply add_found_well_keyed; [by eexists | done].
Qed.

Lemma interp_known_location_keyed t st :
  interp_keyed st -> interp_keyed (interp_known_location os t st).1.
Proof.
  intros Hst. unfold interp_known_location.
  destruct (negb (path_exists os (expanduser os t))); [done|].
  rewrite except_PermissionError_state, for_scandir_state.
  destruct (scandir os (expanduser os t)) as [entries| |]; [|done|done].
  apply for_each_inv; [|done].
  intros e st' _ Hst'. destruct (entry_is_dir e); [|done].
  cbv zeta. destruct (isdir os _); [|done]. by apply interp_in_bin_keyed.
Qed.

Lemma interp_path_dir_keyed d st :
  interp_keyed st -> interp_keyed (interp_path_dir os d st).1.
Proof.
  intros Hst. unfold interp_path_dir.
  destruct (negb (String.eqb d EmptyString) && isdir os d); [|done].
  by apply interp_in_bin_keyed.
Qed.

Lemma interp_mdfind_line_keyed line st :
  interp_keyed st -> interp_keyed (interp_mdfind_line os line st).1.
Proof.
  intros Hst. unfold interp_mdfind_line.
  destruct (negb (String.eqb line EmptyString)); [|done].
  destruct (path_exists os line) eqn:He; [|done].
  destruct (access_X_OK os line) eqn:Hx; [|done]. simpl.
  apply add_found_well_keyed; [by eexists | done].
Qed.

(** Whatever was denied on the way, the records that [find_venvs]
    returns were returned by the constructor for pairwise distinct keys
    of environments. *)
Lemma find_venvs_keyed scan_path use_mdfind max_depth venvs :
  find_venvs os scan_path use_mdfind max_depth = Returns venvs ->
  exists keys, NoDup keys /\ made (new_VirtualEnv os) keys venvs
               /\ Forall venv_key keys.
Proof.
  intros (st1 & sc & lines & st3 & E1 & E2 & _ & E3 & ->)%find_venvs_stages.
  assert (H1 : venv_keyed st1).
  { change st1 with (st1, @None exn).1. rewrite <- E1.
    apply for_each_inv; [|apply well_keyed_empty].
    intros. by apply venv_known_location_keyed. }
  assert (H2 : venv_keyed sc.1).
  { change sc with (sc, @None exn).1. rewrite <- E2.
    by apply scan_dir_keyed. }
  assert (H3 : venv_keyed st3).
  { change st3 with (st3, @None exn).1. rewrite <- E3.
    apply for_each_inv; [|done]. intros. by apply venv_mdfind_line_keyed. }
  destruct H3 as (keys & Hnd & Hrec & _ & Hcan). by exists keys.
Qed.

Lemma find_python_interpreters_keyed use_mdfind interps :
  find_python_interpreters os use_mdfind = Returns interps ->
  exists keys, NoDup keys /\ made (new_PythonInterpreter os) keys interps
               /\ Forall interp_key keys.
Proof.
  intros (st1 & st2 & lines & st3 & E1 & E2 & _ & E3 & ->)
    %find_python_interpreters_stages.
  assert (H1 : interp_keyed st1).
  { change st1 with (st1, @None exn).1. rewrite <- E1.
    apply for_each_inv; [|apply well_keyed_empty].
    intros. by apply interp_known_location_keyed. }
  assert (H2 : interp_keyed st2).
  { change st2 with (st2, @None exn).1. rewrite <- E2.
    apply for_each_inv; [|done]. intros. by apply interp_path_dir_keyed. }
  assert (H3 : interp_keyed st3).
  { change st3 with (st3, @None exn).1. rewrite <- E3.
    apply for_each_inv; [|done]. intros. by apply interp_mdfind_line_keyed. }
  destruct H3 as (keys & Hnd & Hrec & _ & Hcan). by exists keys.
Qed.

(** The paths of records made for keys that [abspath] leaves alone are
    the keys. *)
Lemma made_paths {R} (ctor : string -> result R) (field : R -> string)
    (keys : list string) (records : list R) :
  (forall k r, ctor k = Returns r -> field r = abspath os k) ->
  Forall (fun k => abspath os k = k) keys ->
  made ctor keys records -> List.map field records = keys.
Proof.
  intros Hfield Hkeys Hmade.
  induction Hmade as [|k r keys records Hkr _ IH]; [done|].
  apply Forall_cons in Hkeys as [Hk Hkeys]. simpl.
  by rewrite IH, (Hfield k r), Hk.
Qed.

(** What the code guarantees, [abspath] being idempotent: the
    interpreters found have pairwise distinct paths, each the absolute
    path of a symlink-resolved path; the environments found have pairwise
    distinct paths, each an absolute path (not resolved). *)
Lemma discovery_paths_unique :
  (forall p, abspath os (abspath os p) = abspath os p) ->
  (forall use_mdfind interps,
      find_python_interpreters os use_mdfind = Returns interps ->
      NoDup (List.map interp_path interps)
      /\ Forall (fun r => interp_key (interp_path r)) interps)
  /\ (forall scan_path use_mdfind max_depth venvs,
         find_venvs os scan_path use_mdfind max_depth = Returns venvs ->
         NoDup (List.map path venvs)
         /\ Forall (fun r => venv_key (path r)) venvs).
Proof.
  intros Hidem. split.
  - intros use_mdfind interps
      (keys & Hnd & Hmade & Hcan)%find_python_interpreters_keyed.
    assert (Hpaths : List.map interp_path interps = keys).
    { eapply made_paths; [| |exact Hmade].
      - apply new_PythonInterpreter_Returns.
      - eapply Forall_impl; [exact Hcan|].
        intros k (p & _ & _ & ->). apply Hidem. }
    split; [by rewrite Hpaths|].
    rewrite <- Hpaths in Hcan. rewrite Forall_forall in Hcan.
    apply Forall_forall. intros r Hr. apply Hcan.
    by apply list_elem_of_In, List.in_map, list_elem_of_In.
  - intros scan_path use_mdfind max_depth venvs
      (keys & Hnd & Hmade & Hcan)%find_venvs_keyed.
    assert (Hpaths : List.map path venvs = keys).
    { eapply made_paths; [| |exact Hmade].
      - intros k r Hr. by apply new_VirtualEnv_Returns in Hr as [? _].
      - eapply Forall_impl; [exact Hcan|].
        intros k (p & _ & ->). apply Hidem. }
    split; [by rewrite Hpaths|].
    rewrite <- Hpaths in Hcan. rewrite Forall_forall in Hcan.
    apply Forall_forall. intros r Hr. apply Hcan.
    by apply list_elem_of_In, List.in_map, list_elem_of_In.
Qed.

End Dedup.

(* ====================================================================== *)
(** * Properties: what each discovery source contributes *)
(* ====================================================================== *)

Section Sources.
Variable os : OS.

(** The keys of a list, each at its first occurrence. *)
Definition first_occurrences (ks : list string) : list string :=
  rev (remove_dups (rev ks)).

Lemma first_occurrences_snoc (ks : list string) (k : string) :
  first_occurrences (ks ++ [k])
  = if bool_decide (k ∈ ks) then first_occurrences ks
    else first_occurrences ks ++ [k].
Proof.
  unfold first_occurrences. rewrite rev_app_distr. simpl.
  destruct (decide_rel elem_of k (rev ks)) as [Hin | Hnot].
  - rewrite bool_decide_eq_true_2; [done|].
    by apply list_elem_of_In, List.in_rev, list_elem_of_In.
  - rewrite bool_decide_eq_false_2; [done|].
    intros Hin. apply Hnot.
    by apply list_elem_of_In, List.in_rev; rewrite List.rev_involutive;
      apply list_elem_of_In.
Qed.

Lemma first_occurrences_elem (ks : list string) (k : string) :
  k ∈ first_occurrences ks <-> k ∈ ks.
Proof.
  unfold first_occurrences.
  rewrite list_elem_of_In, <- List.in_rev, <- list_elem_of_In,
    elem_of_remove_dups, !list_elem_of_In, <- List.in_rev. done.
Qed.

Lemma first_occurrences_NoDup (ks : list string) :
  NoDup (first_occurrences ks).
Proof.
  unfold first_occurrences. apply NoDup_ListNoDup, List.NoDup_rev,
    NoDup_ListNoDup, NoDup_remove_dups.
Qed.

(** ** The sources where nothing is denied

    The keys that each source yields when its listings answer and every
    constructor returns, and the discoveries in terms of them. *)

Definition venv_entry_keys (p : string) (e : DirEntry) : list string :=
  if entry_is_dir e && is_venv os (entry_path p e)
  then [abspath os (entry_path p e)] else [].

(** Known locations: the qualifying entries of one template. *)
Definition venv_known_keys (path_template : string) : list string :=
  let p := expanduser os path_template in
  if negb (path_exists os p) then []
  else match scandir os p with
       | Entries entries => List.flat_map (venv_entry_keys p) entries
       | _ => []
       end.

(** The recursive scan: the environments below [root], to the depth
    bound. *)
Fixpoint scan_keys (max_depth fuel : nat) (root : string) (depth : nat)
  : list string :=
  match fuel with
  | 0 => []
  | S fuel' =>
      if max_depth <? depth then []
      else match scandir os root with
           | Entries entries =>
               List.flat_map (fun entry =>
                 if negb (entry_is_dir entry) then []
                 else if Str.startswith (entry_name entry) "."
                         && negb (Str.mem (entry_name entry)
                                    PROJECT_VENV_NAMES) then []
                 else if Str.mem (entry_name entry) scan_excluded then []
                 else if is_venv os (entry_path root entry)
                 then [abspath os (entry_path root entry)]
                 else scan_keys max_depth fuel' (entry_path root entry)
                        (S depth)) entries
           | _ => []
           end
  end.

(** The file index: the directories of the lines that are environments. *)
Definition venv_mdfind_keys (line : string) : list string :=
  if negb (String.eqb line EmptyString) && is_venv os (dirname line)
  then [abspath os (dirname line)] else [].

(** The keys of the three sources of [find_venvs], in order. *)
Definition venv_source_keys (scan_path : option string) (max_depth : nat)
    (lines : list string) : list string :=
  List.flat_map venv_known_keys manager_templates
  ++ scan_keys max_depth (S max_depth) (scan_root_of os scan_path) 0
  ++ List.flat_map venv_mdfind_keys lines.

Definition interp_bin_keys (bin_dir : string) : list string :=
  List.flat_map (fun py_name =>
    let py_path := path_join bin_dir py_name in
    if path_exists os py_path && access_X_OK os py_path
    then [abspath os (realpath os py_path)] else []) py_names.

Definition interp_known_keys (path_template : string) : list string :=
  let p := expanduser os path_template in
  if negb (path_exists os p) then []
  else match scandir os p with
       | Entries entries =>
           List.flat_map (fun entry =>
             if entry_is_dir entry then
               let bin_dir := path_join (entry_path p entry) "bin" in
               if isdir os bin_dir then interp_bin_keys bin_dir else []
             else []) entries
       | _ => []
       end.

Definition interp_path_keys (path_dir : string) : list string :=
  if negb (String.eqb path_dir EmptyString) && isdir os path_dir
  then interp_bin_keys path_dir else [].

Definition interp_mdfind_keys (line : string) : list string :=
  if negb (String.eqb line EmptyString)
     && path_exists os line && access_X_OK os line
  then [abspath os (realpath os line)] else [].

(** The keys of the three sources of [find_python_interpreters]. *)
Definition interp_source_keys (lines : list string) : list string :=
  List.flat_map interp_known_keys manager_templates
  ++ List.flat_map interp_path_keys (Str.split ":" (environ_PATH os))
  ++ List.flat_map interp_mdfind_keys lines.

Section Undisturbed.
Context {R : Type} (ctor : string -> result R).

(** [Inv ks st]: what is known of the accumulator [st] once the keys
    [ks] were offered to it, for a property that every offer of a key
    maintains, the constructor returning. *)
Variable Inv : list string -> Found R -> Prop.
Hypothesis Inv_add : forall ks st k,
  Inv ks st ->
  (add_found ctor k st).2 = None /\ Inv (ks ++ [k]) (add_found ctor k st).1.

Section Statements.
Context {S : Type} (proj : S -> Found R).

(** The statement [F] offers the keys [ks'], unless a listing fails. *)
Definition offers (F : S -> Step S) (ks' : list string) : Prop :=
  forall ks st, Inv ks (proj st) ->
    ((F st).2 = None /\ Inv (ks ++ ks') (proj (F st).1))
    \/ (F st).2 = Some NoSuchDirectory.

Lemma offers_nothing : offers (fun st => (st, None)) [].
Proof. intros ks st Hst. left. by rewrite app_nil_r. Qed.

Lemma offers_for_each {A} (body : A -> S -> Step S)
    (f : A -> list string) (l : list A) :
  (forall x, x ∈ l -> offers (body x) (f x)) ->
  offers (for_each body l) (List.flat_map f l).
Proof.
  induction l as [|x l IH]; intros Hbody ks st Hst.
  - left. by rewrite app_nil_r.
  - rewrite for_each_cons.
    pose proof (Hbody x (list_elem_of_here _ _) ks st Hst) as Hx.
    destruct (body x st) as [st' [e|]]; simpl in Hx.
    + destruct Hx as [[? _] | Hx]; [done | by right].
    + destruct Hx as [[_ Hst'] | ?]; [|done].
      simpl. rewrite app_assoc. apply IH; [|done].
      intros x' Hx'. apply Hbody. by apply list_elem_of_further.
Qed.

Lemma offers_scandir (p : string) (body : DirEntry -> S -> Step S)
    (f : DirEntry -> list string) :
  (forall e, offers (body e) (f e)) ->
  offers (fun st => except_PermissionError (for_scandir os p body st))
    (match scandir os p with
     | Entries entries => List.flat_map f entries
     | _ => []
     end).
Proof.
  intros Hbody ks st Hst. unfold for_scandir.
  destruct (scandir os p) as [entries| |]; simpl.
  - destruct (offers_for_each body f entries (fun e _ => Hbody e) ks st Hst)
      as [[Hnone Hinv] | Hfails].
    + left. destruct (for_each body entries st) as [st' o].
      simpl in Hnone. subst o. done.
    + right. destruct (for_each body entries st) as [st' o].
      simpl in Hfails. by subst o.
  - left. by rewrite app_nil_r.
  - by right.
Qed.

End Statements.

Lemma offers_add_found (k : string) :
  offers (fun st => st) (add_found ctor k) [k].
Proof. intros ks st Hst. left. by apply Inv_add. Qed.

End Undisturbed.

Section Environments.
Variable Inv : list string -> Found VirtualEnv -> Prop.
Hypothesis Inv_add : forall ks st k,
  Inv ks st ->
  (add_found (new_VirtualEnv os) k st).2 = None
  /\ Inv (ks ++ [k]) (add_found (new_VirtualEnv os) k st).1.

Lemma venv_known_location_offers t :
  offers Inv (fun st => st) (venv_known_location os t) (venv_known_keys t).
Proof.
  unfold venv_known_location, venv_known_keys.
  destruct (negb (path_exists os (expanduser os t)));
    [apply offers_nothing|].
  apply (offers_scandir Inv (fun st => st)). intros e.
  unfold venv_entry_keys.
  destruct (entry_is_dir e && is_venv os _); [|apply offers_nothing].
  by apply offers_add_found.
Qed.

Lemma scan_dir_offers max_depth fuel root depth :
  offers Inv fst (scan_dir os max_depth fuel root depth)
    (scan_keys max_depth fuel root depth).
Proof.
  revert root depth.
  induction fuel as [|fuel IH]; intros root depth; [apply offers_nothing|].
  cbn [scan_keys].
  assert (Hunfold : forall st,
    scan_dir os max_depth (S fuel) root depth st
    = if max_depth <? depth then (st, None)
      else except_PermissionError
             (for_scandir os root (scan_entry os max_depth fuel root depth)
                st)) by done.
  intros ks st Hst. rewrite Hunfold.
  destruct (max_depth <? depth); [by apply offers_nothing|].
  revert ks st Hst. apply (offers_scandir Inv fst). intros e.
  unfold scan_entry.
  repeat (match goal with |- context [if ?c then _ else _] =>
            destruct c; [apply offers_nothing|] end).
  destruct (is_venv os (entry_path root e)).
  - intros ks st Hst. left. simpl. by apply Inv_add.
  - intros ks st Hst. by apply IH.
Qed.

Lemma venv_mdfind_line_offers line :
  offers Inv (fun st => st) (venv_mdfind_line os line)
    (venv_mdfind_keys line).
Proof.
  unfold venv_mdfind_line, venv_mdfind_keys.
  destruct (negb (String.eqb line EmptyString)); [|apply offers_nothing].
  simpl. destruct (is_venv os (dirname line)); [|apply offers_nothing].
  by apply offers_add_found.
Qed.


(** [find_venvs], when it returns, has offered the keys of its three
    sources in order. *)
Lemma find_venvs_offers scan_path use_mdfind max_depth venvs :
  Inv [] ([], ∅) ->
  find_venvs os scan_path use_mdfind max_depth = Returns venvs ->
  exists lines st,
    mdfind_lines os use_mdfind mdfind_venv_argv = Returns lines
    /\ Inv (venv_source_keys scan_path max_depth lines) st
    /\ venvs = st.1.
Proof.
  intros H0 (st1 & sc & lines & st3 & E1 & E2 & Hlines & E3 & ->)
    %find_venvs_stages.
  exists lines, st3. split; [done|]. split; [|done].
  destruct (offers_for_each Inv (fun st => st) (venv_known_location os)
              venv_known_keys manager_templates
              (fun t _ => venv_known_location_offers t) [] _ H0)
    as [[_ H1] | Hfails]; [|by rewrite E1 in Hfails].
  rewrite E1 in H1. simpl in H1.
  destruct (scan_dir_offers max_depth (S max_depth)
              (scan_root_of os scan_path) 0 _ (st1, []) H1)
    as [[_ H2] | Hfails]; [|by rewrite E2 in Hfails].
  rewrite E2 in H2. simpl in H2.
  destruct (offers_for_each Inv (fun st => st) (venv_mdfind_line os)
              venv_mdfind_keys lines
              (fun l _ => venv_mdfind_line_offers l) _ _ H2)
    as [[_ H3] | Hfails]; [|by rewrite E3 in Hfails].
  rewrite E3 in H3. simpl in H3.
  unfold venv_source_keys. by rewrite app_assoc.
Qed.

End Environments.

Section Interpreters.
Variable Inv : list string -> Found PythonInterpreter -> Prop.
Hypothesis Inv_add : forall ks st k,
  Inv ks st ->
  (add_found (new_PythonInterpreter os) k st).2 = None
  /\ Inv (ks ++ [k]) (add_found (new_PythonInterpreter os) k st).1.

Lemma interp_in_bin_offers bin_dir :
  offers Inv (fun st => st) (interp_in_bin os bin_dir)
    (interp_bin_keys bin_dir).
Proof.
  unfold interp_in_bin, interp_bin_keys.
  apply (offers_for_each Inv (fun st => st)). intros n _. cbv zeta.
  destruct (path_exists os _ && access_X_OK os _); [|apply offers_nothing].
  by apply offers_add_found.
Qed.

Lemma interp_known_location_offers t :
  offers Inv (fun st => st) (interp_known_location os t)
    (interp_known_keys t).
Proof.
  unfold interp_known_location, interp_known_keys.
  destruct (negb (path_exists os (expanduser os t)));
    [apply offers_nothing|].
  apply (offers_scandir Inv (fun st => st)). intros e. cbv zeta.
  destruct (entry_is_dir e); [|apply offers_nothing].
  destruct (isdir os _); [|apply offers_nothing].
  apply interp_in_bin_offers.
Qed.

Lemma interp_path_dir_offers d :
  offers Inv (fun st => st) (interp_path_dir os d) (interp_path_keys d).
Proof.
  unfold interp_path_dir, interp_path_keys.
  destruct (negb (String.eqb d EmptyString) && isdir os d);
    [|apply offers_nothing].
  apply interp_in_bin_offers.
Qed.

Lemma interp_mdfind_line_offers line :
  offers Inv (fun st => st) (interp_mdfind_line os line)
    (interp_mdfind_keys line).
Proof.
  unfold interp_mdfind_line, interp_mdfind_keys.
  destruct (negb (String.eqb line EmptyString) && path_exists os line
            && access_X_OK os line); [|apply offers_nothing].
  by apply offers_add_found.
Qed.

Lemma find_python_interpreters_offers use_mdfind interps :
  Inv [] ([], ∅) ->
  find_python_interpreters os use_mdfind = Returns interps ->
  exists lines st,
    mdfind_lines os use_mdfind mdfind_interp_argv = Returns lines
    /\ Inv (interp_source_keys lines) st
    /\ interps = st.1.
Proof.
  intros H0 (st1 & st2 & lines & st3 & E1 & E2 & Hlines & E3 & ->)
    %find_python_interpreters_stages.
  exists lines, st3. split; [done|]. split; [|done].
  destruct (offers_for_each Inv (fun st => st) (interp_known_location os)
              interp_known_keys manager_templates
              (fun t _ => interp_known_location_offers t) [] _ H0)
    as [[_ H1] | Hfails]; [|by rewrite E1 in Hfails].
  rewrite E1 in H1. simpl in H1.
  destruct (offers_for_each Inv (fun st => st) (interp_path_dir os)
              interp_path_keys (Str.split ":" (environ_PATH os))
              (fun d _ => interp_path_dir_offers d) _ _ H1)
    as [[_ H2] | Hfails]; [|by rewrite E2 in Hfails].
  rewrite E2 in H2. simpl in H2.
  destruct (offers_for_each Inv (fun st => st) (interp_mdfind_line os)
              interp_mdfind_keys lines
              (fun l _ => interp_mdfind_line_offers l) _ _ H2)
    as [[_ H3] | Hfails]; [|by rewrite E3 in Hfails].
  rewrite E3 in H3. simpl in H3.
  unfold interp_source_keys. by rewrite app_assoc.
Qed.

End Interpreters.

(** ** Two properties that every offer maintains *)

Section Offered.
Context {R : Type} (ctor : string -> result R).
Hypothesis ctor_returns : forall k, exists r, ctor k = Returns r.

(** The records are those of the keys offered, each at its first
    occurrence, and the set holds the keys offered. *)
Definition offered (ks : list string) (st : Found R) : Prop :=
  made ctor (first_occurrences ks) st.1 /\ (forall k, k ∈ st.2 <-> k ∈ ks).

Lemma offered_empty : offered [] ([], ∅).
Proof.
  split; [constructor|]. intros k. split; intros H.
  - by apply elem_of_empty in H.
  - by apply elem_of_nil in H.
Qed.

Lemma offered_add ks st k :
  offered ks st ->
  (add_found ctor k st).2 = None /\ offered (ks ++ [k]) (add_found ctor k st).1.
Proof.
  intros [Hrec Hset]. unfold add_found, offered.
  rewrite first_occurrences_snoc.
  destruct (decide (k ∈ ks)) as [Hin | Hnot].
  - rewrite !bool_decide_eq_true_2 by (done || by apply Hset).
    split; [done|]. split; [done|]. intros k'. rewrite Hset. set_solver.
  - rewrite !bool_decide_eq_false_2 by (done || by rewrite Hset).
    destruct (ctor_returns k) as [r Hr]. rewrite Hr. simpl.
    split; [done|]. split.
    + apply Forall2_app; [done|]. by repeat constructor.
    + intros k'. rewrite elem_of_union, elem_of_singleton, elem_of_app,
        list_elem_of_singleton, Hset. tauto.
Qed.




End Offered.

(** ** The sources where a probe or a listing is denied

    A denied probe leaves its key without a record and ends the listing
    at hand; the records made are still, in order, a selection of the
    keys that the sources yield. *)

Section Selection.
Context {R : Type} (ctor : string -> result R).

Definition selection (ks : list string) (st : Found R) : Prop :=
  exists keys, made ctor keys st.1 /\ sublist keys ks.

Lemma selection_empty : selection [] ([], ∅).
Proof. exists []. split; constructor. Qed.

Lemma selection_more ks ks' st :
  selection ks st -> selection (ks ++ ks') st.
Proof.
  intros (keys & Hmade & Hsub). exists keys. split; [done|].
  by apply sublist_inserts_r.
Qed.

Section Statements.
Context {S : Type} (proj : S -> Found R).

(** The records that the statement [F] adds are a selection of the keys
    [ks'], however it ends. *)
Definition selects (F : S -> Step S) (ks' : list string) : Prop :=
  forall ks st, selection ks (proj st) ->
                selection (ks ++ ks') (proj (F st).1).

Lemma selects_nothing : selects (fun st => (st, None)) [].
Proof. intros ks st Hst. by rewrite app_nil_r. Qed.

Lemma selects_for_each {A} (body : A -> S -> Step S)
    (f : A -> list string) (l : list A) :
  (forall x, selects (body x) (f x)) ->
  selects (for_each body l) (List.flat_map f l).
Proof.
  intros Hbody. induction l as [|x l IH]; intros ks st Hst.
  - by rewrite app_nil_r.
  - rewrite for_each_cons. pose proof (Hbody x ks st Hst) as Hx.
    simpl. rewrite app_assoc.
    destruct (body x st) as [st' [e|]]; simpl in Hx.
    + by apply selection_more.
    + by apply IH.
Qed.

Lemma selects_scandir (p : string) (body : DirEntry -> S -> Step S)
    (f : DirEntry -> list string) :
  (forall e, selects (body e) (f e)) ->
  selects (fun st => except_PermissionError (for_scandir os p body st))
    (match scandir os p with
     | Entries entries => List.flat_map f entries
     | _ => []
     end).
Proof.
  intros Hbody ks st Hst.
  rewrite except_PermissionError_state, for_scandir_state.
  destruct (scandir os p) as [entries| |];
    [by apply selects_for_each | by rewrite app_nil_r
    | by rewrite app_nil_r].
Qed.

End Statements.

Lemma selection_add ks st k :
  selection ks st -> selection (ks ++ [k]) (add_found ctor k st).1.
Proof.
  intros (keys & Hmade & Hsub). unfold add_found.
  case_bool_decide; [by apply selection_more; exists keys|].
  destruct (ctor k) as [r|e] eqn:Hctor; simpl.
  - exists (keys ++ [k]). split.
    + apply Forall2_app; [done|]. by repeat constructor.
    + by apply sublist_app.
  - by apply selection_more; exists keys.
Qed.

End Selection.

Lemma venv_known_location_selects t :
  selects (new_VirtualEnv os) (fun st => st) (venv_known_location os t)
    (venv_known_keys t).
Proof.
  unfold venv_known_location, venv_known_keys.
  destruct (negb (path_exists os (expanduser os t)));
    [apply selects_nothing|].
  apply (selects_scandir _ (fun st => st)). intros e.
  unfold venv_entry_keys.
  destruct (entry_is_dir e && is_venv os _); [|apply selects_nothing].
  intros ks st Hst. by apply selection_add.
Qed.

Lemma scan_dir_selects max_depth fuel root depth :
  selects (new_VirtualEnv os) fst (scan_dir os max_depth fuel root depth)
    (scan_keys max_depth fuel root depth).
Proof.
  revert root depth.
  induction fuel as [|fuel IH]; intros root depth; [apply selects_nothing|].
  cbn [scan_keys]. intros ks st Hst. rewrite scan_dir_unfold.
  destruct (max_depth <? depth); [by apply selects_nothing|].
  revert ks st Hst. apply (selects_scandir _ fst). intros e.
  unfold scan_entry.
  repeat (match goal with |- context [if ?c then _ else _] =>
            destruct c; [apply selects_nothing|] end).
  destruct (is_venv os (entry_path root e)).
  - intros ks st Hst. simpl. by apply selection_add.
  - intros ks st Hst. by apply IH.
Qed.

Lemma venv_mdfind_line_selects line :
  selects (new_VirtualEnv os) (fun st => st) (venv_mdfind_line os line)
    (venv_mdfind_keys line).
Proof.
  unfold venv_mdfind_line, venv_mdfind_keys.
  destruct (negb (String.eqb line EmptyString)); [|apply selects_nothing].
  simpl. destruct (is_venv os (dirname line)); [|apply selects_nothing].
  intros ks st Hst. by apply selection_add.
Qed.

(** Whatever is denied, the records that [find_venvs] returns are made
    for a selection, in order, of the keys of its three sources. *)
Lemma find_venvs_selects scan_path use_mdfind max_depth venvs :
  find_venvs os scan_path use_mdfind max_depth = Returns venvs ->
  exists lines,
    mdfind_lines os use_mdfind mdfind_venv_argv = Returns lines
    /\ selection (new_VirtualEnv os)
         (venv_source_keys scan_path max_depth lines) (venvs, ∅).
Proof.
  intros (st1 & sc & lines & st3 & E1 & E2 & Hlines & E3 & ->)
    %find_venvs_stages.
  exists lines. split; [done|].
  pose proof (selects_for_each _ (fun st => st) (venv_known_location os)
                venv_known_keys manager_templates
                venv_known_location_selects [] _
                (selection_empty _)) as H1.
  rewrite E1 in H1. simpl in H1.
  pose proof (scan_dir_selects max_depth (S max_depth)
                (scan_root_of os scan_path) 0 _ (st1, []) H1) as H2.
  rewrite E2 in H2. simpl in H2.
  pose proof (selects_for_each _ (fun st => st) (venv_mdfind_line os)
                venv_mdfind_keys lines venv_mdfind_line_selects _ _ H2)
    as H3.
  rewrite E3 in H3. simpl in H3.
  unfold venv_source_keys. rewrite app_assoc. exact H3.
Qed.

Lemma interp_in_bin_selects bin_dir :
  selects (new_PythonInterpreter os) (fun st => st)
    (interp_in_bin os bin_dir) (interp_bin_keys bin_dir).
Proof.
  unfold interp_in_bin, interp_bin_keys.
  apply (selects_for_each _ (fun st => st)). intros n. cbv zeta.
  destruct (path_exists os _ && access_X_OK os _); [|apply selects_nothing].
  intros ks st Hst. by apply selection_add.
Qed.

Lemma interp_known_location_selects t :
  selects (new_PythonInterpreter os) (fun st => st)
    (interp_known_location os t) (interp_known_keys t).
Proof.
  unfold interp_known_location, interp_known_keys.
  destruct (negb (path_exists os (expanduser os t)));
    [apply selects_nothing|].
  apply (selects_scandir _ (fun st => st)). intros e. cbv zeta.
  destruct (entry_is_dir e); [|apply selects_nothing].
  destruct (isdir os _); [|apply selects_nothing].
  apply interp_in_bin_selects.
Qed.

Lemma interp_path_dir_selects d :
  selects (new_PythonInterpreter os) (fun st => st) (interp_path_dir os d)
    (interp_path_keys d).
Proof.
  unfold interp_path_dir, interp_path_keys.
  destruct (negb (String.eqb d EmptyString) && isdir os d);
    [|apply selects_nothing].
  apply interp_in_bin_selects.
Qed.

Lemma interp_mdfind_line_selects line :
  selects (new_PythonInterpreter os) (fun st => st)
    (interp_mdfind_line os line) (interp_mdfind_keys line).
Proof.
  unfold interp_mdfind_line, interp_mdfind_keys.
  destruct (negb (String.eqb line EmptyString) && path_exists os line
            && access_X_OK os line); [|apply selects_nothing].
  intros ks st Hst. by apply selection_add.
Qed.

Lemma find_python_interpreters_selects use_mdfind interps :
  find_python_interpreters os use_mdfind = Returns interps ->
  exists lines,
    mdfind_lines os use_mdfind mdfind_interp_argv = Returns lines
    /\ selection (new_PythonInterpreter os) (interp_source_keys lines)
         (interps, ∅).
Proof.
  intros (st1 & st2 & lines & st3 & E1 & E2 & Hlines & E3 & ->)
    %find_python_interpreters_stages.
  exists lines. split; [done|].
  pose proof (selects_for_each _ (fun st => st) (interp_known_location os)
                interp_known_keys manager_templates
                interp_known_location_selects [] _
                (selection_empty _)) as H1.
  rewrite E1 in H1. simpl in H1.
  pose proof (selects_for_each _ (fun st => st) (interp_path_dir os)
                interp_path_keys (Str.split ":" (environ_PATH os))
                interp_path_dir_selects _ _ H1) as H2.
  rewrite E2 in H2. simpl in H2.
  pose proof (selects_for_each _ (fun st => st) (interp_mdfind_line os)
                interp_mdfind_keys lines interp_mdfind_line_selects _ _ H2)
    as H3.
  rewrite E3 in H3. simpl in H3.
  unfold interp_source_keys. rewrite app_assoc. exact H3.
Qed.

End Sources.

Section OneRecordPerKey.
Variable os : OS.

Lemma venv_source_keys_absolute scan_path max_depth lines k :
  k ∈ venv_source_keys os scan_path max_depth lines ->
  exists p, k = abspath os p.
Proof.
  assert (Hscan : forall fuel root depth,
             k ∈ scan_keys os max_depth fuel root depth ->
             exists p, k = abspath os p).
  { induction fuel as [|fuel IH]; intros root depth; simpl.
    - intros H. by apply elem_of_nil in H.
    - destruct (max_depth <? depth); [intros H; by apply elem_of_nil in H|].
      destruct (scandir os root) as [entries| |];
        try (intros H; by apply elem_of_nil in H).
      intros (e & _ & He)%list_elem_of_In%List.in_flat_map. revert He.
      repeat (match goal with |- context [if ?c then _ else _] =>
                destruct c; [done|] end).
      destruct (is_venv os (entry_path root e)).
      + intros [<- | []]. by eexists.
      + intros He%list_elem_of_In. by eapply IH. }
  unfold venv_source_keys. rewrite !elem_of_app.
  intros [Hk | [Hk | Hk]].
  - apply list_elem_of_In, List.in_flat_map in Hk as (t & _ & Hk).
    unfold venv_known_keys in Hk.
    destruct (negb (path_exists os (expanduser os t))); [done|].
    destruct (scandir os (expanduser os t)) as [entries| |]; try done.
    apply List.in_flat_map in Hk as (e & _ & Hk).
    unfold venv_entry_keys in Hk.
    destruct (entry_is_dir e && is_venv os _); [|done].
    destruct Hk as [<- | []]. by eexists.
  - by eapply Hscan.
  - apply list_elem_of_In, List.in_flat_map in Hk as (line & _ & Hk).
    unfold venv_mdfind_keys in Hk.
    destruct (negb (String.eqb line EmptyString) && is_venv os _); [|done].
    destruct Hk as [<- | []]. by eexists.
Qed.

Lemma interp_source_keys_resolved lines k :
  k ∈ interp_source_keys os lines ->
  exists p, k = abspath os (realpath os p).
Proof.
  assert (Hbin : forall bin_dir, In k (interp_bin_keys os bin_dir) ->
                                 exists p, k = abspath os (realpath os p)).
  { intros bin_dir (n & _ & Hk)%List.in_flat_map. cbv zeta in Hk.
    destruct (path_exists os _ && access_X_OK os _); [|done].
    destruct Hk as [<- | []]. by eexists. }
  unfold interp_source_keys. rewrite !elem_of_app.
  intros [Hk | [Hk | Hk]];
    apply list_elem_of_In, List.in_flat_map in Hk as (x & _ & Hk).
  - unfold interp_known_keys in Hk.
    destruct (negb (path_exists os (expanduser os x))); [done|].
    destruct (scandir os (expanduser os x)) as [entries| |]; try done.
    apply List.in_flat_map in Hk as (e & _ & Hk). cbv zeta in Hk.
    destruct (entry_is_dir e); [|done].
    destruct (isdir os _); [|done]. by eapply Hbin.
  - unfold interp_path_keys in Hk.
    destruct (negb (String.eqb x EmptyString) && isdir os x); [|done].
    by eapply Hbin.
  - unfold interp_mdfind_keys in Hk.
    destruct (negb (String.eqb x EmptyString) && path_exists os x
              && access_X_OK os x); [|done].
    destruct Hk as [<- | []]. by eexists.
Qed.

(** Where no version probe is denied, the records that [find_venvs]
    returns are those of the keys of its sources, each at its first
    occurrence. *)
Lemma find_venvs_first_occurrences scan_path use_mdfind max_depth venvs :
  (forall p, abspath os (abspath os p) = abspath os p) ->
  probes_allowed os ->
  find_venvs os scan_path use_mdfind max_depth = Returns venvs ->
  exists lines,
    mdfind_lines os use_mdfind mdfind_venv_argv = Returns lines
    /\ made (new_VirtualEnv os)
         (first_occurrences (venv_source_keys os scan_path max_depth lines))
         venvs
    /\ List.map path venvs
       = first_occurrences (venv_source_keys os scan_path max_depth lines).
Proof.
  intros Hidem Hallowed Hfind.
  destruct (find_venvs_offers os (offered (new_VirtualEnv os))
              (offered_add _ (fun k => new_VirtualEnv_allowed os k Hallowed))
              _ _ _ _ (offered_empty _) Hfind)
    as (lines & st & Hlines & [Hmade _] & ->).
  exists lines. split; [done|]. split; [done|].
  eapply made_paths; [| |exact Hmade].
  - intros k r Hr. by apply new_VirtualEnv_Returns in Hr as [? _].
  - apply Forall_forall. intros k Hk.
    apply (proj1 (first_occurrences_elem _ _)) in Hk.
    destruct (venv_source_keys_absolute _ _ _ _ Hk) as [p ->]. apply Hidem.
Qed.

Lemma find_python_interpreters_first_occurrences use_mdfind interps :
  (forall p, abspath os (abspath os p) = abspath os p) ->
  probes_allowed os ->
  find_python_interpreters os use_mdfind = Returns interps ->
  exists lines,
    mdfind_lines os use_mdfind mdfind_interp_argv = Returns lines
    /\ made (new_PythonInterpreter os)
         (first_occurrences (interp_source_keys os lines)) interps
    /\ List.map interp_path interps
       = first_occurrences (interp_source_keys os lines).
Proof.
  intros Hidem Hallowed Hfind.
  destruct (find_python_interpreters_offers os
              (offered (new_PythonInterpreter os))
              (offered_add _
                 (fun k => new_PythonInterpreter_allowed os k Hallowed))
              _ _ (offered_empty _) Hfind)
    as (lines & st & Hlines & [Hmade _] & ->).
  exists lines. split; [done|]. split; [done|].
  eapply made_paths; [| |exact Hmade].
  - apply new_PythonInterpreter_Returns.
  - apply Forall_forall. intros k Hk.
    apply (proj1 (first_occurrences_elem _ _)) in Hk.
    destruct (interp_source_keys_resolved _ _ Hk) as [p ->]. apply Hidem.
Qed.

(** Among records whose keys do not repeat, exactly one has a given key
    of theirs. *)
Lemma one_record_of_key {R} (field : R -> string) (records : list R)
    (k : string) :
  NoDup (List.map field records) -> k ∈ List.map field records ->
  length (List.filter (fun r => bool_decide (field r = k)) records) = 1.
Proof.
  assert (Hnone : forall l, k ∉ List.map field l ->
            List.filter (fun r => bool_decide (field r = k)) l = []).
  { induction l as [|r l IHl]; simpl; intros Hk; [done|].
    rewrite bool_decide_eq_false_2.
    - apply IHl. intros ?. apply Hk. by apply list_elem_of_further.
    - intros Heq. apply Hk. rewrite Heq. apply list_elem_of_here. }
  induction records as [|r records IH]; simpl; intros Hnd Hk.
  - by apply elem_of_nil in Hk.
  - apply NoDup_cons in Hnd as [Hr Hnd].
    case_bool_decide as Heq.
    + subst k. simpl. by rewrite Hnone.
    + apply IH; [done|].
      apply elem_of_cons in Hk as [-> | Hk]; done.
Qed.

(** X15: What the code guarantees about duplicates, [abspath] being
    idempotent. Whatever is denied on the way, no two records of a
    discovery that returns share a path. Where no version probe is
    denied, the combined result holds exactly one record for every key
    that any of its sources (known locations, recursive scan or PATH,
    file index) yields, however many of them yield it; the key is the
    absolute path of the symlink-resolved path for interpreters, as the
    specification asks, and the absolute path, not symlink-resolved, for
    environments. Where a probe is denied, the key is in [found_paths]
    and has no record. *)
Theorem one_record_per_key :
  (forall p, abspath os (abspath os p) = abspath os p) ->
  (forall use_mdfind interps,
      find_python_interpreters os use_mdfind = Returns interps ->
      NoDup (List.map interp_path interps)
      /\ (probes_allowed os ->
          exists lines,
            mdfind_lines os use_mdfind mdfind_interp_argv = Returns lines
            /\ (forall k, k ∈ interp_source_keys os lines ->
                  (exists p, k = abspath os (realpath os p))
                  /\ length (List.filter
                               (fun r => bool_decide (interp_path r = k))
                               interps) = 1)))
  /\ (forall scan_path use_mdfind max_depth venvs,
         find_venvs os scan_path use_mdfind max_depth = Returns venvs ->
         NoDup (List.map path venvs)
         /\ (probes_allowed os ->
             exists lines,
               mdfind_lines os use_mdfind mdfind_venv_argv = Returns lines
               /\ (forall k,
                     k ∈ venv_source_keys os scan_path max_depth lines ->
                     (exists p, k = abspath os p)
                     /\ length (List.filter
                                  (fun r => bool_decide (path r = k))
                                  venvs) = 1)))
  /\ (forall (k : string) (st : Found VirtualEnv) (e : exn),
         k ∉ st.2 -> new_VirtualEnv os k = Raises e ->
         add_found (new_VirtualEnv os) k st
         = ((st.1, {[k]} ∪ st.2), Some e)).
Proof.
  intros Hidem.
  destruct (discovery_paths_unique os Hidem) as [Huniq_i Huniq_v].
  split; [|split].
  - intros use_mdfind interps Hfind.
    split; [by apply (Huniq_i use_mdfind)|].
    intros Hallowed.
    destruct (find_python_interpreters_first_occurrences _ _ Hidem Hallowed
                Hfind) as (lines & Hlines & _ & Hpaths).
    exists lines. split; [done|].
    intros k Hk. split; [by apply (interp_source_keys_resolved lines)|].
    apply one_record_of_key; [by apply (Huniq_i use_mdfind)|].
    rewrite Hpaths. by apply first_occurrences_elem.
  - intros scan_path use_mdfind max_depth venvs Hfind.
    split; [by apply (Huniq_v scan_path use_mdfind max_depth)|].
    intros Hallowed.
    destruct (find_venvs_first_occurrences _ _ _ _ Hidem Hallowed Hfind)
      as (lines & Hlines & _ & Hpaths).
    exists lines. split; [done|].
    intros k Hk.
    split; [by apply (venv_source_keys_absolute scan_path max_depth lines)|].
    apply one_record_of_key;
      [by apply (Huniq_v scan_path use_mdfind max_depth)|].
    rewrite Hpaths. by apply first_occurrences_elem.
  - intros k st e Hk Hnew. unfold add_found.
    by rewrite bool_decide_eq_false_2, Hnew.
Qed.

End OneRecordPerKey.

Section SymlinkedHome.

(** A home directory where [~/envs] is a symbolic link to
    [~/.local/share/virtualenvs] (listing it shows the same entry [x], an
    environment), and where a pyenv version has [python] and [python3]
    linked to [python3.11]. *)
Definition linked_listing : list (string * list DirEntry) :=
  [ ("/home/u/.local/share/virtualenvs", [dir_entry "x"]);
    ("/home/u/.local/share/virtualenvs/x", [file_entry "pyvenv.cfg"]);
    ("/home/u/envs", [dir_entry "x"]);
    ("/home/u/envs/x", [file_entry "pyvenv.cfg"]);
    ("/home/u/.pyenv/versions", [dir_entry "3.11"]);
    ("/home/u/.pyenv/versions/3.11", [dir_entry "bin"]);
    ("/home/u/.pyenv/versions/3.11/bin",
     [file_entry "python"; file_entry "python3"; file_entry "python3.11"])
  ]%string.

Definition python311 : string := "/home/u/.pyenv/versions/3.11/bin/python3.11".
Definition env_x : string := "/home/u/.local/share/virtualenvs/x".
Definition env_x_by_link : string := "/home/u/envs/x".

Definition linked_resolve (p : string) : string :=
  if String.eqb p env_x_by_link then env_x
  else if String.eqb p "/home/u/.pyenv/versions/3.11/bin/python" then python311
  else if String.eqb p "/home/u/.pyenv/versions/3.11/bin/python3" then python311
  else p.

Definition linked_os : OS := listing_os "/home/u" linked_listing linked_resolve.

(** C3, where the code departs from it: known-location probing reaches
    the environment as [~/.local/share/virtualenvs/x], the scan of
    [~/envs] reaches it as [~/envs/x]; both resolve to the same canonical
    path, and the result of [find_venvs], which keys its records by the
    absolute path without resolving symbolic links, holds two records for
    it. *)
Lemma environment_behind_symlink_found_twice :
  List.flat_map (venv_known_keys linked_os) manager_templates = [env_x]
  /\ scan_keys linked_os 3 4 "/home/u/envs" 0 = [env_x_by_link]
  /\ abspath linked_os (realpath linked_os env_x) = env_x
  /\ abspath linked_os (realpath linked_os env_x_by_link) = env_x
  /\ result_map (List.map path)
       (find_venvs linked_os (Some "/home/u/envs"%string) false 3)
     = Returns [env_x; env_x_by_link]
  /\ result_map
       (fun vs => length (List.filter
          (fun r => bool_decide
             (abspath linked_os (realpath linked_os (path r)) = env_x)) vs))
       (find_venvs linked_os (Some "/home/u/envs"%string) false 3)
     = Returns 2.
Proof. repeat split; by vm_compute. Qed.

(** On that machine, where no probe is denied, the three names of the
    pyenv interpreter give one record, under the resolved path. *)
Lemma one_record_per_key_witness :
  (forall p, abspath linked_os (abspath linked_os p) = abspath linked_os p)
  /\ probes_allowed linked_os
  /\ exists interps,
       find_python_interpreters linked_os false = Returns interps
       /\ List.map interp_path interps = [python311]
       /\ length (List.filter
                    (fun r => bool_decide (interp_path r = python311))
                    interps) = 1
       /\ NoDup (List.map interp_path interps).
Proof.
  assert (Hidem : forall p, abspath linked_os (abspath linked_os p)
                            = abspath linked_os p) by (intros; reflexivity).
  assert (Hallowed : probes_allowed linked_os) by (intros exe; done).
  split; [exact Hidem|]. split; [exact Hallowed|].
  eexists. split; [by vm_compute|]. split; [reflexivity|].
  destruct (one_record_per_key linked_os Hidem) as [Hinterp _].
  destruct (Hinterp false _ eq_refl) as (Hnd & Hone).
  destruct (Hone Hallowed) as (lines & Hlines & Hkeys).
  vm_compute in Hlines. injection Hlines as <-.
  split; [|exact Hnd].
  apply Hkeys. vm_compute. apply list_elem_of_here.
Defined.

End SymlinkedHome.

Section DeniedProbe.

(** A home directory with two environments in a known location, the
    first with an interpreter that may not be started, and a third
    environment in the directory scanned. *)
Definition guarded_listing : list (string * list DirEntry) :=
  [ ("/home/u/.local/share/virtualenvs", [dir_entry "x"; dir_entry "y"]);
    ("/home/u/.local/share/virtualenvs/x",
     [file_entry "pyvenv.cfg"; dir_entry "bin"]);
    ("/home/u/.local/share/virtualenvs/x/bin", [file_entry "python"]);
    ("/home/u/.local/share/virtualenvs/y", [file_entry "pyvenv.cfg"]);
    ("/home/u/work", [dir_entry "z"]);
    ("/home/u/work/z", [file_entry "pyvenv.cfg"]) ]%string.

Definition guarded_python : string :=
  "/home/u/.local/share/virtualenvs/x/bin/python".

Definition guarded_os : OS :=
  let os := listing_os "/home/u" guarded_listing (fun p => p) in
  {| abspath := abspath os;
     realpath := realpath os;
     expanduser := expanduser os;
     path_exists := path_exists os;
     isdir := isdir os;
     access_X_OK := access_X_OK os;
     scandir := scandir os;
     getmtime := getmtime os;
     dir_size := dir_size os;
     subprocess_run := fun argv =>
       match argv with
       | exe :: _ =>
           if String.eqb exe guarded_python then PermissionError
           else FileNotFoundError
       | [] => FileNotFoundError
       end;
     json_loads := json_loads os;
     environ_PATH := environ_PATH os;
     platform_system := platform_system os |}.

(** The denied probe of the first environment leaves the constructor and
    ends the loop over that known location: neither that environment
    nor the one listed after it is in the result, which holds the
    environment of the scan only. A scan root that is missing makes
    [find_venvs] raise. *)
Example denied_probe_loses_records :
  new_VirtualEnv guarded_os "/home/u/.local/share/virtualenvs/x"
  = Raises OSError
  /\ venv_source_keys guarded_os (Some "/home/u/work"%string) 3 []
     = [ "/home/u/.local/share/virtualenvs/x";
         "/home/u/.local/share/virtualenvs/y";
         "/home/u/work/z" ]%string
  /\ result_map (List.map path)
       (find_venvs guarded_os (Some "/home/u/work"%string) false 3)
     = Returns ["/home/u/work/z"%string]
  /\ find_venvs guarded_os (Some "/home/u/missing"%string) false 3
     = Raises NoSuchDirectory.
Proof. repeat split; by vm_compute. Qed.

End DeniedProbe.
(* ====================================================================== *)
(** * Further properties: selection, search and back transitions *)
(* ====================================================================== *)

Section SelectionAndSearch.

(** X1: Marking is an involution: pressing the mark key twice on the same
    row restores the selection, in every view; outside the list and
    detail views the mark key changes nothing at all. *)
Theorem toggle_selection_twice (t : TUI) :
  selected_items (_toggle_selection (_toggle_selection t)) = selected_items t
  /\ (current_view t ∉ [interpreters_view; venvs_view; venv_detail] ->
      _toggle_selection t = t)
  /\ cursor (_toggle_selection t) = cursor t
  /\ venvs (_toggle_selection t) = venvs t
  /\ current_view (_toggle_selection t) = current_view t.
Proof.
  assert (Hlist : forall u,
            current_view u ∈ [interpreters_view; venvs_view; venv_detail] ->
            _toggle_selection u
            = if bool_decide (cursor u ∈ selected_items u)
              then set_selected_items (selected_items u ∖ {[cursor u]}) u
              else set_selected_items ({[cursor u]} ∪ selected_items u) u).
  { intros u Hu. unfold _toggle_selection.
    by rewrite (bool_decide_eq_true_2 _ Hu). }
  assert (Hother : forall u,
            current_view u ∉ [interpreters_view; venvs_view; venv_detail] ->
            _toggle_selection u = u).
  { intros u Hu. unfold _toggle_selection.
    by rewrite (bool_decide_eq_false_2 _ Hu). }
  destruct (decide (current_view t
                    ∈ [interpreters_view; venvs_view; venv_detail]))
    as [Hview | Hview].
  - split; [|split; [done|]].
    + rewrite (Hlist t Hview).
      destruct (bool_decide (cursor t ∈ selected_items t)) eqn:Hin.
      * apply bool_decide_eq_true in Hin. rewrite Hlist by done.
        cbn [cursor selected_items set_selected_items].
        rewrite bool_decide_eq_false_2 by set_solver.
        cbn [selected_items set_selected_items].
        apply set_eq. intros i.
        rewrite elem_of_union, elem_of_difference, elem_of_singleton.
        destruct (decide (i = cursor t)); naive_solver.
      * apply bool_decide_eq_false in Hin. rewrite Hlist by done.
        cbn [cursor selected_items set_selected_items].
        rewrite bool_decide_eq_true_2 by set_solver.
        cbn [selected_items set_selected_items].
        apply set_eq. intros i.
        rewrite elem_of_difference, elem_of_union, elem_of_singleton.
        destruct (decide (i = cursor t)); naive_solver.
    + rewrite (Hlist t Hview). by case_bool_decide.
  - rewrite !(Hother t Hview). by repeat split.
Qed.

Lemma imap_pairs_lookup {A} (l : list A) (k i : nat) (x : A) :
  (k + i, x) ∈ imap (fun j y => (k + j, y)) l <-> l !! i = Some x.
Proof.
  rewrite elem_of_lookup_imap. split.
  - intros (j & y & [= Hj ->] & Hy). by replace i with j by lia.
  - intros Hi. by exists i, x.
Qed.

Lemma indices_from_sorted {A} (p : A -> bool) (l : list A) (k : nat) :
  StronglySorted lt
    (List.map fst (List.filter (fun ix : nat * A => p ix.2)
                     (imap (fun j y => (k + j, y)) l)))
  /\ Forall (fun i => k <= i)
       (List.map fst (List.filter (fun ix : nat * A => p ix.2)
                        (imap (fun j y => (k + j, y)) l))).
Proof.
  revert k. induction l as [|x l IH]; intros k.
  - split; constructor.
  - destruct (IH (S k)) as [Hs Hge].
    assert (Heq : imap (fun j y => (k + j, y)) (x :: l)
                  = (k, x) :: imap (fun j y => (S k + j, y)) l).
    { simpl. f_equal; [f_equal; lia|]. apply imap_ext. intros. simpl.
      f_equal. lia. }
    rewrite Heq. simpl. destruct (p x); simpl.
    + split.
      * constructor; [done|]. eapply Forall_impl; [exact Hge|].
        simpl. intros. lia.
      * constructor; [lia|]. eapply Forall_impl; [exact Hge|].
        simpl. intros. lia.
    + split; [done|]. eapply Forall_impl; [exact Hge|]. simpl. intros. lia.
Qed.

(** [[i for i, x in enumerate(l) if p(x)]]: exactly the positions of the
    items that satisfy [p], in increasing order. *)
Lemma indices_where_spec {A} (p : A -> bool) (l : list A) :
  StronglySorted lt (indices_where p l)
  /\ forall i, i ∈ indices_where p l <-> exists x, l !! i = Some x /\ p x = true.
Proof.
  unfold indices_where. split.
  - apply (indices_from_sorted p l 0).
  - intros i. rewrite list_elem_of_fmap. split.
    + intros ([j x] & -> & Hin). apply list_elem_of_In in Hin.
      apply List.filter_In in Hin as [Hin%list_elem_of_In Hp].
      exists x. split; [|done].
      by apply (imap_pairs_lookup l 0 j x).
    + intros (x & Hx & Hp). exists (i, x). split; [done|].
      apply list_elem_of_In, List.filter_In. split; [|done].
      apply list_elem_of_In. by apply (imap_pairs_lookup l 0 i x).
Qed.

(** Going back and searching leave the two lists of records alone. *)
Lemma go_back_lists (t : TUI) :
  venvs (_go_back t) = venvs t /\ interpreters (_go_back t) = interpreters t.
Proof. unfold _go_back. by destruct (current_view t). Qed.

Lemma start_search_lists (query : string) (t : TUI) :
  venvs (_start_search query t) = venvs t
  /\ interpreters (_start_search query t) = interpreters t.
Proof.
  unfold _start_search. by destruct (String.eqb query EmptyString).
Qed.

(** X2: A search over the environment list: the filter holds, in increasing
    order and without repeats, exactly the positions of the environments
    whose project name, manager or path contains the lower-cased query;
    every position is in range; cursor and offset restart at 0. An empty
    query turns the search off. Either way the lists of records, the
    marks, the view, the mode and the breadcrumb stay as they are. *)
Theorem search_filter_positions (query : string) (t : TUI) :
  let t' := _start_search query t in
  let hit (v : VirtualEnv) :=
    Str.contains (Str.lower query) (Str.lower (project_name v))
    || Str.contains (Str.lower query) (Str.lower (manager_name (manager v)))
    || Str.contains (Str.lower query) (Str.lower (path v)) in
  (query = EmptyString ->
     search_mode t' = false /\ search_query t' = EmptyString
     /\ filtered_items t' = [] /\ cursor t' = cursor t)
  /\ (query <> EmptyString ->
        search_mode t' = true /\ search_query t' = Str.lower query
        /\ cursor t' = 0 /\ scroll_offset t' = 0
        /\ StronglySorted lt (filtered_items t')
        /\ (current_view t = venvs_view ->
              forall i, i ∈ filtered_items t'
                        <-> exists v, venvs t !! i = Some v /\ hit v = true))
  /\ venvs t' = venvs t /\ interpreters t' = interpreters t
  /\ selected_items t' = selected_items t /\ current_view t' = current_view t
  /\ mode t' = mode t /\ breadcrumb t' = breadcrumb t.
Proof.
  intros t' hit. subst t'. unfold _start_search.
  split; [|split].
  - intros ->. by simpl.
  - intros Hq. apply String.eqb_neq in Hq. rewrite Hq. simpl.
    split; [done|]. split; [done|]. split; [done|]. split; [done|].
    unfold _apply_search_filter. cbn [filtered_items set_search current_view
      search_query search_mode venvs interpreters selected_venv].
    split.
    + destruct (current_view t); try constructor.
      * apply indices_where_spec.
      * apply indices_where_spec.
      * destruct (selected_venv t); [apply indices_where_spec|constructor].
    + intros ->. intros i. apply indices_where_spec.
  - destruct (String.eqb query EmptyString); by simpl.
Qed.

(** The reverse table of [_go_back]: the detail view returns to the
    environment list, a list or the analysis to the category screen, the
    category screen to the mode screen, which stays; leaving a list or
    detail view empties the selection and resets cursor and offset; the
    lists of records and the search state are left as they are. *)
Theorem back_transition_table (t : TUI) :
  current_view (_go_back t)
    = match current_view t with
      | venv_detail => venvs_view
      | interpreters_view | venvs_view | analysis => category_select
      | category_select | mode_select => mode_select
      end
  /\ (current_view t <> mode_select /\ current_view t <> category_select ->
      selected_items (_go_back t) = ∅ /\ scroll_offset (_go_back t) = 0)
  /\ cursor (_go_back t) = 0
  /\ (current_view t = venv_detail ->
      selected_venv (_go_back t) = None
      /\ breadcrumb (_go_back t) = List.removelast (breadcrumb t)
      /\ mode (_go_back t) = mode t)
  /\ (current_view t <> venv_detail -> breadcrumb (_go_back t) = [])
  /\ (current_view t = category_select \/ current_view t = mode_select ->
      mode (_go_back t) = None)
  /\ venvs (_go_back t) = venvs t /\ interpreters (_go_back t) = interpreters t
  /\ search_mode (_go_back t) = search_mode t
  /\ filtered_items (_go_back t) = filtered_items t.
Proof.
  unfold _go_back. destruct (current_view t) eqn:Hv; simpl;
    repeat split; try done; naive_solver.
Qed.

End SelectionAndSearch.

(* ====================================================================== *)
(** * Further properties: the states that the key loop reaches *)
(* ====================================================================== *)

Section ReachableStates.
Variable os : OS.
Variable World : Type.
Variable rmtree : string -> World -> World * bool.

(** How far below the mode screen a view lies. *)
Definition view_depth (v : View) : nat :=
  match v with
  | mode_select | category_select => 0
  | interpreters_view | venvs_view | analysis => 1
  | venv_detail => 2
  end.

(** What holds of every state that the loop reaches: the mode is unset
    exactly on the mode screen; the breadcrumb is as long as the view is
    deep; the analysis is only shown in explore mode and the detail view
    only in list, explore or package mode, with an environment bound
    exactly there; marks exist only in delete or package mode and never on
    the mode, category or analysis screens; a search that is off has no
    query and no filter. *)
Definition well_formed (t : TUI) : Prop :=
  (current_view t = mode_select <-> mode t = None)
  /\ length (breadcrumb t) = view_depth (current_view t)
  /\ (current_view t = analysis -> mode t = Some mode_explore)
  /\ (current_view t = venv_detail ->
      mode t = Some mode_list \/ mode t = Some mode_explore
      \/ mode t = Some mode_package)
  /\ (current_view t = venv_detail <-> selected_venv t <> None)
  /\ (selected_items t <> ∅ ->
      (mode t = Some mode_delete \/ mode t = Some mode_package)
      /\ (current_view t = interpreters_view \/ current_view t = venvs_view
          \/ current_view t = venv_detail))
  /\ (search_mode t = false ->
      search_query t = EmptyString /\ filtered_items t = []).

Ltac wf_goal :=
  first [ done | congruence | intuition congruence ].

Lemma well_formed_new interps vs : well_formed (new_TUI interps vs).
Proof. unfold well_formed, new_TUI. simpl. split_and!; wf_goal. Qed.

(** Only these attributes matter. *)
Lemma well_formed_ext (t u : TUI) :
  current_view u = current_view t -> mode u = mode t ->
  breadcrumb u = breadcrumb t -> selected_venv u = selected_venv t ->
  (selected_items u = selected_items t \/ selected_items u = ∅) ->
  (search_mode u = search_mode t /\ search_query u = search_query t
   /\ filtered_items u = filtered_items t) ->
  well_formed t -> well_formed u.
Proof.
  unfold well_formed.
  intros -> -> -> -> Hsel (-> & -> & ->) (H1 & H2 & H3 & H4 & H5 & H6 & H7).
  split_and!; try done.
  intros Hne. apply H6. by destruct Hsel as [<- | Hempty].
Qed.

Lemma go_back_well_formed (t : TUI) : well_formed t -> well_formed (_go_back t).
Proof.
  unfold well_formed, _go_back.
  intros (H1 & H2 & H3 & H4 & H5 & H6 & H7).
  destruct (current_view t) eqn:Hv; simpl in *; split_and!; try wf_goal.
  by destruct (breadcrumb t) as [|a [|b [|c l]]].
Qed.

Lemma handle_enter_well_formed (t t' : TUI) :
  well_formed t -> _handle_enter t = Continue t' -> well_formed t'.
Proof.
  unfold _handle_enter. intros Hwf.
  pose proof Hwf as (H1 & H2 & H3 & H4 & H5 & H6 & H7).
  destruct (current_view t) eqn:Hv; try (by intros [= <-]).
  - destruct (nth_error _ (cursor t)) as [[m|]|] eqn:Hm;
      [|done|by intros [= <-]].
    intros [= <-]. unfold well_formed. simpl. split_and!; wf_goal.
  - simpl in *.
    assert (Hb : breadcrumb t = []) by (by destruct (breadcrumb t)).
    destruct (cursor t =? 0); [|destruct (cursor t =? 1);
      [|destruct ((cursor t =? 2) && _) eqn:He]];
      intros [= <-]; try done; unfold well_formed; simpl;
      rewrite ?Hv, ?Hb; simpl; split_and!; try wf_goal.
    intros _. apply andb_prop in He as [_ He].
    by apply bool_decide_eq_true in He.
  - case_bool_decide as Hm; [|by intros [= <-]].
    destruct (venvs t !! cursor t) as [sv|]; intros [= <-]; [|done].
    simpl in *. unfold well_formed. simpl.
    rewrite length_app. simpl. rewrite H2.
    split_and!; try wf_goal.
    intros _. rewrite !elem_of_cons, elem_of_nil in Hm. tauto.
Qed.

Lemma toggle_well_formed (t : TUI) :
  mode t = Some mode_delete \/ mode t = Some mode_package ->
  well_formed t -> well_formed (_toggle_selection t).
Proof.
  intros Hmode Hwf. unfold _toggle_selection.
  case_bool_decide as Hview; [|done].
  rewrite !elem_of_cons, elem_of_nil in Hview.
  destruct Hwf as (H1 & H2 & H3 & H4 & H5 & H6 & H7).
  case_bool_decide; unfold well_formed; simpl; split_and!; try wf_goal;
    intros _; tauto.
Qed.

Lemma start_search_well_formed query (t : TUI) :
  well_formed t -> well_formed (_start_search query t).
Proof.
  intros (H1 & H2 & H3 & H4 & H5 & H6 & H7).
  unfold _start_search, well_formed.
  destruct (negb (String.eqb query EmptyString)); simpl;
    split_and!; wf_goal.
Qed.

Lemma delete_loop_sublist view idxs (b : Batch World) :
  sublist (b_venvs (delete_loop os World rmtree view idxs b)) (b_venvs b).
Proof.
  unfold delete_loop. revert b.
  induction idxs as [|idx idxs IH]; intros b; simpl; [done|].
  etrans; [apply IH|]. unfold delete_step.
  destruct (bool_decide (view = venvs_view) && _); [|done].
  destruct (b_venvs b !! idx) as [v|]; [|done].
  destruct (negb (is_system_path os (path v))); [|done].
  destruct (rmtree (path v) (b_world b)) as [w' [|]]; simpl; [|done].
  apply sublist_delete.
Qed.

Lemma confirm_delete_well_formed response (t : TUI) (w : World) :
  well_formed t ->
  well_formed (_confirm_delete os World rmtree response t w).1
  /\ sublist (venvs (_confirm_delete os World rmtree response t w).1) (venvs t)
  /\ interpreters (_confirm_delete os World rmtree response t w).1
     = interpreters t.
Proof.
  intros Hwf. unfold _confirm_delete.
  case_bool_decide; [done|].
  destruct (affirmative response); [|done]. simpl.
  split; [|split; [apply delete_loop_sublist | done]].
  eapply well_formed_ext; [..|exact Hwf]; simpl; try done. by right.
Qed.

Lemma handle_key_well_formed key height typed (t t' : TUI) (w w' : World) :
  well_formed t ->
  handle_key os World rmtree key height typed t w = (Continue t', w') ->
  well_formed t' /\ sublist (venvs t') (venvs t)
  /\ interpreters t' = interpreters t.
Proof.
  intros Hwf. unfold handle_key. destruct key.
  - destruct (_ || _); [|done]. intros [= <- <-].
    split; [by apply go_back_well_formed|].
    destruct (go_back_lists t) as [-> ->].
    done.
  - intros [= <- <-]. split; [|done].
    eapply well_formed_ext; [..|exact Hwf]; simpl; try done. by left.
  - intros [= <- <-]. split; [|done].
    eapply well_formed_ext; [..|exact Hwf]; simpl; try done. by left.
  - destruct (_handle_enter t) as [u| |] eqn:He; [|done|done].
    intros [= <- <-]. split; [by eapply handle_enter_well_formed|].
    revert He. unfold _handle_enter.
    repeat (match goal with
            | |- context [match ?c with _ => _ end] => destruct c
            end); intros [= <-]; done.
  - case_bool_decide as Hm; intros [= <- <-]; [|done].
    rewrite !elem_of_cons, elem_of_nil in Hm.
    split; [apply toggle_well_formed; [tauto|done]|].
    unfold _toggle_selection. by repeat case_bool_decide.
  - case_bool_decide.
    + destruct (_confirm_delete os World rmtree typed t w) as [u b] eqn:Hd.
      intros [= <- <-].
      pose proof (confirm_delete_well_formed typed t w Hwf) as Hc.
      by rewrite Hd in Hc.
    + by intros [= <- <-].
  - destruct (search_mode t) eqn:Hs; intros [= <- <-].
    + split; [|done]. destruct Hwf as (H1 & H2 & H3 & H4 & H5 & H6 & H7).
      unfold well_formed. simpl. split_and!; wf_goal.
    + split; [by apply go_back_well_formed|].
      destruct (go_back_lists t) as [-> ->]. done.
  - intros [= <- <-]. split; [|done].
    eapply well_formed_ext; [..|exact Hwf]; simpl; try done. by left.
  - case_bool_decide; intros [= <- <-]; [|done].
    split; [by apply start_search_well_formed|].
    by destruct (start_search_lists typed t) as [-> ->].
  - by intros [= <- <-].
Qed.

(** After any run of keys from the initial state, as long as the loop
    goes on: the state is well formed (see [well_formed]), the
    interpreter list is the initial one, and the environment list is the
    initial one with some records removed, in the same order. *)
Theorem reachable_states_well_formed
    (inputs : list (Key * Z * string)) (interps : list PythonInterpreter)
    (vs : list VirtualEnv) (w w' : World) (t' : TUI) :
  handle_keys os World rmtree inputs (new_TUI interps vs) w = (Continue t', w') ->
  well_formed t' /\ sublist (venvs t') vs /\ interpreters t' = interps.
Proof.
  assert (Hgen : forall inputs t w,
            well_formed t ->
            handle_keys os World rmtree inputs t w = (Continue t', w') ->
            well_formed t' /\ sublist (venvs t') (venvs t)
            /\ interpreters t' = interpreters t).
  { clear. induction inputs as [|[[key height] typed] rest IH];
      intros t w Hwf; simpl.
    - by intros [= <- <-].
    - destruct (handle_key os World rmtree key height typed t w)
        as [[u| |] w1] eqn:Hk; [|done|done].
      intros Hrest.
      destruct (handle_key_well_formed _ _ _ _ _ _ _ Hwf Hk)
        as (Hu & Hsub & Hint).
      destruct (IH u w1 Hu Hrest) as (Ht' & Hsub' & Hint').
      split; [done|]. split; [by etrans|congruence]. }
  intros Hrun. exact (Hgen inputs _ w (well_formed_new interps vs) Hrun).
Qed.

End ReachableStates.

(** The invariant after choosing list mode and the environment list. *)
Lemma reachable_states_well_formed_witness :
  exists t' w',
    handle_keys plain_os (list string) rmtree_ok
      [(KEY_ENTER, 40%Z, EmptyString); (KEY_DOWN, 40%Z, EmptyString);
       (KEY_ENTER, 40%Z, EmptyString)]
      (new_TUI [] ten_envs) [] = (Continue t', w')
    /\ well_formed t' /\ sublist (venvs t') ten_envs /\ interpreters t' = [].
Proof.
  eexists _, _. split; [by vm_compute|].
  eapply (reachable_states_well_formed plain_os (list string) rmtree_ok
            [(KEY_ENTER, 40%Z, EmptyString); (KEY_DOWN, 40%Z, EmptyString);
             (KEY_ENTER, 40%Z, EmptyString)] [] ten_envs [] _ _).
  by vm_compute.
Defined.

(* ====================================================================== *)
(** * Further properties: what a delete batch touches *)
(* ====================================================================== *)

Section DeleteBatchAccounting.
Variable os : OS.
Variable World : Type.
Variable rmtree : string -> World -> World * bool.

Abbreviation step' := (delete_step os World rmtree venvs_view).
Abbreviation loop' := (delete_loop os World rmtree venvs_view).

(** Every path handed to [rmtree] is the path of a record that stood at
    one of the given indices before the batch, and is not protected. *)
Lemma loop_attempted_from_indices idxs (b : Batch World) :
  StronglySorted descending idxs -> NoDup idxs ->
  forall p, p ∈ b_attempted (loop' idxs b) ->
    p ∈ b_attempted b
    \/ exists j u, j ∈ idxs /\ b_venvs b !! j = Some u /\ path u = p
                   /\ is_system_path os (path u) = false.
Proof.
  intros Hsorted. revert b.
  induction Hsorted as [|idx idxs Hs IH Hall]; intros b Hnd p Hp.
  - by left.
  - apply NoDup_cons in Hnd as [Hnotin Hnd]. simpl in Hp.
    apply (IH _ Hnd) in Hp as [Hp | (j & u & Hj & Hu & Hpu & Hsys)].
    + destruct (step_cases os World rmtree idx b)
        as [Heq | (v & w' & ok & Hv & Hns & _ & Hatt & _)].
      * rewrite Heq in Hp. by left.
      * rewrite Hatt in Hp.
        apply elem_of_app in Hp as [Hp | Hp%list_elem_of_singleton];
          [by left|].
        right. exists idx, v. split; [apply list_elem_of_here|]. by subst.
    + right. exists j, u. split; [by apply list_elem_of_further|].
      split; [|done]. rewrite <- Hu. symmetry.
      apply step_lookup_below.
      rewrite Forall_forall in Hall. specialize (Hall j Hj).
      unfold descending in Hall.
      assert (j <> idx) by (intros ->; done). lia.
Qed.

(** A record whose path is never handed to [rmtree] stays. *)
Lemma loop_keeps_unattempted idxs (b : Batch World) v :
  v ∈ b_venvs b -> path v ∉ b_attempted (loop' idxs b) ->
  v ∈ b_venvs (loop' idxs b).
Proof.
  revert b. induction idxs as [|idx idxs IH]; intros b Hin Hnot; [done|].
  simpl in *. apply IH; [|done].
  destruct (step_cases os World rmtree idx b)
    as [-> | (u & w' & ok & Hu & _ & _ & Hatt & ->)]; [done|].
  destruct ok; [|done].
  eapply elem_of_delete_other; [exact Hu| |done].
  intros ->. apply Hnot. apply loop_attempted_mono. rewrite Hatt.
  apply elem_of_app. right. apply list_elem_of_here.
Qed.

Lemma loop_accounting view idxs (b : Batch World) :
  let b' := delete_loop os World rmtree view idxs b in
  length (b_venvs b') + b_deleted b' = length (b_venvs b) + b_deleted b
  /\ b_deleted b <= b_deleted b'
  /\ b_deleted b' - b_deleted b
     <= length (b_attempted b') - length (b_attempted b)
  /\ length (b_attempted b') <= length (b_attempted b) + length idxs
  /\ length (b_attempted b) <= length (b_attempted b').
Proof.
  unfold delete_loop. revert b.
  induction idxs as [|idx idxs IH]; intros b; simpl; [lia|].
  destruct (IH (delete_step os World rmtree view idx b))
    as (H1 & H2 & H3 & H4 & H5).
  assert (Hstep :
    let s := delete_step os World rmtree view idx b in
    length (b_venvs s) + b_deleted s = length (b_venvs b) + b_deleted b
    /\ b_deleted b <= b_deleted s
    /\ b_deleted s - b_deleted b
       <= length (b_attempted s) - length (b_attempted b)
    /\ length (b_attempted s) <= S (length (b_attempted b))
    /\ length (b_attempted b) <= length (b_attempted s)).
  { unfold delete_step.
    destruct (bool_decide (view = venvs_view)); simpl; [|lia].
    destruct (idx <? length (b_venvs b)) eqn:Hlt; [|lia].
    apply Nat.ltb_lt in Hlt.
    destruct (b_venvs b !! idx) as [v|]; [|lia].
    destruct (negb (is_system_path os (path v))); [|lia].
    destruct (rmtree (path v) (b_world b)) as [w' [|]]; simpl;
      rewrite ?length_app, ?length_delete by (by apply lookup_lt_is_Some);
      simpl; lia. }
  cbv zeta in Hstep. destruct Hstep as (S1 & S2 & S3 & S4 & S5). lia.
Qed.

(** X4: The delete batch, accounted for. A cancelled prompt or an empty
    selection changes nothing, not even the file system. Otherwise every
    record that leaves the list is counted in [deleted], no more records
    are counted than were handed to [rmtree], and no more are handed to
    it than are marked. When the environments have pairwise distinct
    paths, an environment that is not marked is never handed to [rmtree]
    and stays in the list. *)
Theorem delete_batch_accounting (response : string) (t : TUI) (w : World) :
  let r := _confirm_delete os World rmtree response t w in
  (affirmative response = false \/ selected_items t = ∅ ->
     r.1 = t /\ b_world r.2 = w /\ b_attempted r.2 = [])
  /\ length (venvs r.1) + b_deleted r.2 = length (venvs t)
  /\ b_deleted r.2 <= length (b_attempted r.2)
  /\ length (b_attempted r.2) <= size (selected_items t)
  /\ sublist (venvs r.1) (venvs t)
  /\ (NoDup (List.map path (venvs t)) ->
      forall i v, i ∉ selected_items t -> venvs t !! i = Some v ->
                  (path v ∉ b_attempted r.2) /\ v ∈ venvs r.1).
Proof.
  intros r. subst r. unfold _confirm_delete.
  destruct (sorted_reverse_spec (selected_items t)) as (Hsorted & Hnd & Hmem).
  assert (Hlen : length (sorted_reverse (selected_items t))
                 = size (selected_items t)).
  { unfold sorted_reverse.
    by rewrite (merge_sort_Permutation descending (elements _)). }
  case_bool_decide as Hempty.
  { simpl. rewrite Hempty, size_empty. split_and!; try done; try lia.
    intros _ i v _ Hv. split; [by intros ?%elem_of_nil|].
    by eapply list_elem_of_lookup_2. }
  destruct (affirmative response) eqn:Hyes; simpl.
  2:{ split_and!; try done; try lia.
      intros _ i v _ Hv. split; [by intros ?%elem_of_nil|].
      by eapply list_elem_of_lookup_2. }
  pose proof (loop_accounting (current_view t)
                (sorted_reverse (selected_items t)) (mkBatch (venvs t) w 0 []))
    as (A1 & A2 & A3 & A4 & A5).
  simpl in *.
  split; [intros [?|?]; done|].
  split; [lia|]. split; [lia|]. split; [lia|].
  split; [apply (delete_loop_sublist os World rmtree)|].
  intros Hpaths i v Hi Hv.
  assert (Hin : v ∈ venvs t) by (by eapply list_elem_of_lookup_2).
  destruct (decide (current_view t = venvs_view)) as [Hview | Hview].
  - rewrite Hview.
    assert (Hnot : path v ∉ b_attempted
                     (loop' (sorted_reverse (selected_items t))
                        (mkBatch (venvs t) w 0 []))).
    { intros Hatt.
      apply (loop_attempted_from_indices _ _ Hsorted Hnd) in Hatt
        as [Hnil | (j & u & Hj & Hu & Hpu & _)].
      - by apply elem_of_nil in Hnil.
      - simpl in Hu. apply Hmem in Hj.
        assert (i = j); [|by subst].
        eapply (NoDup_lookup (List.map path (venvs t))); [done| |].
        + by rewrite list_lookup_fmap, Hv.
        + rewrite list_lookup_fmap, Hu. simpl. by rewrite Hpu. }
    split; [done|]. by apply loop_keeps_unattempted.
  - rewrite delete_loop_other_view by done. simpl.
    split; [by intros ?%elem_of_nil | done].
Qed.

(** X5: Nothing but a confirmed [d] in delete mode on the environment list,
    with marks, changes the environment list or the file system: every
    other key, in every state, leaves both as they are. *)
Theorem only_confirmed_delete_mutates (key : Key) (height : Z)
    (typed : string) (t : TUI) (w : World) :
  let r := handle_key os World rmtree key height typed t w in
  (r.2 = w /\ forall t', r.1 = Continue t' ->
                         venvs t' = venvs t /\ interpreters t' = interpreters t)
  \/ (key = KEY_d /\ mode t = Some mode_delete
      /\ affirmative typed = true /\ selected_items t <> ∅
      /\ current_view t = venvs_view).
Proof.
  intros r. subst r. unfold handle_key. destruct key.
  - left. destruct (_ || _); simpl; [|done]. split; [done|].
    intros t' [= <-].
    by destruct (go_back_lists t) as [-> ->].
  - left. simpl. split; [done|]. by intros t' [= <-].
  - left. simpl. split; [done|]. by intros t' [= <-].
  - left. simpl. split; [done|]. intros t'. unfold _handle_enter.
    repeat (match goal with
            | |- context [match ?c with _ => _ end] => destruct c
            end); intros [= <-]; done.
  - left. case_bool_decide; simpl; (split; [done|]); intros t' [= <-];
      [|done]. unfold _toggle_selection. by repeat case_bool_decide.
  - case_bool_decide as Hmode; [|left; simpl; split; [done|];
                                  by intros t' [= <-]].
    destruct (decide (selected_items t = ∅)) as [Hsel | Hsel].
    { left. unfold _confirm_delete. rewrite bool_decide_eq_true_2 by done.
      simpl. split; [done|]. by intros t' [= <-]. }
    destruct (affirmative typed) eqn:Hyes.
    2:{ left. unfold _confirm_delete. rewrite bool_decide_eq_false_2 by done.
        rewrite Hyes. simpl. split; [done|]. by intros t' [= <-]. }
    destruct (decide (current_view t = venvs_view)) as [Hview | Hview];
      [by right|].
    left. unfold _confirm_delete. rewrite bool_decide_eq_false_2 by done.
    rewrite Hyes, delete_loop_other_view by done. simpl.
    split; [done|]. by intros t' [= <-].
  - left. destruct (search_mode t); simpl; (split; [done|]);
      intros t' [= <-]; [done|].
    by destruct (go_back_lists t) as [-> ->].
  - left. simpl. split; [done|]. by intros t' [= <-].
  - left. case_bool_decide; simpl; (split; [done|]); intros t' [= <-];
      [|done].
    by destruct (start_search_lists typed t) as [-> ->].
  - left. simpl. split; [done|]. by intros t' [= <-].
Qed.

End DeleteBatchAccounting.

(** The accounting on three marked environments, one of them protected:
    the environment list has distinct paths. *)
Lemma delete_batch_accounting_witness :
  let r := _confirm_delete plain_os (list string) rmtree_ok "y"
             (set_selected_items {[0; 2]} three_marked) [] in
  NoDup (List.map path (venvs three_marked))
  /\ (path system_env ∉ b_attempted r.2)
  /\ system_env ∈ venvs r.1
  /\ length (venvs r.1) + b_deleted r.2 = 3.
Proof.
  intros r.
  assert (Hnd : NoDup (List.map path (venvs three_marked))).
  { vm_compute. repeat constructor; set_solver. }
  split; [exact Hnd|].
  destruct (delete_batch_accounting plain_os (list string) rmtree_ok "y"
              (set_selected_items {[0; 2]} three_marked) [])
    as (_ & Hlen & _ & _ & _ & Hkeep).
  destruct (Hkeep Hnd 1 system_env) as [Hnot Hin].
  - cbn [selected_items set_selected_items]. set_solver.
  - reflexivity.
  - split; [exact Hnot|]. split; [exact Hin|]. exact Hlen.
Defined.

(* ====================================================================== *)
(** * Further properties: the cursor on short and empty lists *)
(* ====================================================================== *)

Section CursorEdges.

(** A cursor move on the ten environments, unfiltered, on a screen of 13
    lines. *)
Lemma cursor_move_window_unfiltered_witness :
  let t' := _adjust_scroll_for_view 13 (set_cursor 42 delete_mode_venvs) in
  cursor t' = 9 /\ scroll_offset t' = 7
  /\ (Z.of_nat (scroll_offset t') <= Z.of_nat (cursor t')
      <= Z.of_nat (scroll_offset t') + (13 - 10) - 1)%Z.
Proof.
  intros t'.
  destruct (cursor_move_window_unfiltered 13 (set_cursor 42 delete_mode_venvs))
    as (_ & Hwin & _).
  - by vm_compute.
  - lia.
  - split; [reflexivity|]. split; [reflexivity|]. exact Hwin.
Defined.

(** X7: On an empty list the cursor is not clamped: the bound of
    [_adjust_scroll] is skipped, so the cursor keeps whatever value it
    has and every Down adds one to it, while the offset is brought back
    to 0 for any window of at least one row. *)
Theorem cursor_not_clamped_on_empty_list (height : Z) (t : TUI) :
  unfiltered_count t = 0%Z ->
  cursor (_adjust_scroll_for_view height t) = cursor t
  /\ ((11 <= height)%Z ->
      scroll_offset (_adjust_scroll_for_view height t) = 0)
  /\ forall os World rmtree (w : World) typed,
       exists t', handle_key os World rmtree KEY_DOWN height typed t w
                  = (Continue t', w)
                  /\ cursor t' = S (cursor t).
Proof.
  intros Hempty.
  assert (Hadj : forall u, unfiltered_count u = 0%Z ->
            cursor (_adjust_scroll_for_view height u) = cursor u
            /\ ((11 <= height)%Z ->
                scroll_offset (_adjust_scroll_for_view height u) = 0)).
  { intros u Hu. unfold _adjust_scroll_for_view.
    fold (unfiltered_count u). rewrite Hu. unfold _adjust_scroll.
    cbn [cursor scroll_offset set_cursor set_scroll_offset].
    change (0 <? 0)%Z with false. cbv iota.
    split; [by rewrite Nat2Z.id|]. intros Hh.
    destruct (_ <? _)%Z; [|destruct (_ <=? _)%Z]; lia. }
  destruct (Hadj t Hempty) as [Hc Ho].
  split; [exact Hc|]. split; [exact Ho|].
  intros os World rmtree w typed. eexists. split; [reflexivity|].
  destruct (Hadj (set_cursor (cursor t + 1) t)) as [Hc' _]; [exact Hempty|].
  rewrite Hc'. simpl. lia.
Qed.

(** Moving down an empty environment list: the cursor leaves the list. *)
Lemma cursor_not_clamped_on_empty_list_witness :
  let empty := set_mode (Some mode_list) (set_view venvs_view (new_TUI [] [])) in
  exists t', handle_key plain_os (list string) rmtree_ok KEY_DOWN 40
               EmptyString empty [] = (Continue t', [])
             /\ cursor t' = 1.
Proof.
  intros empty.
  destruct (cursor_not_clamped_on_empty_list 40 empty) as (_ & _ & Hdown).
  - reflexivity.
  - exact (Hdown plain_os (list string) rmtree_ok [] EmptyString).
Defined.

End CursorEdges.

(* ====================================================================== *)
(** * Further operations and properties: probe, index and package search *)
(* ====================================================================== *)

Section ProbeSuccess.
Variable os : OS.

(** An item of the answer of [pip list --format=json] that gives a name
    and a version as strings (other keys may be present). *)
Definition describes (item : json) (nv : string * string) : Prop :=
  exists kv, item = JObj kv
             /\ obj_get kv "name" = Some (JStr nv.1)
             /\ obj_get kv "version" = Some (JStr nv.2).

Lemma packages_of_described items nvs :
  Forall2 describes items nvs ->
  packages_of items = Returns (List.map (fun nv => (JStr nv.1, JStr nv.2)) nvs)
  /\ typed_packages (List.map (fun nv => (JStr nv.1, JStr nv.2)) nvs)
     = Some (List.map (fun nv => mkPackage nv.1 nv.2 0) nvs).
Proof.
  induction 1 as [|item nv items nvs (kv & -> & Hn & Hv) _ [IH1 IH2]];
    [done|].
  split.
  - simpl. unfold package_of, py_getitem. rewrite Hn, Hv. simpl.
    by rewrite IH1.
  - simpl. by rewrite IH2.
Qed.

(** X9: A probe that succeeds: when [pip list] exits with status 0 and
    prints a list of objects with string names and versions, the record
    afterwards lists exactly those packages, in the order printed, each
    with size 0, is marked loaded, and is otherwise unchanged; a further
    probe that is not forced then does nothing, on any machine. *)
Theorem probe_packages_loads (self : VirtualEnv) (force : bool)
    (exe out : string) (items : list json) (nvs : list (string * string)) :
  python_executable self = Some exe ->
  packages_loaded self = false \/ force = true ->
  subprocess_run os (pip_list_argv exe) = Completed 0 out ->
  json_loads os out = Some (JArr items) ->
  Forall2 describes items nvs ->
  exists v', probe_packages os self force = Done v'
    /\ packages v' = List.map (fun nv => mkPackage nv.1 nv.2 0) nvs
    /\ packages_loaded v' = true
    /\ path v' = path self /\ name v' = name self
    /\ project_name v' = project_name self
    /\ python_version v' = python_version self /\ manager v' = manager self
    /\ size_bytes v' = size_bytes self
    /\ last_modified v' = last_modified self
    /\ python_executable v' = python_executable self
    /\ forall os', probe_packages os' v' false = Done v'.
Proof.
  intros Hexe Hneed Hrun Hjson Hitems.
  destruct (packages_of_described items nvs Hitems) as [Hraw Htyped].
  unfold probe_packages at 1.
  assert (Hgo : packages_loaded self && negb force = false).
  { destruct Hneed as [-> | ->]; [done|]. by rewrite andb_false_r. }
  rewrite Hgo, Hexe, Hrun. simpl. rewrite Hjson. simpl.
  rewrite Hraw, Htyped.
  eexists. split; [reflexivity|]. simpl. split_and!; try done.
Qed.

End ProbeSuccess.

(** The failures that the probe absorbs, on a machine where [pip list]
    prints text that is not JSON. *)
Lemma probe_packages_degrades_witness :
  probe_packages (pip_prints "not json") env_with_python false
  = Done env_with_python.
Proof.
  apply (probe_packages_degrades (pip_prints "not json") env_with_python false
           "/home/u/proj1/.venv/bin/python").
  - reflexivity.
  - left. exists 0%Z, "not json"%string. split; [reflexivity|].
    right. reflexivity.
Defined.

(** A successful probe of two packages, one printed with a further key. *)
Lemma probe_packages_loads_witness :
  let os :=
    {| abspath := fun p => p; realpath := fun p => p;
       expanduser := fun p => p; path_exists := fun _ => true;
       isdir := fun _ => true; access_X_OK := fun _ => true;
       scandir := fun _ => ListingDenied; getmtime := fun _ => None;
       dir_size := fun _ => 0;
       subprocess_run := fun _ => Completed 0 "two packages";
       json_loads := fun _ =>
         Some (JArr [JObj [("name", JStr "pip"); ("version", JStr "24.0")];
                     JObj [("name", JStr "idna"); ("editable", JBool true);
                           ("version", JStr "3.6")]]);
       environ_PATH := EmptyString; platform_system := "Linux" |}%string in
  exists v', probe_packages os env_with_python false = Done v'
    /\ packages v' = [mkPackage "pip" "24.0" 0; mkPackage "idna" "3.6" 0]%string
    /\ packages_loaded v' = true.
Proof.
  intros os.
  destruct (probe_packages_loads os env_with_python false
              "/home/u/proj1/.venv/bin/python" "two packages"
              [JObj [("name", JStr "pip"); ("version", JStr "24.0")];
               JObj [("name", JStr "idna"); ("editable", JBool true);
                     ("version", JStr "3.6")]]%string
              [("pip", "24.0"); ("idna", "3.6")]%string)
    as (v' & Hp & Hpk & Hl & _).
  - reflexivity.
  - left. reflexivity.
  - reflexivity.
  - reflexivity.
  - repeat constructor; eexists; (split; [reflexivity|]); split; reflexivity.
  - exists v'. split; [exact Hp|]. split; [exact Hpk | exact Hl].
Defined.

Section IndexAndSearch.
Variable probe : VirtualEnv -> VirtualEnv.

Abbreviation indexed := (as_indexed probe).

(** [PackageAnalyzer.find_package]: the pairs are appended environment
    by environment, package by package. *)
Definition find_package (venvs : list VirtualEnv) (pattern : string)
  : list (Package * VirtualEnv) :=
  let pattern_lower := Str.lower pattern in
  fold_left (fun results venv =>
    let venv := if negb (packages_loaded venv) then probe venv else venv in
    fold_left (fun results pkg =>
      if Str.contains pattern_lower (Str.lower (pkg_name pkg))
      then results ++ [(pkg, venv)] else results)
      (packages venv) results)
    venvs [].

Lemma lower_ascii_idem (c : ascii) :
  Str.lower_ascii (Str.lower_ascii c) = Str.lower_ascii c.
Proof. by destruct c as [[] [] [] [] [] [] [] []]. Qed.

Lemma lower_idem (s : string) : Str.lower (Str.lower s) = Str.lower s.
Proof.
  induction s as [|c s IH]; simpl; [done|]. by rewrite lower_ascii_idem, IH.
Qed.

Lemma contains_empty (s : string) : Str.contains EmptyString s = true.
Proof. by destruct s. Qed.

(** The matches of one environment, in listing order. *)
Definition matches_in (pattern_lower : string) (v : VirtualEnv)
  : list (Package * VirtualEnv) :=
  List.map (fun pkg => (pkg, v))
    (List.filter (fun pkg =>
       Str.contains pattern_lower (Str.lower (pkg_name pkg))) (packages v)).

Lemma find_package_unfold (venvs : list VirtualEnv) (pattern : string) :
  find_package venvs pattern
  = List.flat_map (fun v => matches_in (Str.lower pattern) (indexed v)) venvs.
Proof.
  unfold find_package. cbv zeta.
  assert (Hinner : forall (v : VirtualEnv) (pkgs : list Package)
                          (acc : list (Package * VirtualEnv)),
    fold_left (fun results pkg =>
      if Str.contains (Str.lower pattern) (Str.lower (pkg_name pkg))
      then results ++ [(pkg, v)] else results) pkgs acc
    = acc ++ List.map (fun pkg => (pkg, v))
               (List.filter (fun pkg =>
                  Str.contains (Str.lower pattern) (Str.lower (pkg_name pkg)))
                  pkgs)).
  { intros v pkgs. induction pkgs as [|pkg pkgs IH]; intros acc; simpl.
    - by rewrite app_nil_r.
    - rewrite IH. destruct (Str.contains _ _); simpl; [|done].
      by rewrite <- app_assoc. }
  assert (Houter : forall (vs : list VirtualEnv)
                          (acc : list (Package * VirtualEnv)),
    fold_left (fun results venv =>
      fold_left (fun results pkg =>
        if Str.contains (Str.lower pattern) (Str.lower (pkg_name pkg))
        then results ++ [(pkg, if negb (packages_loaded venv)
                               then probe venv else venv)]
        else results)
        (packages (if negb (packages_loaded venv) then probe venv else venv))
        results) vs acc
    = acc ++ List.flat_map
               (fun v => matches_in (Str.lower pattern) (indexed v)) vs).
  { induction vs as [|v vs IH]; intros acc; simpl.
    - by rewrite app_nil_r.
    - rewrite IH, Hinner. by rewrite <- app_assoc. }
  apply (Houter venvs []).
Qed.

(** X10: [find_package]: the result is, environment by environment in
    the order of the list and within an environment in listing order,
    the list of every package whose lower-cased name contains the
    lower-cased pattern, paired with its environment as the index sees
    it, once per listing and without merging; the pattern is
    case-insensitive; the empty pattern returns every package of every
    environment. The analyzer builds its index first, which probes the
    records: searched after that, and a probe that did not load a record
    leaving it as it is, every pair found is an entry of the index,
    under the lower-cased name. *)
Theorem find_package_matches (venvs : list VirtualEnv) (pattern : string) :
  find_package venvs pattern
  = List.flat_map (fun v0 =>
      List.map (fun pkg => (pkg, indexed v0))
        (List.filter (fun pkg =>
           Str.contains (Str.lower pattern) (Str.lower (pkg_name pkg)))
           (packages (indexed v0)))) venvs
  /\ (forall pkg v,
      (pkg, v) ∈ find_package venvs pattern
      <-> exists v0, v0 ∈ venvs /\ v = indexed v0 /\ pkg ∈ packages v
                     /\ Str.contains (Str.lower pattern)
                          (Str.lower (pkg_name pkg)) = true)
  /\ length (find_package venvs pattern)
     = sum_list (List.map (fun v0 =>
         length (List.filter (fun pkg =>
           Str.contains (Str.lower pattern) (Str.lower (pkg_name pkg)))
           (packages (indexed v0)))) venvs)
  /\ find_package venvs (Str.lower pattern) = find_package venvs pattern
  /\ find_package venvs EmptyString
     = List.flat_map (fun v0 =>
         List.map (fun pkg => (pkg, indexed v0)) (packages (indexed v0))) venvs
  /\ ((forall v0, packages_loaded (probe v0) = false ->
                   probe (probe v0) = probe v0) ->
      forall pkg v,
        (pkg, v) ∈ find_package (List.map indexed venvs) pattern ->
        (pkg_version pkg, v)
          ∈ default [] (PackageAnalyzer._build_map probe venvs
                          !! Str.lower (pkg_name pkg))).
Proof.
  assert (Hmem : forall pkg v,
      (pkg, v) ∈ find_package venvs pattern
      <-> exists v0, v0 ∈ venvs /\ v = indexed v0 /\ pkg ∈ packages v
                     /\ Str.contains (Str.lower pattern)
                          (Str.lower (pkg_name pkg)) = true).
  { intros pkg v. rewrite find_package_unfold, list_elem_of_In, List.in_flat_map.
    unfold matches_in. split.
    - intros (v0 & Hv0 & Hin). apply List.in_map_iff in Hin
        as (pkg' & [= -> <-] & Hf).
      apply List.filter_In in Hf as [Hp Hc].
      exists v0. split_and!; try done; by apply list_elem_of_In.
    - intros (v0 & Hv0 & -> & Hp & Hc). exists v0.
      split; [by apply list_elem_of_In|].
      apply List.in_map_iff. exists pkg. split; [done|].
      apply List.filter_In. split; [by apply list_elem_of_In | done]. }
  split; [by rewrite find_package_unfold|].
  split; [exact Hmem|]. split; [|split; [|split]].
  - clear Hmem. rewrite find_package_unfold.
    induction venvs as [|v vs IH]; [done|].
    simpl. rewrite length_app, IH. unfold matches_in.
    by rewrite length_map.
  - by rewrite !find_package_unfold, lower_idem.
  - rewrite find_package_unfold. apply List.flat_map_ext. intros v0.
    unfold matches_in. f_equal. simpl.
    induction (packages (indexed v0)) as [|p l IH]; [done|].
    simpl. by rewrite contains_empty, IH.
  - intros Hstable pkg v. rewrite find_package_unfold.
    rewrite list_elem_of_In, List.in_flat_map.
    intros (v1 & Hv1 & Hin).
    apply List.in_map_iff in Hv1 as (v0 & <- & Hv0).
    assert (Hidem : indexed (indexed v0) = indexed v0).
    { unfold as_indexed. destruct (packages_loaded v0) eqn:Hl; simpl.
      - by rewrite Hl.
      - destruct (packages_loaded (probe v0)) eqn:Hl'; simpl; [done|].
        by apply Hstable. }
    rewrite Hidem in Hin. unfold matches_in in Hin.
    apply List.in_map_iff in Hin as (pkg' & [= -> <-] & Hf).
    apply List.filter_In in Hf as [Hp _].
    rewrite build_map_lookup. unfold entries_of.
    apply list_elem_of_In, List.in_flat_map. exists v0. split; [done|].
    unfold entries_in. apply List.in_map_iff. exists pkg. split; [done|].
    apply List.filter_In. split; [done|].
    by apply bool_decide_eq_true.
Qed.

(** A key that is present has at least one entry, and is lower-case. *)
Lemma build_map_present (venvs : list VirtualEnv) k installs :
  PackageAnalyzer._build_map probe venvs !! k = Some installs ->
  installs <> [] /\ Str.lower k = k.
Proof.
  unfold PackageAnalyzer._build_map.
  assert (Hinv : forall vs (m0 : gmap string (list PackageAnalyzer.Install)),
    (forall k l, m0 !! k = Some l -> l <> [] /\ Str.lower k = k) ->
    forall k l,
      fold_left (fun m venv =>
        let venv := if negb (packages_loaded venv) then probe venv
                    else venv in
        fold_left (fun m pkg =>
          PackageAnalyzer.map_append (Str.lower (pkg_name pkg))
            (pkg_version pkg, venv) m) (packages venv) m) vs m0 !! k
      = Some l -> l <> [] /\ Str.lower k = k).
  { induction vs as [|v vs IH]; intros m0 Hm0; simpl; [exact Hm0|].
    apply IH. clear IH.
    set (v' := if negb (packages_loaded v) then probe v else v).
    generalize (packages v'). intros pkgs. revert m0 Hm0.
    induction pkgs as [|pkg pkgs IHp]; intros m0 Hm0; simpl; [exact Hm0|].
    apply IHp. intros k' l. unfold PackageAnalyzer.map_append.
    destruct (decide (Str.lower (pkg_name pkg) = k')) as [<- | Hne].
    - rewrite lookup_insert_eq. intros [= <-].
      split; [|apply lower_idem].
      by destruct (default [] (m0 !! Str.lower (pkg_name pkg))).
    - rewrite lookup_insert_ne by done. apply Hm0. }
  apply Hinv. intros k' l Hk. by rewrite lookup_empty in Hk.
Qed.

(** The index under a key, as an optional list. *)
Lemma build_map_lookup_Some (venvs : list VirtualEnv) k :
  PackageAnalyzer._build_map probe venvs !! k
  = if decide (entries_of probe k venvs = []) then None
    else Some (entries_of probe k venvs).
Proof.
  pose proof (build_map_lookup probe venvs k) as Hl.
  destruct (PackageAnalyzer._build_map probe venvs !! k) as [l|] eqn:Hk;
    simpl in Hl.
  - destruct (build_map_present venvs k l Hk) as [Hne _].
    rewrite <- Hl. by destruct (decide (l = [])).
  - rewrite <- Hl. by destruct (decide ([] = [])).
Qed.

(** X11: The index, entry by entry: under a key stand exactly the (version,
    environment) pairs of the packages whose lower-cased name is the key,
    so names that differ in case only share an entry; a key that is
    present has at least one entry, and every key is lower-case. *)
Theorem index_entries (venvs : list VirtualEnv) :
  let m := PackageAnalyzer._build_map probe venvs in
  (forall k ver v,
      (ver, v) ∈ default [] (m !! k)
      <-> exists v0 pkg, v0 ∈ venvs /\ v = indexed v0 /\ pkg ∈ packages v
                         /\ pkg_version pkg = ver
                         /\ Str.lower (pkg_name pkg) = k)
  /\ (forall k installs, m !! k = Some installs ->
        installs <> [] /\ Str.lower k = k).
Proof.
  intros m. split; [|apply build_map_present].
  intros k ver v. subst m. rewrite build_map_lookup. unfold entries_of.
  rewrite list_elem_of_In, List.in_flat_map. unfold entries_in. split.
  - intros (v0 & Hv0 & Hin). apply List.in_map_iff in Hin
      as (pkg & [= <- <-] & Hf).
    apply List.filter_In in Hf as [Hp Hk%bool_decide_eq_true].
    exists v0, pkg. split_and!; try done; by apply list_elem_of_In.
  - intros (v0 & pkg & Hv0 & -> & Hp & <- & <-). exists v0.
    split; [by apply list_elem_of_In|].
    apply List.in_map_iff. exists pkg. split; [done|].
    apply List.filter_In. split; [by apply list_elem_of_In|].
    by apply bool_decide_eq_true.
Qed.

(** More than one element: two that differ. *)
Lemma size_gt_1 (X : gset string) :
  1 < size X <-> exists x y, x ∈ X /\ y ∈ X /\ x <> y.
Proof.
  split.
  - intros Hsize.
    destruct (size_pos_elem_of X) as [x Hx]; [lia|].
    destruct (size_pos_elem_of (X ∖ {[x]})) as [y Hy].
    { rewrite size_difference by set_solver. rewrite size_singleton. lia. }
    exists x, y. set_solver.
  - intros (x & y & Hx & Hy & Hxy).
    assert (Hsub : ({[x]} ∪ {[y]} : gset string) ⊆ X) by set_solver.
    apply subseteq_size in Hsub.
    rewrite size_union in Hsub by set_solver.
    rewrite !size_singleton in Hsub. lia.
Qed.

(** X12: What the two reports of the analysis hold. [get_duplicates] keeps
    the names with more than one listing, and gives each with all its
    listings, in environment order: two listings in one environment, or
    one environment found under two paths, count as well as two
    environments. [get_version_conflicts] keeps the names of which two
    listings differ in version, and gives each with the set of all its
    versions; a name whose listings agree on the version is a duplicate
    but no conflict. *)
Theorem analysis_reports (venvs : list VirtualEnv) (k : string) :
  let m := PackageAnalyzer._build_map probe venvs in
  let listings := entries_of probe k venvs in
  PackageAnalyzer.get_duplicates m !! k
  = (if decide (1 < length listings) then Some listings else None)
  /\ (forall versions,
        PackageAnalyzer.get_version_conflicts m !! k = Some versions
        <-> versions = list_to_set (List.map fst listings)
            /\ exists i1 i2, i1 ∈ listings /\ i2 ∈ listings /\ i1.1 <> i2.1)
  /\ ((forall i1 i2, i1 ∈ listings -> i2 ∈ listings -> i1.1 = i2.1) ->
      PackageAnalyzer.get_version_conflicts m !! k = None).
Proof.
  intros m listings.
  assert (Hm : m !! k = if decide (listings = []) then None
                        else Some listings) by apply build_map_lookup_Some.
  assert (Hvers : 1 < size (PackageAnalyzer.versions_of listings)
                  <-> exists i1 i2, i1 ∈ listings /\ i2 ∈ listings
                                    /\ i1.1 <> i2.1).
  { rewrite size_gt_1. unfold PackageAnalyzer.versions_of. split.
    - intros (x & y & Hx & Hy & Hxy).
      apply elem_of_list_to_set, list_elem_of_In, List.in_map_iff in Hx
        as (i1 & <- & H1%list_elem_of_In).
      apply elem_of_list_to_set, list_elem_of_In, List.in_map_iff in Hy
        as (i2 & <- & H2%list_elem_of_In).
      by exists i1, i2.
    - intros (i1 & i2 & H1 & H2 & Hne). exists i1.1, i2.1.
      split_and!; [| |done];
        apply elem_of_list_to_set, list_elem_of_In, List.in_map;
        by apply list_elem_of_In. }
  assert (Hconf : forall versions,
        PackageAnalyzer.get_version_conflicts m !! k = Some versions
        <-> versions = list_to_set (List.map fst listings)
            /\ exists i1 i2, i1 ∈ listings /\ i2 ∈ listings /\ i1.1 <> i2.1).
  { intros versions. unfold PackageAnalyzer.get_version_conflicts.
    rewrite lookup_fmap, <- Hvers. split.
    - destruct (filter _ m !! k) as [l|] eqn:Hf; [|done].
      apply map_lookup_filter_Some in Hf as [Hl Hsz]. simpl in Hsz.
      rewrite Hm in Hl. destruct (decide (listings = [])); [done|].
      injection Hl as <-. by intros [= <-].
    - intros [-> Hsz].
      assert (Hne : listings <> []).
      { intros Hnil. rewrite Hnil in Hsz.
        change (1 < size (∅ : gset string)) in Hsz.
        rewrite size_empty in Hsz. lia. }
      rewrite (map_lookup_filter_Some_2 _ _ k listings); [done| |done].
      rewrite Hm. by destruct (decide (listings = [])). }
  split; [|split; [exact Hconf|]].
  - unfold PackageAnalyzer.get_duplicates.
    destruct (decide (1 < length listings)) as [Hlen | Hlen].
    + apply map_lookup_filter_Some_2; [|done].
      rewrite Hm. destruct (decide (listings = [])) as [Hnil|]; [|done].
      rewrite Hnil in Hlen. simpl in Hlen. lia.
    + apply map_lookup_filter_None_2. rewrite Hm.
      destruct (decide (listings = [])); [by left | right].
      intros l [= <-]. done.
  - intros Hagree.
    destruct (PackageAnalyzer.get_version_conflicts m !! k) as [versions|]
      eqn:Hc; [|done].
    destruct (proj1 (Hconf versions) eq_refl) as (_ & i1 & i2 & H1 & H2 & Hne).
    by specialize (Hagree i1 i2 H1 H2).
Qed.

End IndexAndSearch.

(* ====================================================================== *)
(** * Further properties: what the recursive scan covers *)
(* ====================================================================== *)

Section ScanCoverage.
Variable os : OS.

(** The entries that the loop of [scan_dir] passes over: files, hidden
    directories other than the project environment names, and the
    excluded directory names. *)
Definition scan_skips (e : DirEntry) : bool :=
  negb (entry_is_dir e)
  || (Str.startswith (entry_name e) "."
      && negb (Str.mem (entry_name e) PROJECT_VENV_NAMES))
  || Str.mem (entry_name e) scan_excluded.

(** [scan_finds max_depth depth d key]: below the directory [d], taken at
    depth [depth], stands an environment with key [key], through readable
    directories that are not skipped and are not environments, the last
    of them at a depth of at most [max_depth]. *)
Inductive scan_finds (max_depth : nat) : nat -> string -> string -> Prop :=
  | finds_here depth d entries e :
      depth <= max_depth ->
      scandir os d = Entries entries -> e ∈ entries ->
      scan_skips e = false ->
      is_venv os (entry_path d e) = true ->
      scan_finds max_depth depth d (abspath os (entry_path d e))
  | finds_below depth d entries e key :
      depth <= max_depth ->
      scandir os d = Entries entries -> e ∈ entries ->
      scan_skips e = false ->
      is_venv os (entry_path d e) = false ->
      scan_finds max_depth (S depth) (entry_path d e) key ->
      scan_finds max_depth depth d key.

Lemma scan_skips_false (e : DirEntry) :
  scan_skips e = false
  <-> entry_is_dir e = true
      /\ Str.startswith (entry_name e) "."
         && negb (Str.mem (entry_name e) PROJECT_VENV_NAMES) = false
      /\ Str.mem (entry_name e) scan_excluded = false.
Proof.
  unfold scan_skips. rewrite !orb_false_iff, negb_false_iff. tauto.
Qed.

Lemma scan_keys_sound (max_depth fuel : nat) (d : string) (depth : nat)
    (key : string) :
  key ∈ scan_keys os max_depth fuel d depth ->
  scan_finds max_depth depth d key.
Proof.
  revert d depth. induction fuel as [|fuel IH]; intros d depth; simpl.
  - intros H. by apply elem_of_nil in H.
  - destruct (max_depth <? depth) eqn:Hd;
      [intros H; by apply elem_of_nil in H|].
    apply Nat.ltb_ge in Hd.
    destruct (scandir os d) as [entries| |] eqn:Hscan;
      try (intros H; by apply elem_of_nil in H).
    intros (e & He%list_elem_of_In & Hk)%list_elem_of_In%List.in_flat_map.
    destruct (entry_is_dir e) eqn:Hdir; simpl in Hk; [|done].
    destruct (Str.startswith (entry_name e) "."
              && negb (Str.mem (entry_name e) PROJECT_VENV_NAMES)) eqn:Hhid;
      [done|].
    destruct (Str.mem (entry_name e) scan_excluded) eqn:Hexc; [done|].
    assert (Hskip : scan_skips e = false) by by apply scan_skips_false.
    destruct (is_venv os (entry_path d e)) eqn:Hvenv.
    + destruct Hk as [<- | []]. by eapply finds_here.
    + eapply finds_below; try done. by apply IH, list_elem_of_In.
Qed.








Lemma made_genuine {R} (ctor : string -> result R) (P : string -> Prop)
    (keys : list string) (records : list R) :
  made ctor keys records -> Forall P keys ->
  Forall (fun r => exists k, P k /\ ctor k = Returns r) records.
Proof.
  induction 1 as [|k r keys records Hkr _ IH]; intros HP; [constructor|].
  apply Forall_cons in HP as [Hk HP].
  constructor; [by exists k | by apply IH].
Qed.

(** X14: What the two discoveries list is genuine: every environment record
    is the record made for the absolute path of a directory that
    [is_venv] accepts, and every interpreter record is the record made
    for the resolved, absolute path of a file that exists and is
    executable. *)
Theorem discovered_records_genuine :
  (forall scan_path use_mdfind max_depth venvs,
      find_venvs os scan_path use_mdfind max_depth = Returns venvs ->
      Forall (fun v => exists p, is_venv os p = true
                                 /\ new_VirtualEnv os (abspath os p)
                                    = Returns v)
             venvs)
  /\ (forall use_mdfind interps,
         find_python_interpreters os use_mdfind = Returns interps ->
         Forall (fun r => exists p,
                   path_exists os p = true /\ access_X_OK os p = true
                   /\ new_PythonInterpreter os
                        (abspath os (realpath os p)) = Returns r)
                interps).
Proof.
  split.
  - intros scan_path use_mdfind max_depth venvs
      (keys & _ & Hmade & Hkeys)%find_venvs_keyed.
    eapply Forall_impl; [by eapply made_genuine|].
    intros v (k & (p & Hp & ->) & Hv). by exists p.
  - intros use_mdfind interps
      (keys & _ & Hmade & Hkeys)%find_python_interpreters_keyed.
    eapply Forall_impl; [by eapply made_genuine|].
    intros r (k & (p & He & Hx & ->) & Hr). by exists p.
Qed.

End ScanCoverage.

(* ====================================================================== *)
(** * Further operations and properties: shortened paths *)
(* ====================================================================== *)

(** [shorten_path]; [max_len] is an [int] (the detail view passes the
    screen width less 12). A string is a sequence of 8-bit characters:
    [String.length] is [len] on the paths that such a string can hold,
    those of characters below 256, ASCII among them. *)
Definition shorten_path (path : string) (max_len : Z) : string :=
  if (Z.of_nat (String.length path) <=? max_len)%Z then path
  else
    let parts := Str.split "/" path in
    if length parts <=? 3 then path
    else (".../" ++ Str.join "/" (drop (length parts - 2) parts))%string.

Section ShortenedPaths.

Lemma split_nonempty sep (s : string) : Str.split sep s <> [].
Proof.
  induction s as [|c s IH]; simpl; [done|].
  destruct (Ascii.eqb c sep); [done|]. by destruct (Str.split sep s).
Qed.

Lemma split_parts_free sep (s : string) :
  Forall (fun y => Str.free_of sep y = true) (Str.split sep s).
Proof.
  induction s as [|c s IH]; simpl; [by repeat constructor|].
  destruct (Ascii.eqb c sep) eqn:Hc; [by constructor|].
  destruct (Str.split sep s) as [|h l].
  { constructor; [|constructor]. simpl. by rewrite Hc. }
  inversion IH as [|? ? Hh Hl]; subst. constructor; [|done].
  simpl. by rewrite Hc, Hh.
Qed.

(** Joining undoes splitting. *)
Lemma join_split sep (s : string) :
  Str.join (String sep EmptyString) (Str.split sep s) = s.
Proof.
  induction s as [|c s IH]; simpl; [done|].
  pose proof (split_nonempty sep s) as Hne.
  destruct (Ascii.eqb c sep) eqn:Hc.
  - apply Ascii.eqb_eq in Hc as ->.
    destruct (Str.split sep s) as [|h l]; [done|].
    by rewrite <- IH.
  - destruct (Str.split sep s) as [|h l]; [done|].
    destruct l as [|h' l]; by rewrite <- IH.
Qed.

Lemma append_assoc (a b c : string) :
  ((a ++ b) ++ c = a ++ b ++ c)%string.
Proof.
  induction a as [|x a IH]; [done|].
  change (String x ((a ++ b) ++ c) = String x (a ++ b ++ c))%string.
  by rewrite IH.
Qed.

Lemma join_app (sep : string) (l1 l2 : list string) :
  l1 <> [] -> l2 <> [] ->
  Str.join sep (l1 ++ l2) = (Str.join sep l1 ++ sep ++ Str.join sep l2)%string.
Proof.
  intros H1 H2. induction l1 as [|x l1 IH]; [done|].
  destruct l1 as [|y l1].
  - simpl. by destruct l2.
  - change (Str.join sep ((x :: y :: l1) ++ l2))
      with (x ++ sep ++ Str.join sep ((y :: l1) ++ l2))%string.
    rewrite IH by done.
    change (Str.join sep (x :: y :: l1))
      with (x ++ sep ++ Str.join sep (y :: l1))%string.
    by rewrite !append_assoc.
Qed.

(** The last two of more than three parts. *)
Lemma last_two_parts (parts : list string) :
  3 < length parts ->
  exists front a b,
    parts = front ++ [a; b] /\ front <> []
    /\ drop (length parts - 2) parts = [a; b].
Proof.
  intros Hlen.
  pose proof (take_drop (length parts - 2) parts) as Hsplit.
  pose proof (length_drop parts (length parts - 2)) as Hdrop.
  destruct (drop (length parts - 2) parts) as [|a [|b [|c rest]]] eqn:Hd;
    simpl in Hdrop; try lia.
  exists (take (length parts - 2) parts), a, b. split; [done|]. split; [|done].
  intros Hnil. apply (f_equal length) in Hnil. rewrite length_take in Hnil.
  simpl in Hnil. lia.
Qed.

(** X17: [shorten_path], on paths of 8-bit characters: the result is the
    path itself when the path is no longer than [max_len], and when it
    has at most three parts between slashes; otherwise, for a longer
    path of more than three parts, it is [.../a/b] where [a] and [b] are
    the last two parts of the path. So the result is the path or such a
    text; it has the base name of the path, and shortening it again
    changes nothing. The result is no bound on the length: it can be
    longer than [max_len], and longer than the path. *)
Theorem shorten_path_shape (path : string) (max_len : Z) :
  let r := shorten_path path max_len in
  (length (Str.split "/" path) <= 3 -> r = path)
  /\ ((max_len < Z.of_nat (String.length path))%Z ->
      3 < length (Str.split "/" path) ->
      forall front a b,
        Str.split "/" path = front ++ [a; b] ->
        r = (".../" ++ a ++ "/" ++ b)%string)
  /\ (r = path
   \/ exists front a b,
        path = (front ++ "/" ++ a ++ "/" ++ b)%string
        /\ Str.free_of "/" a = true /\ Str.free_of "/" b = true
        /\ r = (".../" ++ a ++ "/" ++ b)%string)
  /\ ((Z.of_nat (String.length path) <= max_len)%Z -> r = path)
  /\ basename r = basename path
  /\ shorten_path r max_len = r
  /\ (exists p,
        (50 < Z.of_nat (String.length (shorten_path p 50)))%Z
        /\ String.length p < String.length (shorten_path p 50)).
Proof.
  intros r.
  assert (Hcases :
    r = path
    \/ exists front a b,
         (max_len < Z.of_nat (String.length path))%Z
         /\ path = (front ++ "/" ++ a ++ "/" ++ b)%string
         /\ Str.free_of "/" a = true /\ Str.free_of "/" b = true
         /\ r = (".../" ++ a ++ "/" ++ b)%string
         /\ basename path = b).
  { subst r. unfold shorten_path.
    destruct (Z.of_nat (String.length path) <=? max_len)%Z eqn:Hlen;
      [by left|].
    apply Z.leb_gt in Hlen.
    destruct (length (Str.split "/" path) <=? 3) eqn:Hparts; [by left|].
    apply Nat.leb_gt in Hparts. right.
    destruct (last_two_parts _ Hparts)
      as (front & a & b & Hsplit & Hfront & ->).
    pose proof (split_parts_free "/" path) as Hfree.
    rewrite Hsplit, Forall_app in Hfree. destruct Hfree as [_ Hfree].
    inversion Hfree as [|? ? Ha Hfree']; subst.
    inversion Hfree' as [|? ? Hb _]; subst.
    exists (Str.join "/" front), a, b. split_and!; try done.
    - rewrite <- (join_split "/" path) at 1. rewrite Hsplit.
      by rewrite join_app.
    - unfold basename. rewrite Hsplit.
      change [a; b] with ([a] ++ [b]). rewrite app_assoc.
      apply List.last_last. }
  assert (Hres : forall a b,
    Str.free_of "/" a = true -> Str.free_of "/" b = true ->
    Str.split "/" (".../" ++ a ++ "/" ++ b) = ["..."; a; b]%string).
  { intros a b Ha Hb.
    change (".../" ++ a ++ "/" ++ b)%string
      with ("..." ++ String "/" (Str.join "/" [a; b]))%string.
    rewrite split_cons_sep by done. rewrite split_join; [done|].
    by repeat constructor. }
  split; [|split; [|split; [|split; [|split; [|split]]]]].
  - intros Hparts%Nat.leb_le. subst r. unfold shorten_path.
    rewrite Hparts. by destruct (_ <=? max_len)%Z.
  - intros Hlong%Z.leb_gt Hparts%Nat.leb_gt front a b Hsplit.
    subst r. unfold shorten_path. rewrite Hlong, Hparts, Hsplit.
    replace (length (front ++ [a; b]) - 2) with (length front)
      by (rewrite length_app; simpl; lia).
    by rewrite drop_app_length.
  - destruct Hcases as [Hr | (front & a & b & _ & Hp & Ha & Hb & Hr & _)];
      [by left | right]. by exists front, a, b.
  - intros Hle. destruct Hcases as [Hr | (front & a & b & Hgt & _)];
      [done | lia].
  - destruct Hcases as [-> | (front & a & b & _ & _ & Ha & Hb & -> & <-)];
      [done|].
    unfold basename at 1. by rewrite Hres.
  - destruct Hcases as [Hr | (front & a & b & _ & _ & Ha & Hb & Hr & _)].
    + rewrite Hr at 1. reflexivity.
    + rewrite Hr. unfold shorten_path. rewrite Hres by done. simpl.
      by destruct (_ <=? max_len)%Z.
  - exists "/u/aaaaaaaaaaaaaaaaaaaaaaaaa/bbbbbbbbbbbbbbbbbbbbbbbbb"%string.
    by vm_compute.
Qed.

End ShortenedPaths.

(* ====================================================================== *)
(** * Further operations: the commands that delete and uninstall *)
(* ====================================================================== *)

(** How a command ends: it returns an exit status, or an exception that
    it does not catch leaves it. *)
Inductive Ending :=
  | Returned (status : Z)
  | Escaped.

(** A call that deletes: [shutil.rmtree(p)] or [os.remove(p)]. *)
Inductive Removal :=
  | Rmtree (p : string)
  | Remove (p : string).

Definition removal_path (r : Removal) : string :=
  match r with Rmtree p | Remove p => p end.

Definition pip_uninstall_argv (exe package_name : string) : list string :=
  [exe; "-m"; "pip"; "uninstall"; "-y"; package_name].

Section Commands.
(** The machine changes while a command runs: [machine w] is what the
    program sees of it in the state [w]; running a process, removing a
    tree and removing a file change the state, the last two returning
    ([true]) or raising ([false]). *)
Variable World : Type.
Variable machine : World -> OS.
Variable exec : list string -> World -> World.
Variable rmtree : string -> World -> World * bool.
Variable remove : string -> World -> World * bool.

(** [cmd_clean], given [args.target], [args.dry_run], [args.yes] and the
    line that [input] reads ([None] when it raises [EOFError]). The size
    that the command prints is not modelled. The result carries the
    calls that delete. *)
Definition cmd_clean (target : option string) (dry_run yes : bool)
    (answer : option string) (w : World) : Ending * World * list Removal :=
  let os := machine w in
  match target with
  | None => (Returned 1, w, [])
  | Some given =>
      if String.eqb given EmptyString then (Returned 1, w, [])
      else
        let target := abspath os given in
        if negb (path_exists os target) then (Returned 1, w, [])
        else if is_system_path os target then (Returned 1, w, [])
        else if dry_run then (Returned 0, w, [])
        else
          let delete (_ : unit) :=
            if isdir os target
            then let '(w', ok) := rmtree target w in
                 (Returned (if ok then 0 else 1), w', [Rmtree target])
            else let '(w', ok) := remove target w in
                 (Returned (if ok then 0 else 1), w', [Remove target]) in
          if yes then delete tt
          else match answer with
               | None => (Escaped, w, [])
               | Some response =>
                   if affirmative response then delete tt
                   else (Returned 0, w, [])
               end
  end.

(** [VirtualEnv.uninstall_package]: the value returned or the exception
    raised, the machine afterwards, and the commands run. *)
Definition uninstall_package (self : VirtualEnv) (package_name : string)
    (dry_run : bool) (w : World) : result bool * World * list (list string) :=
  match python_executable self with
  | None => (Returns false, w, [])
  | Some exe =>
      if dry_run then (Returns true, w, [])
      else
        let argv := pip_uninstall_argv exe package_name in
        match subprocess_run (machine w) argv with
        | Completed rc _ => (Returns (rc =? 0)%Z, exec argv w, [argv])
        | TimeoutExpired | FileNotFoundError =>
            (Returns false, exec argv w, [argv])
        | PermissionError => (Raises OSError, exec argv w, [argv])
        end
  end.

(** [VirtualEnv(path)] on the changing machine: the record, and the
    machine after the version probe, when the environment has an
    executable; [None] when the probe raises. Size and age are read
    after the probe has run. *)
Definition make_VirtualEnv (p : string) (w : World)
  : option (VirtualEnv * World) :=
  match new_VirtualEnv (machine w) p with
  | Raises _ => None
  | Returns v =>
      match python_executable v with
      | None => Some (v, w)
      | Some exe =>
          let w1 := exec [exe; "-c"; version_cmd] w in
          Some ({| path := path v;
                   name := name v;
                   project_name := project_name v;
                   python_version := python_version v;
                   manager := manager v;
                   size_bytes := dir_size (machine w1) (path v);
                   last_modified := getmtime (machine w1) (path v);
                   packages := packages v;
                   python_executable := python_executable v;
                   packages_loaded := packages_loaded v |}, w1)
      end
  end.

(** [cmd_uninstall], given [args.package], [args.from_venv] and
    [args.dry_run]; the result carries the [pip uninstall] commands
    run. *)
Definition cmd_uninstall (package from_venv : string) (dry_run : bool)
    (w : World) : Ending * World * list (list string) :=
  let venv_path := abspath (machine w) from_venv in
  if negb (is_venv (machine w) venv_path) then (Returned 1, w, [])
  else
    match make_VirtualEnv venv_path w with
    | None => (Escaped, w, [])
    | Some (env, w1) =>
        if dry_run then (Returned 0, w1, [])
        else
          match uninstall_package env package dry_run w1 with
          | (Returns success, w2, cmds) =>
              (Returned (if success then 0 else 1), w2, cmds)
          | (Raises _, w2, cmds) => (Escaped, w2, cmds)
          end
    end.

(** The running state of an uninstall batch: the machine, the
    [uninstalled] counter, and the commands run so far. *)
Record Uninstalling := mkUninstalling {
  u_world : World;
  u_uninstalled : nat;
  u_commands : list (list string);
}.

(** One iteration of the loop of [_confirm_uninstall]: an exception of
    the call is caught and leaves the counter as it is. *)
Definition uninstall_step (sv : VirtualEnv) (idx : nat) (b : Uninstalling)
  : Uninstalling :=
  match packages sv !! idx with
  | Some pkg =>
      match uninstall_package sv (pkg_name pkg) false (u_world b) with
      | (Returns _, w', cmds) =>
          mkUninstalling w' (S (u_uninstalled b)) (u_commands b ++ cmds)
      | (Raises _, w', cmds) =>
          mkUninstalling w' (u_uninstalled b) (u_commands b ++ cmds)
      end
  | None => b
  end.

(** [sorted(selected_items)] *)
Definition sorted_ascending (s : gset nat) : list nat :=
  merge_sort le (elements s).

(** How [_confirm_uninstall] ends: it returns, or the forced probe that
    ends it stores a package that is not typed, or raises. *)
Inductive UninstallOutcome :=
  | Uninstalled (t : TUI)
  | ProbeUntyped
  | ProbeRaised (e : exn).

(** [_confirm_uninstall], given the answer read at the prompt (["n"]
    when reading failed). The environment bound in [selected_venv] is an
    object of the list [venvs] as well: Enter binds [venvs[cursor]]. The
    forced probe reloads that object in place, which changes the list
    too: [position] is where the object stands in the list, if it does.
    The world of the result is the machine before the final probe runs
    [pip list]. *)
Definition _confirm_uninstall (response : string) (position : option nat)
    (t : TUI) (w : World) : UninstallOutcome * Uninstalling :=
  let b0 := mkUninstalling w 0 [] in
  match selected_venv t with
  | None => (Uninstalled t, b0)
  | Some sv =>
      if bool_decide (selected_items t = ∅) then (Uninstalled t, b0)
      else if affirmative response then
        let b := fold_left (fun b idx => uninstall_step sv idx b)
                   (sorted_ascending (selected_items t)) b0 in
        match probe_packages (machine (u_world b)) sv true with
        | Done sv' =>
            let t := set_selected_items ∅ t in
            let t := set_selected_venv (Some sv') t in
            let t := set_venvs
                       match position with
                       | Some i => <[i := sv']> (venvs t)
                       | None => venvs t
                       end t in
            (Uninstalled
               (set_cursor
                  (Nat.min (cursor t)
                     (Nat.max 0 (length (packages sv') - 1))) t), b)
        | Untyped => (ProbeUntyped, b)
        | Raised e => (ProbeRaised e, b)
        end
      else (Uninstalled t, b0)
  end.

(** The list comprehension of [cmd_search]. *)
Definition matching_venvs (pattern : string) (venvs : list VirtualEnv)
  : list VirtualEnv :=
  List.filter (fun v =>
    Str.contains (Str.lower pattern) (Str.lower (project_name v))
    || Str.contains (Str.lower pattern) (Str.lower (path v))) venvs.

End Commands.

Arguments mkUninstalling {World}.
Arguments u_world {World}.
Arguments u_uninstalled {World}.
Arguments u_commands {World}.

(* ====================================================================== *)
(** * Further properties: the commands that delete and uninstall *)
(* ====================================================================== *)

Section CommandProperties.
Variable World : Type.
Variable machine : World -> OS.
Variable exec : list string -> World -> World.
Variable rmtree : string -> World -> World * bool.
Variable remove : string -> World -> World * bool.

Ltac quiet :=
  simpl; split_and!; try done; try lia;
  try (by intros ? ?%elem_of_nil); try (intros; split; congruence).

(** X19: [cmd_clean] deletes at most once, and only what it should: a call
    that deletes is for the absolute path of a target that was given,
    exists and is not a protected system path, outside a dry run, after
    [--yes] or an affirmative answer, with [rmtree] for a directory and
    [remove] otherwise; without such a call the machine is left as it
    was; the status is 0 after a deletion exactly when the call
    returned, and a dry run or a declined prompt ends with status 0
    or 1 and no deletion. *)
Theorem cmd_clean_guarded (target : option string) (dry_run yes : bool)
    (answer : option string) (w : World) :
  let r := cmd_clean World machine rmtree remove target dry_run yes answer w in
  let os := machine w in
  length r.2 <= 1
  /\ (r.2 = [] -> r.1.2 = w)
  /\ (forall d, d ∈ r.2 ->
        exists given,
          target = Some given /\ given <> EmptyString
          /\ removal_path d = abspath os given
          /\ path_exists os (abspath os given) = true
          /\ is_system_path os (abspath os given) = false
          /\ dry_run = false
          /\ (yes = true
              \/ exists response, answer = Some response
                                  /\ affirmative response = true)
          /\ (d = Rmtree (abspath os given)
              <-> isdir os (abspath os given) = true)
          /\ (r.1.1 = Returned 0
              <-> (if isdir os (abspath os given)
                   then (rmtree (abspath os given) w).2
                   else (remove (abspath os given) w).2) = true))
  /\ (dry_run = true -> r.2 = [] /\ r.1.1 <> Escaped)
  /\ (yes = false ->
      (forall response, answer = Some response ->
                        affirmative response = false) ->
      r.2 = []).
Proof.
  intros r os. subst r os. unfold cmd_clean.
  destruct target as [given|]; [|quiet].
  destruct (String.eqb given EmptyString) eqn:Hgiven;
    [quiet|].
  apply String.eqb_neq in Hgiven.
  destruct (path_exists (machine w) (abspath (machine w) given)) eqn:Hex;
    simpl; [|quiet].
  destruct (is_system_path (machine w) (abspath (machine w) given)) eqn:Hsys;
    [quiet|].
  destruct dry_run; [quiet|].
  assert (Hdel : forall e : Ending * World * list Removal,
    (yes = true \/ exists response, answer = Some response
                                    /\ affirmative response = true) ->
    e = (if isdir (machine w) (abspath (machine w) given)
         then let '(w', ok) := rmtree (abspath (machine w) given) w in
              (Returned (if ok then 0 else 1), w',
               [Rmtree (abspath (machine w) given)])
         else let '(w', ok) := remove (abspath (machine w) given) w in
              (Returned (if ok then 0 else 1), w',
               [Remove (abspath (machine w) given)])) ->
    length e.2 <= 1
    /\ (e.2 = [] -> e.1.2 = w)
    /\ (forall d, d ∈ e.2 ->
          exists given',
            Some given = Some given' /\ given' <> EmptyString
            /\ removal_path d = abspath (machine w) given'
            /\ path_exists (machine w) (abspath (machine w) given') = true
            /\ is_system_path (machine w) (abspath (machine w) given') = false
            /\ false = false
            /\ (yes = true
                \/ exists response, answer = Some response
                                    /\ affirmative response = true)
            /\ (d = Rmtree (abspath (machine w) given')
                <-> isdir (machine w) (abspath (machine w) given') = true)
            /\ (e.1.1 = Returned 0
                <-> (if isdir (machine w) (abspath (machine w) given')
                     then (rmtree (abspath (machine w) given') w).2
                     else (remove (abspath (machine w) given') w).2) = true))).
  { intros e Hconf ->.
    destruct (isdir (machine w) (abspath (machine w) given)) eqn:Hdir.
    - destruct (rmtree (abspath (machine w) given) w) as [w' ok] eqn:Hrm.
      simpl. split; [lia|]. split; [done|].
      intros d ->%list_elem_of_singleton. exists given.
      split_and!; rewrite ?Hdir, ?Hrm; try done;
        destruct ok; simpl; split; congruence.
    - destruct (remove (abspath (machine w) given) w) as [w' ok] eqn:Hrm.
      simpl. split; [lia|]. split; [done|].
      intros d ->%list_elem_of_singleton. exists given.
      split_and!; rewrite ?Hdir, ?Hrm; try done;
        destruct ok; simpl; split; congruence. }
  destruct yes.
  - destruct (Hdel _ (or_introl eq_refl) eq_refl) as (H1 & H2 & H3).
    split_and!; try done.
  - destruct answer as [response|];
      [|quiet].
    destruct (affirmative response) eqn:Hyes.
    + assert (Hconf : false = true
                      \/ exists response0, Some response = Some response0
                                           /\ affirmative response0 = true)
        by (right; by exists response).
      destruct (Hdel _ Hconf eq_refl) as (H1 & H2 & H3).
      split_and!; try done.
      intros _ Hno. specialize (Hno response eq_refl). congruence.
    + quiet.
Qed.

Ltac calm :=
  simpl; split_and!; try done; try lia;
  try (by intros ? ?%elem_of_nil);
  try (intros; split; [done | first [by left | by right]]).

(** X20: [cmd_uninstall] runs [pip uninstall] at most once: only outside a
    dry run, for a directory that [is_venv] accepts and that has an
    executable, and then for the package given, with [-y]; the status is
    0 exactly when that run exits with status 0. A dry run ends with
    status 0 for every environment, also one without an executable,
    where the run itself would fail. *)
Theorem cmd_uninstall_runs_pip_once (package from_venv : string)
    (dry_run : bool) (w : World) :
  let r := cmd_uninstall World machine exec package from_venv dry_run w in
  let venv_path := abspath (machine w) from_venv in
  let executable :=
    detect_executable (machine w) (abspath (machine w) venv_path) in
  length r.2 <= 1
  /\ (forall argv, argv ∈ r.2 ->
        dry_run = false /\ is_venv (machine w) venv_path = true
        /\ exists exe w1 env1,
             executable = Some exe
             /\ make_VirtualEnv World machine exec venv_path w
                = Some (env1, w1)
             /\ python_executable env1 = Some exe
             /\ argv = pip_uninstall_argv exe package
             /\ (r.1.1 = Returned 0
                 <-> exists out,
                       subprocess_run (machine w1) argv = Completed 0 out))
  /\ (is_venv (machine w) venv_path = false ->
      r = (Returned 1, w, []))
  /\ (dry_run = true -> is_venv (machine w) venv_path = true ->
      r.2 = [] /\ (r.1.1 = Returned 0 \/ r.1.1 = Escaped))
  /\ (dry_run = false -> is_venv (machine w) venv_path = true ->
      executable = None -> r = (Returned 1, w, [])).
Proof.
  intros r venv_path executable. subst r executable. unfold cmd_uninstall.
  fold venv_path.
  destruct (is_venv (machine w) venv_path) eqn:Hvenv; cbn [negb]; [|calm].
  unfold make_VirtualEnv, new_VirtualEnv.
  destruct (detect_executable (machine w) (abspath (machine w) venv_path))
    as [exe|] eqn:Hexe.
  2:{ cbn [bind python_executable]. destruct dry_run; [calm|].
      unfold uninstall_package. cbn [python_executable]. calm. }
  destruct (detect_version (machine w) exe) as [ver|e];
    cbn [bind python_executable]; [|calm].
  destruct dry_run; [calm|].
  unfold uninstall_package. cbn [python_executable].
  set (w1 := exec [exe; "-c"; version_cmd]%string w).
  set (env1 := mkVirtualEnv _ _ _ _ _ _ _ _ _ _).
  set (argv0 := pip_uninstall_argv exe package).
  assert (Hargv : forall (st : Ending) (w2 : World),
    (st = Returned 0
     <-> exists out, subprocess_run (machine w1) argv0 = Completed 0 out) ->
    forall argv, argv ∈ [argv0] ->
      false = false /\ true = true
      /\ exists exe0 w0 env0,
           Some exe = Some exe0 /\ Some (env1, w1) = Some (env0, w0)
           /\ python_executable env0 = Some exe0
           /\ argv = pip_uninstall_argv exe0 package
           /\ (st = Returned 0
               <-> exists out,
                     subprocess_run (machine w0) argv = Completed 0 out)).
  { intros st w2 Hst argv ->%list_elem_of_singleton.
    split; [done|]. split; [done|]. by exists exe, w1, env1. }
  destruct (subprocess_run (machine w1) argv0) as [rc out| | |] eqn:Hrun;
    cbn [fst snd length];
    (split; [lia|]); (split; [apply (Hargv _ w1) | by split_and!]).
  - destruct (rc =? 0)%Z eqn:Hrc.
    + apply Z.eqb_eq in Hrc as ->. split; [by exists out | done].
    + apply Z.eqb_neq in Hrc. split; [done|].
      intros (out' & [= -> _]). done.
  - split; [done | by intros (out' & ?)].
  - split; [done | by intros (out' & ?)].
  - split; [done | by intros (out' & ?)].
Qed.

End CommandProperties.

Section UninstallBatch.
Variable World : Type.
Variable machine : World -> OS.
Variable exec : list string -> World -> World.

Abbreviation ustep := (uninstall_step World machine exec).







(** A probe that returns leaves the path of the record as it is. *)
Lemma probe_packages_Done_path (os : OS) (sv sv' : VirtualEnv)
    (force : bool) :
  probe_packages os sv force = Done sv' -> path sv' = path sv.
Proof.
  unfold probe_packages.
  repeat (match goal with
          | |- context [if ?c then _ else _] => destruct c
          | |- context [match ?x with _ => _ end] => destruct x
          end); try done; by intros [= <-].
Qed.






End UninstallBatch.





Section SearchCommand.

Lemma matching_venvs_sublist (pattern : string) (vs : list VirtualEnv) :
  sublist (matching_venvs pattern vs) vs.
Proof.
  unfold matching_venvs. induction vs as [|v l IH]; simpl; [done|].
  destruct (Str.contains (Str.lower pattern) (Str.lower (project_name v))
            || Str.contains (Str.lower pattern) (Str.lower (path v)));
    [by apply sublist_skip | by apply sublist_cons].
Qed.

(** X22: The environments that the [search] command lists, against the
    search of the interactive environment list for the same text: the
    command lists environments in discovery order, each at most once;
    the positions of all of them are in the filter of the list view;
    and a position that the filter holds for an environment that the
    command does not list is there because the manager tag contains the
    text, which the command does not look at. *)
Theorem search_command_within_list_filter (pattern : string) (t : TUI) :
  pattern <> EmptyString -> current_view t = venvs_view ->
  let listed := matching_venvs pattern (venvs t) in
  let shown := filtered_items (_start_search pattern t) in
  sublist listed (venvs t)
  /\ (forall v, v ∈ listed
                <-> v ∈ venvs t
                    /\ (Str.contains (Str.lower pattern)
                          (Str.lower (project_name v))
                        || Str.contains (Str.lower pattern)
                             (Str.lower (path v))) = true)
  /\ (forall i v, venvs t !! i = Some v -> v ∈ listed -> i ∈ shown)
  /\ (forall i v, venvs t !! i = Some v -> i ∈ shown -> v ∉ listed ->
        Str.contains (Str.lower pattern)
          (Str.lower (manager_name (manager v))) = true)
  /\ matching_venvs (Str.lower pattern) (venvs t) = listed.
Proof.
  intros Hpat Hview listed shown.
  assert (Hlisted : forall v, v ∈ listed
                <-> v ∈ venvs t
                    /\ (Str.contains (Str.lower pattern)
                          (Str.lower (project_name v))
                        || Str.contains (Str.lower pattern)
                             (Str.lower (path v))) = true).
  { intros v. unfold listed, matching_venvs.
    by rewrite !list_elem_of_In, List.filter_In. }
  assert (Hshown : forall i, i ∈ shown
            <-> exists v, venvs t !! i = Some v
                          /\ (Str.contains (Str.lower pattern)
                                (Str.lower (project_name v))
                              || Str.contains (Str.lower pattern)
                                   (Str.lower (manager_name (manager v)))
                              || Str.contains (Str.lower pattern)
                                   (Str.lower (path v))) = true).
  { intros i. unfold shown, _start_search.
    apply String.eqb_neq in Hpat. rewrite Hpat. cbn [negb].
    unfold _apply_search_filter.
    cbn [filtered_items set_search set_scroll_offset set_cursor current_view
         search_query search_mode venvs].
    rewrite Hview. apply indices_where_spec. }
  split_and!.
  - apply matching_venvs_sublist.
  - exact Hlisted.
  - intros i v Hi [_ Hhit]%Hlisted. apply Hshown. exists v.
    split; [done|]. apply orb_prop in Hhit as [-> | ->]; [done|].
    by rewrite orb_true_r.
  - intros i v Hi (v' & Hi' & Hhit)%Hshown Hnot.
    assert (v' = v) as -> by congruence.
    destruct (Str.contains (Str.lower pattern)
                (Str.lower (manager_name (manager v)))); [done|].
    exfalso. apply Hnot, Hlisted. split; [by eapply list_elem_of_lookup_2|].
    by rewrite orb_false_r in Hhit.
  - unfold listed, matching_venvs. by rewrite lower_idem.
Qed.

End SearchCommand.

(** On the environments of ten projects: no project name or path
    contains [lib], and every environment that the command lists for
    [venv] is shown by the search of the list view. *)
Lemma search_command_within_list_filter_witness :
  let t := set_view venvs_view (new_TUI [] ten_envs) in
  matching_venvs "lib" (venvs t) = []
  /\ (forall i v, venvs t !! i = Some v ->
        v ∈ matching_venvs "venv" (venvs t) ->
        i ∈ filtered_items (_start_search "venv" t)).
Proof.
  intros t. split; [by vm_compute|].
  assert (Hpat : "venv"%string <> EmptyString) by done.
  assert (Hview : current_view t = venvs_view) by done.
  destruct (search_command_within_list_filter "venv" t Hpat Hview)
    as (_ & _ & Hin & _).
  exact Hin.
Defined.

(* ====================================================================== *)
(** * Further properties: the file index, going back, detected versions *)
(* ====================================================================== *)

Section FileIndex.
Variable os : OS.














End FileIndex.

Section EnterAndBack.

(** X23: Going back undoes a drill-in. From a well-formed state, when Enter
    changes the view, going back returns to the view, the breadcrumb,
    the mode and the bound environment of before, with the lists of
    records as they were; the cursor is at 0 and the marks are empty,
    whatever they were before the drill-in. *)
Theorem back_undoes_enter (t t' : TUI) :
  well_formed t -> _handle_enter t = Continue t' ->
  current_view t' <> current_view t ->
  current_view (_go_back t') = current_view t
  /\ breadcrumb (_go_back t') = breadcrumb t
  /\ mode (_go_back t') = mode t
  /\ selected_venv (_go_back t') = selected_venv t
  /\ venvs (_go_back t') = venvs t
  /\ interpreters (_go_back t') = interpreters t
  /\ cursor (_go_back t') = 0
  /\ scroll_offset (_go_back t') = 0
  /\ selected_items (_go_back t') = ∅.
Proof.
  intros (Hmode & Hdepth & _ & _ & Hsel & _ & _) Henter Hmoved.
  assert (Hnone : current_view t <> venv_detail -> selected_venv t = None).
  { intros Hv. destruct (selected_venv t) eqn:Hs; [|done].
    exfalso. apply Hv, Hsel. done. }
  revert Henter Hmoved. unfold _handle_enter.
  destruct (current_view t) eqn:Hview; simpl in Hdepth.
  - assert (Hm : mode t = None) by by apply Hmode.
    destruct (nth_error _ (cursor t)) as [[selected|]|]; try done;
      intros [= <-]; [|done]. intros _. cbn.
    rewrite Hnone by done. apply nil_length_inv in Hdepth.
    by rewrite Hdepth, Hm.
  - apply nil_length_inv in Hdepth.
    destruct (cursor t =? 0); [|destruct (cursor t =? 1);
      [|destruct ((cursor t =? 2) && _)]];
      intros [= <-]; try done; intros _; cbn;
      by rewrite Hnone, Hdepth by done.
  - by intros [= <-].
  - case_bool_decide; [|by intros [= <-]].
    destruct (venvs t !! cursor t) as [sv|]; intros [= <-]; [|done].
    intros _. cbn. rewrite Hnone by done.
    by rewrite List.removelast_last.
  - by intros [= <-].
  - by intros [= <-].
Qed.

End EnterAndBack.

(** From the mode screen: Enter on the first mode, then back. *)
Lemma back_undoes_enter_witness :
  exists t', _handle_enter (new_TUI [] ten_envs) = Continue t'
             /\ current_view t' = category_select
             /\ current_view (_go_back t') = mode_select
             /\ mode (_go_back t') = None.
Proof.
  eexists. split; [reflexivity|]. split; [reflexivity|].
  destruct (back_undoes_enter (new_TUI [] ten_envs) _
              (well_formed_new [] ten_envs) eq_refl)
    as (Hv & _ & Hm & _); [done|].
  split; [exact Hv | exact Hm].
Defined.

Section DetectedVersions.
Variable os : OS.

Lemma lstrip_head (s : string) c r :
  lstrip s = String c r -> is_space c = false.
Proof.
  induction s as [|a s IH]; simpl; [done|].
  destruct (is_space a) eqn:Ha; [done|]. by intros [= <- _].
Qed.

Lemma lstrip_suffix (s : string) :
  exists ws, s = (ws ++ lstrip s)%string.
Proof.
  induction s as [|a s [ws IH]]; [by exists EmptyString|].
  cbn [lstrip]. destruct (is_space a).
  - exists (String a ws).
    change (String a s = String a (ws ++ lstrip s)%string). by f_equal.
  - by exists EmptyString.
Qed.

Lemma list_ascii_of_string_app (a b : string) :
  list_ascii_of_string (a ++ b)
  = list_ascii_of_string a ++ list_ascii_of_string b.
Proof.
  induction a as [|c a IH]; [done|].
  change (c :: list_ascii_of_string (a ++ b)
          = c :: (list_ascii_of_string a ++ list_ascii_of_string b)).
  by rewrite IH.
Qed.

Lemma string_of_list_ascii_app (l1 l2 : list ascii) :
  string_of_list_ascii (l1 ++ l2)
  = (string_of_list_ascii l1 ++ string_of_list_ascii l2)%string.
Proof.
  induction l1 as [|c l1 IH]; [done|].
  change (String c (string_of_list_ascii (l1 ++ l2))
          = String c (string_of_list_ascii l1 ++ string_of_list_ascii l2)%string).
  by rewrite IH.
Qed.

Lemma string_rev_app (a b : string) :
  string_rev (a ++ b) = (string_rev b ++ string_rev a)%string.
Proof.
  unfold string_rev.
  by rewrite list_ascii_of_string_app, rev_app_distr,
    string_of_list_ascii_app.
Qed.

Lemma string_rev_involutive (a : string) : string_rev (string_rev a) = a.
Proof.
  unfold string_rev.
  by rewrite list_ascii_of_string_of_list_ascii, rev_involutive,
    string_of_list_ascii_of_string.
Qed.

(** What [strip] leaves starts with a character that is not white
    space. *)
Lemma strip_head (s : string) c r :
  strip s = String c r -> is_space c = false.
Proof.
  unfold strip. intros Hs.
  destruct (lstrip_suffix (string_rev (lstrip s))) as [ws Hws].
  apply (f_equal string_rev) in Hws.
  rewrite string_rev_involutive, string_rev_app, Hs in Hws.
  by apply (lstrip_head s c (r ++ string_rev ws)).
Qed.

(** X18: The version that both [_detect_info] store comes from a run of the
    version command that exited with status 0; it is the first line of
    the stripped output: not empty, on one line, and starting with a
    character that is not white space. Without such a run no version is
    stored. *)
Theorem detected_version_single_line (python_exec v : string) :
  detect_version os python_exec = Returns (Some v) ->
  (exists out,
      subprocess_run os [python_exec; "-c"; version_cmd] = Completed 0 out
      /\ v = first_line (strip out))
  /\ Str.free_of newline v = true
  /\ exists c r, v = String c r /\ is_space c = false.
Proof.
  unfold detect_version, run_python_command.
  destruct (subprocess_run os [python_exec; "-c"; version_cmd])
    as [rc out| | |] eqn:Hrun; simpl; try done.
  destruct (rc =? 0)%Z eqn:Hrc; simpl; [|done].
  apply Z.eqb_eq in Hrc as ->.
  destruct (String.eqb (strip out) EmptyString) eqn:Hempty; [done|].
  intros [= <-]. split; [by exists out|].
  unfold first_line.
  pose proof (split_parts_free newline (strip out)) as Hfree.
  destruct (strip out) as [|c r] eqn:Hstrip; [done|].
  pose proof (strip_head out c r Hstrip) as Hc.
  revert Hfree. cbn [Str.split].
  assert (Hnl : Ascii.eqb c newline = false).
  { apply Ascii.eqb_neq. intros ->. done. }
  rewrite Hnl.
  destruct (Str.split newline r) as [|h l]; simpl;
    intros Hfree; inversion Hfree; subst; (split; [done|]); by eexists _, _.
Qed.

End DetectedVersions.

(** The version of an interpreter that prints two lines. *)
Lemma detected_version_single_line_witness :
  let os :=
    {| abspath := fun p => p; realpath := fun p => p;
       expanduser := fun p => p; path_exists := fun _ => true;
       isdir := fun _ => true; access_X_OK := fun _ => true;
       scandir := fun _ => ListingDenied; getmtime := fun _ => None;
       dir_size := fun _ => 0;
       subprocess_run := fun _ =>
         Completed 0 (String newline "3.11.4 (main)"
                      ++ String newline "[GCC 12.2.0]" ++ String newline "");
       json_loads := fun _ => None;
       environ_PATH := EmptyString; platform_system := "Linux" |}%string in
  detect_version os "/usr/bin/python3"
  = Returns (Some "3.11.4 (main)"%string)
  /\ Str.free_of newline "3.11.4 (main)" = true.
Proof.
  intros os.
  assert (Hv : detect_version os "/usr/bin/python3"
               = Returns (Some "3.11.4 (main)"%string)) by by vm_compute.
  split; [exact Hv|].
  destruct (detected_version_single_line os _ _ Hv) as (_ & Hfree & _).
  exact Hfree.
Defined.

(* ====================================================================== *)
(** * Further properties: the whole loop of [run] *)
(* ====================================================================== *)

Section RunLoop.
Variable World : Type.
Variable machine : World -> OS.
Variable exec : list string -> World -> World.
Variable rmtree : string -> World -> World * bool.

(** A record after a probe: only the package list and the loaded flag
    may differ. *)
Definition reloaded (v v' : VirtualEnv) : Prop :=
  path v' = path v /\ name v' = name v /\ project_name v' = project_name v
  /\ python_version v' = python_version v /\ manager v' = manager v
  /\ size_bytes v' = size_bytes v /\ last_modified v' = last_modified v
  /\ python_executable v' = python_executable v.

(** What drawing a screen changes: the detail view goes back when no
    environment is bound; otherwise the detail view and the analysis
    probe records, which changes at most the package lists of the
    records of the state. *)
Definition drawn (t u : TUI) : Prop :=
  (current_view t = venv_detail /\ selected_venv t = None /\ u = _go_back t)
  \/ (Forall2 reloaded (venvs t) (venvs u)
      /\ option_Forall2 reloaded (selected_venv t) (selected_venv u)
      /\ interpreters u = interpreters t /\ mode u = mode t
      /\ current_view u = current_view t /\ cursor u = cursor t
      /\ scroll_offset u = scroll_offset t
      /\ selected_items u = selected_items t
      /\ breadcrumb u = breadcrumb t /\ show_help u = show_help t
      /\ search_mode u = search_mode t /\ search_query u = search_query t
      /\ filtered_items u = filtered_items t).

(** The position given for the environment bound holds a record of its
    path: the record itself, when nothing has reloaded one of the two
    values that stand for the one object. *)
Definition bound_at (position : option nat) (t : TUI) : Prop :=
  forall i, position = Some i ->
    exists v sv, venvs t !! i = Some v /\ selected_venv t = Some sv
                 /\ path v = path sv.

(** One step of the loop of [run] that lets the loop go on: drawing
    (the processes that it runs may change the machine), one of the keys
    of [handle_key], or the key [u] in package mode. *)
Inductive turn : TUI * World -> TUI * World -> Prop :=
  | turn_draw t u w w' :
      drawn t u -> turn (t, w) (u, w')
  | turn_key key height typed t w t' w' :
      handle_key (machine w) World rmtree key height typed t w
        = (Continue t', w') ->
      turn (t, w) (t', w')
  | turn_u response position t w t' b w' :
      mode t = Some mode_package ->
      bound_at position t ->
      _confirm_uninstall World machine exec response position t w
        = (Uninstalled t', b) ->
      turn (t, w) (t', w').

Lemma reloaded_paths (l l' : list VirtualEnv) :
  Forall2 reloaded l l' -> List.map path l' = List.map path l.
Proof.
  induction 1 as [|v v' l l' (Hp & _) _ IH]; simpl; [done|].
  by rewrite Hp, IH.
Qed.

Lemma drawn_well_formed (t u : TUI) :
  well_formed t -> drawn t u ->
  well_formed u /\ List.map path (venvs u) = List.map path (venvs t)
  /\ interpreters u = interpreters t.
Proof.
  intros Hwf [(Hview & Hnone & ->) | Hsame].
  - split; [by apply go_back_well_formed|].
    by destruct (go_back_lists t) as [-> ->].
  - destruct Hsame as (Hvs & Hsv & Hi & Hm & Hv & _ & _ & Hs & Hb & _
                       & Hsm & Hq & Hf).
    split; [|split; [by apply reloaded_paths | done]].
    destruct Hwf as (H1 & H2 & H3 & H4 & H5 & H6 & H7).
    unfold well_formed. rewrite Hm, Hv, Hs, Hb, Hsm, Hq, Hf.
    split_and!; try done.
    rewrite H5. by destruct Hsv.
Qed.

Lemma confirm_uninstall_well_formed response position (t t' : TUI)
    (w : World) b :
  well_formed t -> bound_at position t ->
  _confirm_uninstall World machine exec response position t w
  = (Uninstalled t', b) ->
  well_formed t' /\ List.map path (venvs t') = List.map path (venvs t)
  /\ interpreters t' = interpreters t.
Proof.
  intros Hwf Hbound. unfold _confirm_uninstall.
  destruct (selected_venv t) as [sv|] eqn:Hsv; [|by intros [= <- _]].
  case_bool_decide; [by intros [= <- _]|].
  destruct (affirmative response); [|by intros [= <- _]].
  destruct (probe_packages _ sv true) as [sv'| |e] eqn:Hprobe;
    [|done|done].
  intros [= <- _]. split; [|split; [|done]].
  - destruct Hwf as (H1 & H2 & H3 & H4 & H5 & H6 & H7).
    unfold well_formed. cbn. rewrite Hsv in H5.
    split_and!; try done.
    split; [done|]. intros _. by apply H5.
  - cbn. destruct position as [i|]; [|done].
    destruct (Hbound i eq_refl) as (v & sv0 & Hi & Hsv0 & Hpath).
    rewrite Hsv in Hsv0. injection Hsv0 as <-.
    apply probe_packages_Done_path in Hprobe.
    rewrite <- (list_insert_id (venvs t) i v Hi) at 2.
    change (path <$> <[i:=sv']> (venvs t) = path <$> <[i:=v]> (venvs t)).
    rewrite !list_fmap_insert. congruence.
Qed.

(** X3: The loop of [run], drawing and every key included: every state that
    it reaches from the initial one is well formed (see [well_formed]),
    so that the detail view always has its environment and drawing never
    has to go back; the interpreter list is the initial one, and the
    environments are the initial ones less those deleted, in the same
    order, with at most their package lists changed. *)
Theorem run_loop_invariant (interps : list PythonInterpreter)
    (vs : list VirtualEnv) (w w' : World) (t' : TUI) :
  rtc turn (new_TUI interps vs, w) (t', w') ->
  well_formed t'
  /\ sublist (List.map path (venvs t')) (List.map path vs)
  /\ interpreters t' = interps
  /\ (current_view t' = venv_detail -> selected_venv t' <> None).
Proof.
  intros Hrun.
  assert (Hinv : well_formed (t', w').1
                 /\ sublist (List.map path (venvs (t', w').1))
                      (List.map path vs)
                 /\ interpreters (t', w').1 = interps).
  { revert Hrun. generalize (t', w'). intros s1 Hrun.
    eapply (rtc_ind_r
              (fun s => well_formed s.1
                        /\ sublist (List.map path (venvs s.1))
                             (List.map path vs)
                        /\ interpreters s.1 = interps));
      [| |exact Hrun].
    - split; [apply well_formed_new|]. by split.
    - intros [t1 w1] [t2 w2] _ Hstep (Hwf & Hsub & Hint). simpl in *.
      inversion Hstep as [? u ? ? Hdraw | key height typed ? ? ? ? Hkey
                         | response position ? ? ? b ? Hmode Hbound Hun];
        subst.
      + destruct (drawn_well_formed t1 t2 Hwf Hdraw) as (Hwf' & Hp & Hi).
        split; [done|]. split; [by rewrite Hp | congruence].
      + destruct (handle_key_well_formed (machine w1) World rmtree
                    _ _ _ _ _ _ _ Hwf Hkey) as (Hwf' & Hs & Hi).
        split; [done|]. split; [|congruence].
        etrans; [|exact Hsub]. by apply (fmap_sublist path).
      + destruct (confirm_uninstall_well_formed _ _ _ _ _ _ Hwf Hbound Hun)
          as (Hwf' & Hv & Hi).
        split; [done|]. split; [by rewrite Hv | congruence]. }
  simpl in Hinv.
  destruct Hinv as (Hwf & Hsub & Hint). split_and!; try done.
  destruct Hwf as (_ & _ & _ & _ & H5 & _). intros Hv. by apply H5.
Qed.

End RunLoop.

(** One pass of the loop on ten environments: the mode screen is drawn,
    and Enter chooses the list mode. *)
Lemma run_loop_invariant_witness :
  exists t',
    rtc (turn (list string) (fun _ => plain_os) (fun _ w => w) rmtree_ok)
      (new_TUI [] ten_envs, []) (t', [])
    /\ current_view t' = category_select
    /\ well_formed t'
    /\ sublist (List.map path (venvs t')) (List.map path ten_envs).
Proof.
  assert (Hkey : handle_key plain_os (list string) rmtree_ok KEY_ENTER 40%Z
                   EmptyString (new_TUI [] ten_envs) []
                 = (_handle_enter (new_TUI [] ten_envs), [])) by reflexivity.
  destruct (_handle_enter (new_TUI [] ten_envs)) as [t'| |] eqn:Henter;
    [|discriminate Henter|discriminate Henter].
  assert (Hrun : rtc (turn (list string) (fun _ => plain_os) (fun _ w => w) rmtree_ok)
                   (new_TUI [] ten_envs, []) (t', [])).
  { apply rtc_once.
    apply (turn_key _ _ _ _ KEY_ENTER 40%Z EmptyString _ _ _ _ Hkey). }
  exists t'. split; [exact Hrun|].
  split; [by injection Henter as <-|].
  destruct (run_loop_invariant (list string) (fun _ => plain_os) (fun _ w => w)
              rmtree_ok
              [] ten_envs [] [] t' Hrun) as (Hwf & Hsub & _).
  split; [exact Hwf | exact Hsub].
Defined.

(* ====================================================================== *)
(** * Further properties: discovery order, a search without a match *)
(* ====================================================================== *)

Section DiscoveryOrder.
Variable os : OS.

(** The paths of the records of a selection of keys that [abspath]
    leaves alone are these keys. *)
Lemma selection_paths {R} (ctor : string -> result R) (field : R -> string)
    (ks : list string) (records : list R) :
  (forall k r, ctor k = Returns r -> field r = abspath os k) ->
  (forall k, k ∈ ks -> abspath os k = k) ->
  selection ctor ks (records, ∅) ->
  sublist (List.map field records) ks.
Proof.
  intros Hfield Hks (keys & Hmade & Hsub).
  rewrite (made_paths os ctor field keys records Hfield); [done| |done].
  apply Forall_forall. intros k Hk. apply Hks.
  eapply elem_of_submseteq; [exact Hk | by apply sublist_submseteq].
Qed.

(** X24: The order of the results, [abspath] being idempotent. Whatever is
    denied on the way, the paths of the records that a discovery returns
    are, in order, a selection of the keys that its sources yield, in
    the order known locations (in the order of [MANAGER_PATHS]), then
    scan or PATH, then file index. Where no version probe is denied they
    are these keys, each at its first occurrence. *)
Theorem discovery_order :
  (forall p, abspath os (abspath os p) = abspath os p) ->
  (forall scan_path use_mdfind max_depth venvs,
      find_venvs os scan_path use_mdfind max_depth = Returns venvs ->
      exists lines,
        mdfind_lines os use_mdfind mdfind_venv_argv = Returns lines
        /\ sublist (List.map path venvs)
             (venv_source_keys os scan_path max_depth lines)
        /\ (probes_allowed os ->
            List.map path venvs
            = first_occurrences
                (venv_source_keys os scan_path max_depth lines)))
  /\ (forall use_mdfind interps,
         find_python_interpreters os use_mdfind = Returns interps ->
         exists lines,
           mdfind_lines os use_mdfind mdfind_interp_argv = Returns lines
           /\ sublist (List.map interp_path interps)
                (interp_source_keys os lines)
           /\ (probes_allowed os ->
               List.map interp_path interps
               = first_occurrences (interp_source_keys os lines))).
Proof.
  intros Hidem. split.
  - intros scan_path use_mdfind max_depth venvs Hfind.
    destruct (find_venvs_selects os _ _ _ _ Hfind) as (lines & Hlines & Hsel).
    exists lines. split; [done|]. split.
    + eapply selection_paths; [| |exact Hsel].
      * intros k r Hr. by apply new_VirtualEnv_Returns in Hr as [? _].
      * intros k Hk.
        destruct (venv_source_keys_absolute os _ _ _ _ Hk) as [p ->].
        apply Hidem.
    + intros Hallowed.
      destruct (find_venvs_first_occurrences os _ _ _ _ Hidem Hallowed Hfind)
        as (lines' & Hlines' & _ & Hpaths).
      rewrite Hlines in Hlines'. by injection Hlines' as <-.
  - intros use_mdfind interps Hfind.
    destruct (find_python_interpreters_selects os _ _ Hfind)
      as (lines & Hlines & Hsel).
    exists lines. split; [done|]. split.
    + eapply selection_paths; [| |exact Hsel].
      * apply new_PythonInterpreter_Returns.
      * intros k Hk.
        destruct (interp_source_keys_resolved os _ _ Hk) as [p ->].
        apply Hidem.
    + intros Hallowed.
      destruct (find_python_interpreters_first_occurrences os _ _ Hidem
                  Hallowed Hfind) as (lines' & Hlines' & _ & Hpaths).
      rewrite Hlines in Hlines'. by injection Hlines' as <-.
Qed.

End DiscoveryOrder.

(** On the machine with the linked home, where no probe is denied: the
    environment in the known location comes before the one that the
    scan of [~/envs] finds. *)
Lemma discovery_order_witness :
  (forall p, abspath linked_os (abspath linked_os p) = abspath linked_os p)
  /\ probes_allowed linked_os
  /\ exists venvs,
       find_venvs linked_os (Some "/home/u/envs"%string) false 3
       = Returns venvs
       /\ List.map path venvs = [env_x; env_x_by_link].
Proof.
  assert (Hidem : forall p, abspath linked_os (abspath linked_os p)
                            = abspath linked_os p) by (intros; reflexivity).
  assert (Hallowed : probes_allowed linked_os) by (intros exe; done).
  split; [exact Hidem|]. split; [exact Hallowed|].
  destruct (find_venvs linked_os (Some "/home/u/envs"%string) false 3)
    as [venvs|e] eqn:Hfind; [|by vm_compute in Hfind].
  exists venvs. split; [reflexivity|].
  destruct (discovery_order linked_os Hidem) as [Hvenvs _].
  destruct (Hvenvs _ _ _ _ Hfind) as (lines & Hlines & _ & Hpaths).
  rewrite (Hpaths Hallowed).
  vm_compute in Hlines. injection Hlines as <-. by vm_compute.
Defined.

Section SearchWithoutMatch.

(** X25: A search that matches nothing shows everything. After a search with
    a non-empty text in a list view, the items shown are those of the
    filter when it is not empty; when nothing matched, search mode is on
    with an empty filter, and the view shows the whole list again, each
    row standing for its own position. *)
Theorem search_without_match_shows_all (query : string) (t : TUI) :
  query <> EmptyString ->
  current_view t ∈ [interpreters_view; venvs_view; venv_detail] ->
  (current_view t = venv_detail -> selected_venv t <> None) ->
  let t' := _start_search query t in
  search_mode t' = true
  /\ (filtered_items t' <> [] ->
      current_item_count t' = length (filtered_items t'))
  /\ (filtered_items t' = [] ->
      Z.of_nat (current_item_count t') = unfiltered_count t
      /\ forall idx, original_idx t' idx = idx).
Proof.
  intros Hq%String.eqb_neq Hview Hbound t'. subst t'.
  unfold _start_search. rewrite Hq. cbn [negb].
  unfold current_item_count, original_idx, unfiltered_count.
  cbn [search_mode set_scroll_offset set_cursor filtered_items current_view
       selected_venv interpreters venvs].
  unfold _apply_search_filter.
  cbn [search_mode set_search filtered_items current_view selected_venv
       interpreters venvs search_query].
  split; [done|].
  rewrite !elem_of_cons, elem_of_nil in Hview.
  destruct Hview as [Hv | [Hv | [Hv | []]]]; rewrite Hv in *; cbn [andb].
  - split.
    + intros Hne. by rewrite bool_decide_eq_false_2.
    + intros Hnil. rewrite Hnil. simpl. split; [done|].
      intros idx. by destruct idx.
  - split.
    + intros Hne. by rewrite bool_decide_eq_false_2.
    + intros Hnil. rewrite Hnil. simpl. split; [done|].
      intros idx. by destruct idx.
  - destruct (selected_venv t) as [sv|] eqn:Hsv; [|by destruct Hbound].
    split.
    + intros Hne. rewrite bool_decide_eq_false_2 by done.
      by rewrite bool_decide_eq_true_2.
    + intros Hnil. rewrite Hnil. simpl. split; [done|].
      intros idx. by destruct idx.
Qed.

End SearchWithoutMatch.

(** Searching ten environments for a text that none contains. *)
Lemma search_without_match_shows_all_witness :
  let t := set_view venvs_view (new_TUI [] ten_envs) in
  filtered_items (_start_search "zzz" t) = []
  /\ current_item_count (_start_search "zzz" t) = 10.
Proof.
  intros t.
  assert (Hnone : filtered_items (_start_search "zzz" t) = [])
    by by vm_compute.
  split; [exact Hnone|].
  destruct (search_without_match_shows_all "zzz" t) as (_ & _ & Hall).
  - done.
  - cbn. set_solver.
  - by intros Hv.
  - destruct (Hall Hnone) as [Hcount _].
    apply Nat2Z.inj. rewrite Hcount. reflexivity.
Defined.

